(** * ClaudeKit Plans: the markdown phase parser and its normalizers

    A shallow embedding of the parsing core of the extension
    ([parser/statusUtils.ts], [parser/metadataExtractor.ts],
    [parser/phaseMetadataExtractor.ts], [parser/planScanner.ts] and
    [parser/planParser.ts]) and of what shows its results (the sorting
    and filtering of [treeProvider.ts], [statusBar.ts], the refresh of
    [planProject.ts] and the aggregation of [extension.ts]), with the
    properties its specification states (C1 to C10) and further
    properties of the code (X1 to X28).

    JavaScript strings are sequences of UTF-16 code units, so a string is
    a [list N]; regular expressions are run by a small backtracking
    matcher that follows the ECMAScript matching order (leftmost start,
    greedy or lazy repetition, alternatives left to right). *)

From Stdlib Require Import Strings.String Strings.Ascii.
From stdpp Require Import gmap list.
From Stdlib Require Import ZArith NArith List Bool Lia.
From Stdlib Require Import Floats.
From Stdlib Require Import Sorted.
Import ListNotations.

Local Open Scope N_scope.

(* ===================================================================== *)
(** ** JavaScript strings *)
(* ===================================================================== *)

Module JS.

(** A string is its sequence of UTF-16 code units. *)
Definition jsstring : Type := list N.

(** An ASCII literal of the source, as code units. *)
Definition js (s : String.string) : jsstring :=
  map Ascii.N_of_ascii (String.list_ascii_of_string s).
Arguments js s%_string.

Definition between (lo hi c : N) : bool := (lo <=? c) && (c <=? hi).

(** ECMAScript LineTerminator: LF, CR, LS, PS. *)
Definition isLineTerminator (c : N) : bool :=
  (c =? 10) || (c =? 13) || (c =? 0x2028) || (c =? 0x2029).

(** ECMAScript WhiteSpace and LineTerminator, the set that
    [String.prototype.trim] strips and that [\s] matches. *)
Definition isWhiteSpace (c : N) : bool :=
  between 9 13 c || (c =? 32) || (c =? 0xA0) || (c =? 0x1680)
  || between 0x2000 0x200A c || (c =? 0x2028) || (c =? 0x2029)
  || (c =? 0x202F) || (c =? 0x205F) || (c =? 0x3000) || (c =? 0xFEFF).

Definition isDigit (c : N) : bool := between 48 57 c.

(** [toLowerCase], one code unit at a time.  The table covers Basic
    Latin, Latin-1 Supplement and Latin Extended-A (U+0000..U+017F);
    code units above U+017F are left as they are. *)
Definition lowerUnit (c : N) : jsstring :=
  if between 65 90 c then [c + 32]
  else if between 0xC0 0xDE c && negb (c =? 0xD7) then [c + 32]
  else if c =? 0x130 then [0x69; 0x307]
  else if c =? 0x178 then [0xFF]
  else if (between 0x100 0x12F c || between 0x132 0x137 c
           || between 0x14A 0x177 c) && N.even c then [c + 1]
  else if (between 0x139 0x148 c || between 0x179 0x17E c) && N.odd c
       then [c + 1]
  else [c].

Definition toLowerCase (s : jsstring) : jsstring := flat_map lowerUnit s.

(** [toUpperCase], same range as [lowerUnit]. *)
Definition upperUnit (c : N) : jsstring :=
  if between 97 122 c then [c - 32]
  else if c =? 0xB5 then [0x39C]
  else if c =? 0xDF then [0x53; 0x53]
  else if between 0xE0 0xFE c && negb (c =? 0xF7) then [c - 32]
  else if c =? 0xFF then [0x178]
  else if c =? 0x131 then [0x49]
  else if c =? 0x149 then [0x2BC; 0x4E]
  else if c =? 0x17F then [0x53]
  else if (between 0x100 0x12F c || between 0x132 0x137 c
           || between 0x14A 0x177 c) && N.odd c then [c - 1]
  else if (between 0x139 0x148 c || between 0x179 0x17E c) && N.even c
       then [c - 1]
  else [c].

Definition toUpperCase (s : jsstring) : jsstring := flat_map upperUnit s.

Fixpoint trimStart (s : jsstring) : jsstring :=
  match s with
  | c :: t => if isWhiteSpace c then trimStart t else s
  | [] => []
  end.

Definition trimEnd (s : jsstring) : jsstring := rev (trimStart (rev s)).

Definition trim (s : jsstring) : jsstring := trimEnd (trimStart s).

Fixpoint eqb (a b : jsstring) : bool :=
  match a, b with
  | [], [] => true
  | x :: a', y :: b' => (x =? y) && eqb a' b'
  | _, _ => false
  end.

Fixpoint startsWith (s prefix : jsstring) {struct prefix} : bool :=
  match prefix, s with
  | [], _ => true
  | p :: prefix', c :: s' => (c =? p) && startsWith s' prefix'
  | _ :: _, [] => false
  end.

(** [s.includes(needle)]. *)
Fixpoint includes (s needle : jsstring) : bool :=
  startsWith s needle ||
  match s with
  | [] => false
  | _ :: t => includes t needle
  end.

(** [s.split(sep)] for a separator of one code unit. *)
Fixpoint split (sep : N) (s : jsstring) : list jsstring :=
  match s with
  | [] => [[]]
  | c :: t =>
      match split sep t with
      | piece :: pieces =>
          if c =? sep then [] :: piece :: pieces else (c :: piece) :: pieces
      | [] => [[c]]
      end
  end.

(** [pieces.join(sep)]. *)
Fixpoint join (sep : jsstring) (pieces : list jsstring) : jsstring :=
  match pieces with
  | [] => []
  | [p] => p
  | p :: ps => p ++ sep ++ join sep ps
  end.

(** [s.slice(a, b)] for [0 <= a <= b]. *)
Definition slice (a b : nat) (s : jsstring) : jsstring :=
  firstn (b - a) (skipn a s).

(** [parseInt(s, 10)] on a string of decimal digits, as the exact integer
    (the rounding of values above 2^53 to a double is not modelled). *)
Definition parseInt (s : jsstring) : Z :=
  fold_left (fun acc c => (acc * 10 + Z.of_N (c - 48))%Z) s 0%Z.

(** Decimal rendering of a non-negative integer, as in a template literal. *)
Fixpoint digitsOf (fuel : nat) (n : N) (acc : jsstring) : jsstring :=
  match fuel with
  | O => acc
  | S fuel' =>
      let acc' := (48 + n mod 10) :: acc in
      if n <? 10 then acc' else digitsOf fuel' (n / 10) acc'
  end.

Definition numberToString (z : Z) : jsstring :=
  match z with
  | Zneg p => 45 :: digitsOf (S (N.to_nat (N.log2 (Npos p)))) (Npos p) []
  | _ => digitsOf (S (N.to_nat (N.log2 (Z.to_N z)))) (Z.to_N z) []
  end.

End JS.

Export JS.

(* ===================================================================== *)
(** ** Regular expressions *)
(* ===================================================================== *)

Module Regex.

(** The fragment of ECMAScript patterns the parser uses.  [Unit] reads one
    code unit (patterns without the [u] flag), [Point] one code point
    (patterns with it).  Case-insensitivity is part of the predicate of
    each atom. *)
Inductive regex : Type :=
| Empty
| Unit (p : N -> bool)
| Point (p : N -> bool)
| Cat (r1 r2 : regex)
| Alt (r1 r2 : regex)
| Star (r : regex)
| LazyStar (r : regex)
| Group (i : nat) (r : regex)
| LineStart (multiline : bool)
| LineEnd (multiline : bool).

Definition Plus (r : regex) : regex := Cat r (Star r).
Definition LazyPlus (r : regex) : regex := Cat r (LazyStar r).
Definition Opt (r : regex) : regex := Alt r Empty.

Fixpoint Times (n : nat) (r : regex) : regex :=
  match n with
  | O => Empty
  | S n' => Cat r (Times n' r)
  end.

(** [r{0,n}], greedy. *)
Fixpoint UpTo (n : nat) (r : regex) : regex :=
  match n with
  | O => Empty
  | S n' => Opt (Cat r (UpTo n' r))
  end.

Fixpoint CatAll (rs : list regex) : regex :=
  match rs with
  | [] => Empty
  | [r] => r
  | r :: rs' => Cat r (CatAll rs')
  end.

Fixpoint AltAll (rs : list regex) : regex :=
  match rs with
  | [] => Empty
  | [r] => r
  | r :: rs' => Alt r (AltAll rs')
  end.

(** Atoms. *)
Definition chr (c : N) : regex := Unit (N.eqb c).
Definition oneOf (cs : jsstring) : N -> bool :=
  fun c => existsb (N.eqb c) cs.
Definition noneOf (cs : jsstring) : N -> bool :=
  fun c => negb (existsb (N.eqb c) cs).
(** A letter under the [i] flag without [u]: both ASCII cases. *)
Definition letterI (c : N) : N -> bool :=
  fun x => (x =? c) || (between 65 90 c && (x =? c + 32))
           || (between 97 122 c && (x =? c - 32)).
(** A letter under the flags [iu]: simple case folding also identifies
    U+017F with s and U+212A with k. *)
Definition letterIU (c : N) : N -> bool :=
  fun x => letterI c x
           || (((c =? 83) || (c =? 115)) && (x =? 0x17F))
           || (((c =? 75) || (c =? 107)) && (x =? 0x212A)).
Definition digit : regex := Unit isDigit.
Definition space : regex := Unit isWhiteSpace.
(** [.]: anything but a line terminator. *)
Definition dot : regex := Unit (fun c => negb (isLineTerminator c)).

(** A literal, per code unit. *)
Definition lit (s : String.string) : regex := CatAll (map chr (js s)).
Definition litI (s : String.string) : regex :=
  CatAll (map (fun c => Unit (letterI c)) (js s)).
Definition litIU (s : String.string) : regex :=
  CatAll (map (fun c => Point (letterIU c)) (js s)).
Arguments lit s%_string.
Arguments litI s%_string.
Arguments litIU s%_string.

(** Matcher state: the consumed input (nearest unit first), the input
    still to read, and the groups captured so far (latest first). *)
Record mstate : Type := MState {
  before : jsstring;
  after : jsstring;
  caps : list (nat * jsstring)
}.

Definition advance (n : nat) (s : mstate) : mstate :=
  MState (rev (firstn n (after s)) ++ before s) (skipn n (after s)) (caps s).

Definition isHigh (c : N) : bool := between 0xD800 0xDBFF c.
Definition isLow (c : N) : bool := between 0xDC00 0xDFFF c.

(** The code point at the head of the input and its length in units. *)
Definition codePointAt (s : jsstring) : option (N * nat) :=
  match s with
  | [] => None
  | c :: t =>
      match t with
      | d :: _ =>
          if isHigh c && isLow d
          then Some (0x10000 + (c - 0xD800) * 0x400 + (d - 0xDC00), 2%nat)
          else Some (c, 1%nat)
      | [] => Some (c, 1%nat)
      end
  end.

(** The input still to read, as a measure. *)
Definition remaining (s : mstate) : nat := length (after s).

(** The iterations of [r*], given the matcher [step] of [r] and the
    continuation [k] of the repetition.  An iteration that consumed
    nothing is given up, as in ECMAScript's RepeatMatcher, so the input
    still to read bounds the number of iterations and is the [fuel]. *)
Definition greedyLoop
  (step : (mstate -> option mstate) -> mstate -> option mstate)
  (k : mstate -> option mstate) : nat -> mstate -> option mstate :=
  fix loop (fuel : nat) (s0 : mstate) {struct fuel} : option mstate :=
    match fuel with
    | O => k s0
    | S fuel' =>
        match step
                (fun s1 =>
                   if (length (after s1) <? length (after s0))%nat
                   then loop fuel' s1 else None) s0 with
        | Some m => Some m
        | None => k s0
        end
    end.

(** The iterations of [r*?]: the continuation is tried first. *)
Definition lazyLoop
  (step : (mstate -> option mstate) -> mstate -> option mstate)
  (k : mstate -> option mstate) : nat -> mstate -> option mstate :=
  fix loop (fuel : nat) (s0 : mstate) {struct fuel} : option mstate :=
    match fuel with
    | O => k s0
    | S fuel' =>
        match k s0 with
        | Some m => Some m
        | None =>
            step
              (fun s1 =>
                 if (length (after s1) <? length (after s0))%nat
                 then loop fuel' s1 else None) s0
        end
    end.

(** Backtracking matcher in continuation style: [rmatch r k s] is the
    first way to match [r] at [s] that the continuation [k] accepts. *)
Fixpoint rmatch (r : regex) (k : mstate -> option mstate) (s : mstate)
  {struct r} : option mstate :=
  match r with
  | Empty => k s
  | Unit p =>
      match after s with
      | c :: _ => if p c then k (advance 1 s) else None
      | [] => None
      end
  | Point p =>
      match codePointAt (after s) with
      | Some (cp, n) => if p cp then k (advance n s) else None
      | None => None
      end
  | Cat r1 r2 => rmatch r1 (rmatch r2 k) s
  | Alt r1 r2 =>
      match rmatch r1 k s with
      | Some m => Some m
      | None => rmatch r2 k s
      end
  | Star r1 => greedyLoop (rmatch r1) k (length (after s)) s
  | LazyStar r1 => lazyLoop (rmatch r1) k (length (after s)) s
  | Group i r1 =>
      rmatch r1
        (fun s1 =>
           k (MState (before s1) (after s1)
                ((i, firstn (length (after s) - length (after s1)) (after s))
                   :: caps s1)))
        s
  | LineStart multiline =>
      match before s with
      | [] => k s
      | c :: _ => if multiline && isLineTerminator c then k s else None
      end
  | LineEnd multiline =>
      match after s with
      | [] => k s
      | c :: _ => if multiline && isLineTerminator c then k s else None
      end
  end.

(** What it means for a pattern to match between two states, apart from
    the order in which the matcher tries the ways to match: [reaches r s
    s'] holds when [r] can take the state [s] to [s']. *)
Inductive reaches : regex -> mstate -> mstate -> Prop :=
| reaches_Empty s : reaches Empty s s
| reaches_Unit p s c t :
    after s = c :: t -> p c = true -> reaches (Unit p) s (advance 1 s)
| reaches_Point p s cp n :
    codePointAt (after s) = Some (cp, n) -> p cp = true ->
    reaches (Point p) s (advance n s)
| reaches_Cat r1 r2 s s1 s2 :
    reaches r1 s s1 -> reaches r2 s1 s2 -> reaches (Cat r1 r2) s s2
| reaches_Alt_left r1 r2 s s' : reaches r1 s s' -> reaches (Alt r1 r2) s s'
| reaches_Alt_right r1 r2 s s' : reaches r2 s s' -> reaches (Alt r1 r2) s s'
| reaches_Star_stop r s : reaches (Star r) s s
| reaches_Star_more r s s1 s2 :
    reaches r s s1 -> (remaining s1 < remaining s)%nat ->
    reaches (Star r) s1 s2 -> reaches (Star r) s s2
| reaches_LazyStar_stop r s : reaches (LazyStar r) s s
| reaches_LazyStar_more r s s1 s2 :
    reaches r s s1 -> (remaining s1 < remaining s)%nat ->
    reaches (LazyStar r) s1 s2 -> reaches (LazyStar r) s s2
| reaches_Group i r s s1 :
    reaches r s s1 ->
    reaches (Group i r) s
      (MState (before s1) (after s1)
         ((i, firstn (length (after s) - length (after s1)) (after s))
            :: caps s1))
| reaches_LineStart_first multiline s :
    before s = [] -> reaches (LineStart multiline) s s
| reaches_LineStart_line s c t :
    before s = c :: t -> isLineTerminator c = true ->
    reaches (LineStart true) s s
| reaches_LineEnd_last multiline s :
    after s = [] -> reaches (LineEnd multiline) s s
| reaches_LineEnd_line s c t :
    after s = c :: t -> isLineTerminator c = true ->
    reaches (LineEnd true) s s.

(** The result of [exec]: index and text of the match and its groups. *)
Record rmatched : Type := RMatch {
  index : nat;
  matched : jsstring;
  groups : list (nat * jsstring);
  rest : mstate
}.

(** [m[i]], [None] for a group that did not take part. *)
Definition group (i : nat) (m : rmatched) : option jsstring :=
  match find (fun c => Nat.eqb (fst c) i) (groups m) with
  | Some c => Some (snd c)
  | None => None
  end.

(** [m[i]] where the group always takes part in a match. *)
Definition group' (i : nat) (m : rmatched) : jsstring :=
  match group i m with
  | Some g => g
  | None => []
  end.

Definition matchAt (r : regex) (s : mstate) : option rmatched :=
  match rmatch r Some (MState (before s) (after s) []) with
  | Some e =>
      Some (RMatch (length (before s))
              (firstn (length (after s) - length (after e)) (after s))
              (caps e) e)
  | None => None
  end.

(** Leftmost match at or after the position of [s].  With [unicode] the
    start index moves by code points. *)
Fixpoint searchFrom (unicode : bool) (r : regex) (fuel : nat) (s : mstate)
  : option rmatched :=
  match matchAt r s with
  | Some m => Some m
  | None =>
      match fuel with
      | O => None
      | S fuel' =>
          match codePointAt (after s) with
          | None => None
          | Some (_, n) =>
              searchFrom unicode r fuel' (advance (if unicode then n else 1%nat) s)
          end
      end
  end.

(** The search from a state with the fuel that its input provides. *)
Definition searchAt (unicode : bool) (r : regex) (s : mstate)
  : option rmatched :=
  searchFrom unicode r (remaining s) s.

Definition start (input : jsstring) : mstate := MState [] input [].

(** [r.exec(input)] for a pattern without the [g] flag. *)
Definition exec (r : regex) (input : jsstring) : option rmatched :=
  searchFrom false r (length input) (start input).

Definition execU (r : regex) (input : jsstring) : option rmatched :=
  searchFrom true r (length input) (start input).

(** [r.test(input)]. *)
Definition test (r : regex) (input : jsstring) : bool :=
  match exec r input with Some _ => true | None => false end.

(** The matches that the loop [while ((m = r.exec(input)) !== null)]
    visits for a pattern with the [g] flag: each search starts where the
    previous match ended.  The patterns of the parser consume at least one
    unit per match; the enumeration stops at an empty match. *)
Fixpoint matchesFrom (unicode : bool) (r : regex) (fuel : nat) (s : mstate)
  : list rmatched :=
  match fuel with
  | O => []
  | S fuel' =>
      match searchFrom unicode r (length (after s)) s with
      | None => []
      | Some m =>
          if (length (after (rest m)) <? length (after s))%nat
          then m :: matchesFrom unicode r fuel'
                      (MState (before (rest m)) (after (rest m)) [])
          else [m]
      end
  end.

Definition matchAll (r : regex) (input : jsstring) : list rmatched :=
  matchesFrom false r (S (length input)) (start input).

Definition matchAllU (r : regex) (input : jsstring) : list rmatched :=
  matchesFrom true r (S (length input)) (start input).

(** [input.replace(r, f)] for a pattern with the [g] flag. *)
Fixpoint rebuild (pos : nat) (input : jsstring) (f : rmatched -> jsstring)
  (ms : list rmatched) : jsstring :=
  match ms with
  | [] => skipn pos input
  | m :: ms' =>
      firstn (index m - pos) (skipn pos input) ++ f m
        ++ rebuild (index m + length (matched m)) input f ms'
  end.

Definition replaceAll (r : regex) (f : rmatched -> jsstring)
  (input : jsstring) : jsstring :=
  rebuild 0 input f (matchAll r input).

End Regex.

Export Regex.

(* ===================================================================== *)
(** ** Node's [path] module (POSIX flavour) *)
(* ===================================================================== *)

Module Path.

Definition slash : N := 47.

(** Resolution of [.] and [..] segments, right to left. *)
Fixpoint normalizeSegments (segs : list jsstring) (out : list jsstring)
  : list jsstring :=
  match segs with
  | [] => rev out
  | seg :: segs' =>
      if JS.eqb seg [] || JS.eqb seg (js ".") then normalizeSegments segs' out
      else if JS.eqb seg (js "..") then normalizeSegments segs' (tl out)
      else normalizeSegments segs' (seg :: out)
  end.

(** [path.resolve(dir, rel)]; a relative [dir] is resolved against the
    root directory. *)
Definition resolve (dir rel : jsstring) : jsstring :=
  let full := if startsWith rel [slash] then rel else dir ++ [slash] ++ rel in
  slash :: join [slash] (normalizeSegments (split slash full) []).

Fixpoint dropTrailingSlashes (r : jsstring) : jsstring :=
  match r with
  | c :: t => if c =? slash then dropTrailingSlashes t else r
  | [] => []
  end.

Fixpoint dropUntilSlash (r : jsstring) : jsstring :=
  match r with
  | c :: t => if c =? slash then r else dropUntilSlash t
  | [] => []
  end.

(** [path.dirname(p)]. *)
Definition dirname (p : jsstring) : jsstring :=
  let body := dropUntilSlash (dropTrailingSlashes (rev p)) in
  match dropTrailingSlashes body with
  | [] => if startsWith p [slash] then [slash] else js "."
  | d => rev d
  end.

(** [path.basename(p)]. *)
Definition basename (p : jsstring) : jsstring :=
  let r := dropTrailingSlashes (rev p) in
  rev (firstn (length r - length (dropUntilSlash r)) r).

(** Node's [normalizeString], by segments: empty segments and [.] are
    dropped; [..] removes the segment before it, is kept at the start of
    a relative path and dropped at the root of an absolute one.  [out]
    holds the segments kept so far, last first. *)
Fixpoint normalizeString (allowAboveRoot : bool) (segs out : list jsstring)
  : list jsstring :=
  match segs with
  | [] => rev out
  | seg :: segs' =>
      if JS.eqb seg [] || JS.eqb seg (js ".")
      then normalizeString allowAboveRoot segs' out
      else if JS.eqb seg (js "..")
      then
        match out with
        | prev :: out' =>
            if JS.eqb prev (js "..")
            then normalizeString allowAboveRoot segs'
                   (if allowAboveRoot then seg :: out else out)
            else normalizeString allowAboveRoot segs' out'
        | [] =>
            normalizeString allowAboveRoot segs'
              (if allowAboveRoot then [seg] else [])
        end
      else normalizeString allowAboveRoot segs' (seg :: out)
  end.

(** [path.normalize(p)]. *)
Definition normalize (p : jsstring) : jsstring :=
  if JS.eqb p [] then js "."
  else
    let isAbsolute := startsWith p [slash] in
    let trailingSeparator := startsWith (rev p) [slash] in
    let body :=
      JS.join [slash] (normalizeString (negb isAbsolute) (split slash p) []) in
    if JS.eqb body []
    then if isAbsolute then [slash]
         else if trailingSeparator then js "./" else js "."
    else
      let body' := if trailingSeparator then body ++ [slash] else body in
      if isAbsolute then slash :: body' else body'.

(** [path.join(...parts)]. *)
Definition join (parts : list jsstring) : jsstring :=
  match filter (fun part => negb (JS.eqb part [])) parts with
  | [] => js "."
  | joined => normalize (JS.join [slash] joined)
  end.

End Path.

(* ===================================================================== *)
(** ** Arrays *)
(* ===================================================================== *)

Module JSArray.

(** The result of a comparator as [sort] reads it: NaN, here [None],
    counts as +0. *)
Definition sortValue (v : option Z) : Z :=
  match v with Some z => z | None => 0%Z end.

(** [x] put into a sorted list of elements that followed it in the
    array: it passes the elements that the comparator puts before it and
    stays before the others, those it compares equal to included. *)
Fixpoint insertSorted {A} (comparefn : A -> A -> option Z) (x : A)
  (sorted : list A) : list A :=
  match sorted with
  | [] => [x]
  | y :: sorted' =>
      if (0 <? sortValue (comparefn x y))%Z
      then y :: insertSorted comparefn x sorted'
      else x :: sorted
  end.

(** [[...items].sort(comparefn)].  The sort of ECMAScript is stable, so
    for a consistent comparator this insertion sort gives its result; for
    an inconsistent one the standard leaves the order open. *)
Definition sort {A} (comparefn : A -> A -> option Z) (items : list A)
  : list A :=
  fold_right (insertSorted comparefn) [] items.

End JSArray.

(* ===================================================================== *)
(** ** [types.ts] *)
(* ===================================================================== *)

Inductive PhaseStatus : Type := completed | in_progress | pending.

Inductive PlanStatus : Type :=
| plan_completed | plan_in_progress | plan_pending | plan_cancelled.

(** The values a field read from YAML front matter can hold at run time.
    [VOther] stands for any other value (a mapping, a date, a non-integral
    number); all of those are truthy. *)
#[warnings="-register-all"]
Inductive jsval : Type :=
| VUndefined
| VNull
| VBool (b : bool)
| VNumber (z : Z)
| VString (s : jsstring)
| VArray (items : list jsval)
| VOther.

Definition truthy (v : jsval) : bool :=
  match v with
  | VUndefined | VNull => false
  | VBool b => b
  | VNumber z => negb (z =? 0)%Z
  | VString s => negb (JS.eqb s [])
  | VArray _ => true
  | VOther => true
  end.

(** [String(v)].  For [VOther] the text is that of a plain object; no
    caller compares it with anything but fixed words. *)
Fixpoint stringOf (v : jsval) : jsstring :=
  match v with
  | VUndefined => js "undefined"
  | VNull => js "null"
  | VBool b => if b then js "true" else js "false"
  | VNumber z => numberToString z
  | VString s => s
  | VArray items =>
      join (js ",")
        (map (fun item =>
                match item with
                | VUndefined | VNull => []
                | _ => stringOf item
                end) items)
  | VOther => js "[object Object]"
  end.

(** [a || b]. *)
Definition orElse (a b : jsval) : jsval := if truthy a then a else b.

Record PhaseData : Type := mkPhase {
  phase : Z;
  name : jsstring;
  status : PhaseStatus;
  file : jsstring;
  linkText : jsstring;
  effort : jsval
}.

(* ===================================================================== *)
(** ** [parser/statusUtils.ts] *)
(* ===================================================================== *)

Module StatusUtils.

(** The three non-ASCII literals of [normalizeStatus], code unit by code
    unit as the source file has them: U+00E2 U+0153 U+201C,
    U+00E2 U+0153 U+2026 and U+00F0 U+0178 U+201D U+201E. *)
Definition markCheck : jsstring := [0xE2; 0x153; 0x201C].
Definition markDone : jsstring := [0xE2; 0x153; 0x2026].
Definition markSync : jsstring := [0xF0; 0x178; 0x201D; 0x201E].

Definition normalizeStatus (raw : jsstring) : PhaseStatus :=
  let s := trim (toLowerCase raw) in
  if includes s (js "complete") || includes s (js "done")
     || includes s markCheck || includes s markDone
  then completed
  else if includes s (js "progress") || includes s (js "active")
          || includes s (js "wip") || includes s markSync
  then in_progress
  else pending.

(** [normalizeStatus] on a value that may be [null] or [undefined]:
    [(raw || '')]. *)
Definition normalizeStatusOf (raw : option jsstring) : PhaseStatus :=
  normalizeStatus (match raw with Some s => s | None => [] end).

Definition isCompleted (st : PhaseStatus) : bool :=
  match st with completed => true | _ => false end.

Definition isInProgress (st : PhaseStatus) : bool :=
  match st with in_progress => true | _ => false end.

Definition calculatePlanStatus (phases : list PhaseData) : PlanStatus :=
  if (length phases =? 0)%nat then plan_pending
  else
    let allCompleted := forallb (fun p => isCompleted (status p)) phases in
    if allCompleted then plan_completed
    else
      let hasInProgress := existsb (fun p => isInProgress (status p)) phases in
      let hasCompleted := existsb (fun p => isCompleted (status p)) phases in
      if hasInProgress || hasCompleted then plan_in_progress
      else plan_pending.

End StatusUtils.

Export StatusUtils.

(* ===================================================================== *)
(** ** The file system and the front matter library *)
(* ===================================================================== *)

(** What a path holds.  [NoAccess]: missing or not readable, so that
    [fs.promises.access] rejects; [Directory]: [access] resolves and
    [readFile] rejects; [File]: a readable file with its content and
    modification time. *)
Inductive fsentry : Type :=
| NoAccess
| Directory
| File (content : jsstring) (mtime : Z).

Definition filesystem : Type := jsstring -> fsentry.

(** A rejected promise or a thrown exception. *)
Inductive outcome (A : Type) : Type :=
| Returned (a : A)
| Thrown.
Arguments Returned {A} a.
Arguments Thrown {A}.

Definition readFile (fs : filesystem) (path : jsstring) : outcome jsstring :=
  match fs path with
  | File content _ => Returned content
  | _ => Thrown
  end.

(** [fs.promises.access(path, R_OK)] resolves. *)
Definition access (fs : filesystem) (path : jsstring) : bool :=
  match fs path with
  | NoAccess => false
  | _ => true
  end.

(** The [data] object that [gray-matter] parses out of a document: the
    keys of the YAML block with their values. *)
Definition frontdata : Type := list (jsstring * jsval).

(** [data.key], [undefined] for a key that is not there. *)
Definition field (data : frontdata) (key : String.string) : jsval :=
  match find (fun kv => JS.eqb (fst kv) (js key)) data with
  | Some kv => snd kv
  | None => VUndefined
  end.
Arguments field data key%_string.

(* ===================================================================== *)
(** ** [parser/phaseMetadataExtractor.ts] *)
(* ===================================================================== *)

Module PhaseMetadataExtractor.

Record PhaseFileMetadata : Type := mkMeta {
  metaStatus : PhaseStatus;
  reviewStatus : jsval;
  metaEffort : jsval;
  metaPriority : jsval;
  metaDescription : jsval;
  dependsOn : jsval;
  metaDate : jsval
}.

(** [Partial<PhaseFileMetadata>] together with the flag [foundStatus]. *)
Record partialMeta : Type := mkPartial {
  foundStatus : bool;
  pStatus : PhaseStatus;
  pReview : jsval;
  pEffort : jsval;
  pPriority : jsval;
  pDescription : jsval;
  pDependsOn : jsval;
  pDate : jsval
}.

Definition noMeta : partialMeta :=
  mkPartial false pending VUndefined VUndefined VUndefined VUndefined
    VUndefined VUndefined.

(** The row pattern of [extractFromOverviewTable], flag [g]: two cells
    between pipes, each read lazily and without the blanks around it. *)
Definition reTableRow : regex :=
  CatAll [lit "|"; Star space; Group 1 (LazyPlus (Unit (noneOf (js "|"))));
          Star space; lit "|"; Star space;
          Group 2 (LazyPlus (Unit (noneOf (js "|")))); Star space; lit "|"].

(** [field === k] for a literal [k]. *)
Definition named (fld : jsstring) (k : String.string) : bool :=
  JS.eqb fld (js k).
Arguments named fld k%_string.

Definition overviewRow (acc : partialMeta) (m : rmatched) : partialMeta :=
  let fld := toLowerCase (trim (group' 1 m)) in
  let value := trim (group' 2 m) in
  if named fld "field" || includes fld (js "---") then acc
  else if named fld "implementation status" || named fld "status" then
    mkPartial true (normalizeStatus value) (pReview acc) (pEffort acc)
      (pPriority acc) (pDescription acc) (pDependsOn acc) (pDate acc)
  else if named fld "review status" then
    mkPartial (foundStatus acc) (pStatus acc) (VString value) (pEffort acc)
      (pPriority acc) (pDescription acc) (pDependsOn acc) (pDate acc)
  else if named fld "effort" then
    mkPartial (foundStatus acc) (pStatus acc) (pReview acc) (VString value)
      (pPriority acc) (pDescription acc) (pDependsOn acc) (pDate acc)
  else if named fld "priority" then
    mkPartial (foundStatus acc) (pStatus acc) (pReview acc) (pEffort acc)
      (VString value) (pDescription acc) (pDependsOn acc) (pDate acc)
  else if named fld "description" then
    mkPartial (foundStatus acc) (pStatus acc) (pReview acc) (pEffort acc)
      (pPriority acc) (VString value) (pDependsOn acc) (pDate acc)
  else if named fld "depends on" || named fld "dependencies" then
    mkPartial (foundStatus acc) (pStatus acc) (pReview acc) (pEffort acc)
      (pPriority acc) (pDescription acc) (VString value) (pDate acc)
  else if named fld "date" then
    mkPartial (foundStatus acc) (pStatus acc) (pReview acc) (pEffort acc)
      (pPriority acc) (pDescription acc) (pDependsOn acc) (VString value)
  else acc.

Definition extractFromOverviewTable (content : jsstring)
  : option PhaseFileMetadata :=
  let metadata := fold_left overviewRow (matchAll reTableRow content) noMeta in
  if negb (foundStatus metadata) then None
  else Some (mkMeta (pStatus metadata) (pReview metadata) (pEffort metadata)
               (pPriority metadata) (pDescription metadata)
               (pDependsOn metadata) (pDate metadata)).

(** [/\*\*([^*]+)\*\*:?\s*([^|*\n]+)/g] *)
Definition reInline : regex :=
  CatAll [lit "**"; Group 1 (Plus (Unit (noneOf (js "*")))); lit "**";
          Opt (lit ":"); Star space;
          Group 2 (Plus (Unit (noneOf [124; 42; 10])))].

Definition inlineField (acc : partialMeta) (m : rmatched) : partialMeta :=
  let fld := toLowerCase (trim (group' 1 m)) in
  let value := trim (group' 2 m) in
  if named fld "status" then
    mkPartial true (normalizeStatus value) (pReview acc) (pEffort acc)
      (pPriority acc) (pDescription acc) (pDependsOn acc) (pDate acc)
  else if named fld "effort" then
    mkPartial (foundStatus acc) (pStatus acc) (pReview acc) (VString value)
      (pPriority acc) (pDescription acc) (pDependsOn acc) (pDate acc)
  else if named fld "priority" then
    mkPartial (foundStatus acc) (pStatus acc) (pReview acc) (pEffort acc)
      (VString value) (pDescription acc) (pDependsOn acc) (pDate acc)
  else if named fld "depends on" then
    mkPartial (foundStatus acc) (pStatus acc) (pReview acc) (pEffort acc)
      (pPriority acc) (pDescription acc) (VString value) (pDate acc)
  else acc.

Definition extractFromInlineMetadata (content : jsstring)
  : option PhaseFileMetadata :=
  let headerSection := join [10] (firstn 20 (split 10 content)) in
  let metadata := fold_left inlineField (matchAll reInline headerSection) noMeta in
  if negb (foundStatus metadata) then None
  else Some (mkMeta (pStatus metadata) VUndefined (pEffort metadata)
               (pPriority metadata) VUndefined (pDependsOn metadata)
               VUndefined).

Section WithFrontMatter.

(** [matter(content)] of the gray-matter library: the parsed [data], or
    [Thrown] when the YAML block is malformed. *)
Variable matter : jsstring -> outcome frontdata.

(** Inside its [try] block [normalizeStatus(data.status)] throws a
    TypeError for a truthy value that is not a string; the [catch]
    returns [null]. *)
Definition extractFromFrontmatter (content : jsstring)
  : option PhaseFileMetadata :=
  if negb (startsWith (trim content) (js "---")) then None
  else
    match matter content with
    | Thrown => None
    | Returned data =>
        if negb (truthy (field data "status")) then None
        else
          match field data "status" with
          | VString st =>
              Some (mkMeta (normalizeStatus st) VUndefined
                      (field data "effort") (field data "priority")
                      (field data "description")
                      (orElse (field data "depends_on") (field data "dependsOn"))
                      (orElse (field data "date") (field data "created")))
          | _ => None
          end
    end.

Variable fs : filesystem.

Definition extractPhaseMetadata (filePath : jsstring)
  : outcome (option PhaseFileMetadata) :=
  if negb (access fs filePath) then Returned None
  else
    match readFile fs filePath with
    | Thrown => Thrown
    | Returned content =>
        match extractFromOverviewTable content with
        | Some metadata => Returned (Some metadata)
        | None =>
            match extractFromInlineMetadata content with
            | Some metadata => Returned (Some metadata)
            | None =>
                match extractFromFrontmatter content with
                | Some metadata => Returned (Some metadata)
                | None => Returned None
                end
            end
        end
    end.

End WithFrontMatter.

End PhaseMetadataExtractor.

Export PhaseMetadataExtractor.

(* ===================================================================== *)
(** ** [parser/planParser.ts]: the five extraction strategies *)
(* ===================================================================== *)

Module PlanParser.

Definition STATUS_KEYWORDS : list jsstring :=
  [ js "pending"; js "in-progress"; js "in progress"; js "completed";
    js "complete"; js "done"; js "cancelled"; js "canceled"; js "todo";
    js "wip"; js "planned"; js "not started"; js "not-started";
    [0x2705]; [0x23F3]; [0xD83D; 0xDD04]; [0x274C]; [0x25CB]; [0x27F3];
    [0x2713] ].

Definition isValidStatus (text : jsstring) : bool :=
  let lower := trim (toLowerCase text) in
  existsb (fun kw => includes lower kw) STATUS_KEYWORDS.

(** [cols.findIndex(pred)], [None] for -1. *)
Fixpoint findIndex {A} (pred : A -> bool) (l : list A) : option nat :=
  match l with
  | [] => None
  | x :: l' =>
      if pred x then Some O
      else match findIndex pred l' with
           | Some i => Some (S i)
           | None => None
           end
  end.

Definition nonEmpty (c : jsstring) : bool := negb (JS.eqb c []).

Definition pipe : N := 124.
Definition hasPipe (line : jsstring) : bool := includes line [pipe].

(** [/(\d+)/] *)
Definition reDigits : regex := Group 1 (Plus digit).
(** [/\[([^\]]+)\]\([^)]+\)/] *)
Definition reLinkText : regex :=
  CatAll [lit "["; Group 1 (Plus (Unit (noneOf (js "]")))); lit "]";
          lit "("; Plus (Unit (noneOf (js ")"))); lit ")"].
(** [/\[([^\]]+)\]\(([^)]+)\)/] *)
Definition reLink : regex :=
  CatAll [lit "["; Group 1 (Plus (Unit (noneOf (js "]")))); lit "]";
          lit "("; Group 2 (Plus (Unit (noneOf (js ")")))); lit ")"].
(** [/^\d+$/] *)
Definition reAllDigits : regex :=
  CatAll [LineStart false; Plus digit; LineEnd false].
(** [/\*\*/g] *)
Definition reBold : regex := lit "**".

(** The columns that the header row of a table fixes; [None] is the
    source's index -1. *)
Record header : Type := mkHeader {
  headerIndex : nat;
  statusColIndex : nat;
  phaseColIndex : option nat;
  nameColIndex : option nat;
  descColIndex : option nat;
  linkColIndex : option nat
}.

Definition headerCols (line : jsstring) : list jsstring :=
  filter (fun c => nonEmpty c) (map (fun c => toLowerCase (trim c)) (split pipe line)).

Definition isOneOf (names : list jsstring) (c : jsstring) : bool :=
  existsb (JS.eqb c) names.

(** The header read off the columns of line [i], if it has a status
    column. *)
Definition headerOf (i : nat) (cols : list jsstring) : option header :=
  match findIndex (fun c => JS.eqb c (js "status") || includes c (js "status")) cols with
  | None => None
  | Some statusIdx =>
      let numberColIndex := findIndex (isOneOf [js "#"; js "order"]) cols in
      let phaseNameColIndex :=
        findIndex (isOneOf [js "phase"; js "phase name"]) cols in
      let '(phaseCol, nameCol0) :=
        match numberColIndex, phaseNameColIndex with
        | Some n, Some pn => (Some n, Some pn)
        | None, Some pn => (Some pn, None)
        | _, None => (numberColIndex, None)
        end in
      let nameCol :=
        match nameCol0 with
        | Some n => Some n
        | None =>
            findIndex (isOneOf [js "name"; js "title"; js "phase name"]) cols
        end in
      Some (mkHeader i statusIdx phaseCol nameCol
              (findIndex (isOneOf [js "description"; js "desc"]) cols)
              (findIndex (isOneOf [js "link"; js "file"]) cols))
  end.

(** Step 1: the first line at or after [i] that has a pipe and a status
    column. *)
Fixpoint findHeader (lines : list jsstring) (i : nat) : option header :=
  match lines with
  | [] => None
  | line :: lines' =>
      if negb (hasPipe line) then findHeader lines' (S i)
      else match headerOf i (headerCols line) with
           | Some h => Some h
           | None => findHeader lines' (S i)
           end
  end.

(** [cols[i]] when [i] is not -1 and the cell is a non-empty string. *)
Definition cell (cols : list jsstring) (i : option nat) : option jsstring :=
  match i with
  | None => None
  | Some i =>
      match nth_error cols i with
      | Some c => if nonEmpty c then Some c else None
      | None => None
      end
  end.

(** The first column whose first link targets a path with "phase-". *)
Fixpoint firstPhaseLink (cols : list jsstring) : option rmatched :=
  match cols with
  | [] => None
  | col :: cols' =>
      match exec reLink col with
      | Some m =>
          if includes (group' 2 m) (js "phase-") then Some m
          else firstPhaseLink cols'
      | None => firstPhaseLink cols'
      end
  end.

(** The phase that one accepted data row contributes. *)
Definition rowPhase (h : header) (dir planFilePath : jsstring)
  (cols : list jsstring) (statusText : jsstring) (count : nat) : PhaseData :=
  let phaseNum :=
    match cell cols (phaseColIndex h) with
    | Some c =>
        match exec reDigits c with
        | Some m => parseInt (group' 1 m)
        | None => Z.of_nat (count + 1)
        end
    | None => Z.of_nat (count + 1)
    end in
  let name0 :=
    match cell cols (descColIndex h) with
    | Some c => c
    | None =>
        match cell cols (nameColIndex h) with
        | Some c => c
        | None =>
            match cell cols (phaseColIndex h) with
            | Some phaseText =>
                match exec reLinkText phaseText with
                | Some m => group' 1 m
                | None =>
                    if negb (test reAllDigits phaseText) then phaseText
                    else []
                end
            | None => []
            end
        end
    end in
  let name1 :=
    replaceAll reLinkText (group' 1) (replaceAll reBold (fun _ => []) name0) in
  let name2 :=
    if nonEmpty name1 then name1
    else js "Phase " ++ numberToString phaseNum in
  let '(file1, linkText1) :=
    match cell cols (linkColIndex h) with
    | Some c =>
        match exec reLink c with
        | Some m => (Path.resolve dir (group' 2 m), group' 1 m)
        | None => (planFilePath, name2)
        end
    | None => (planFilePath, name2)
    end in
  let '(file2, linkText2) :=
    match firstPhaseLink cols with
    | Some m => (Path.resolve dir (group' 2 m), group' 1 m)
    | None => (file1, linkText1)
    end in
  mkPhase phaseNum (trim name2) (normalizeStatus statusText) file2
    (trim linkText2) VUndefined.

Definition rowCols (line : jsstring) : list jsstring :=
  filter (fun c => nonEmpty c) (map trim (split pipe line)).

(** Step 2: the data rows from line [i] on; returns the phases and
    [tableEndLine]. *)
Fixpoint parseRows (h : header) (dir planFilePath : jsstring)
  (rows : list jsstring) (i : nat) (phases : list PhaseData)
  : list PhaseData * nat :=
  match rows with
  | [] => (phases, i)
  | line :: rows' =>
      if negb (hasPipe line) then (phases, S i)
      else if includes line (js "---") || includes line (js "===")
      then parseRows h dir planFilePath rows' (S i) phases
      else
        let cols := rowCols line in
        match nth_error cols (statusColIndex h) with
        | None => parseRows h dir planFilePath rows' (S i) phases
        | Some statusText =>
            if negb (isValidStatus statusText)
            then parseRows h dir planFilePath rows' (S i) phases
            else parseRows h dir planFilePath rows' (S i)
                   (phases ++ [rowPhase h dir planFilePath cols statusText
                                 (length phases)])
        end
  end.

(** The line after the pipe lines that follow line [i]. *)
Fixpoint skipTable (rows : list jsstring) (i : nat) : nat :=
  match rows with
  | [] => i
  | line :: rows' => if hasPipe line then skipTable rows' (S i) else i
  end.

Definition parseTableStartingFrom (lines : list jsstring) (startLine : nat)
  (dir planFilePath : jsstring) : list PhaseData * nat :=
  match findHeader (skipn startLine lines) startLine with
  | None => ([], length lines)
  | Some h =>
      match phaseColIndex h, nameColIndex h, descColIndex h with
      | None, None, None =>
          ([], skipTable (skipn (S (headerIndex h)) lines) (S (headerIndex h)))
      | _, _, _ =>
          parseRows h dir planFilePath (skipn (S (headerIndex h)) lines)
            (S (headerIndex h)) []
      end
  end.

(** The scan of [parseMultiColumnTable]; every turn of the loop moves
    [scanStartLine] forward, so the number of lines bounds the turns. *)
Fixpoint scanTables (fuel : nat) (lines : list jsstring) (scanStartLine : nat)
  (dir planFilePath : jsstring) : list PhaseData :=
  match fuel with
  | O => []
  | S fuel' =>
      if negb (scanStartLine <? length lines)%nat then []
      else
        let '(phases, nextScanLine) :=
          parseTableStartingFrom lines scanStartLine dir planFilePath in
        if (0 <? length phases)%nat then phases
        else if (nextScanLine <=? scanStartLine)%nat then []
        else scanTables fuel' lines nextScanLine dir planFilePath
  end.

(** Format 1. *)
Definition parseMultiColumnTable (content dir planFilePath : jsstring)
  : list PhaseData :=
  let lines := split 10 content in
  scanTables (length lines) lines 0 dir planFilePath.

(** The pattern of [parseLinkFirstTable], flag [g]: a cell with a link
    whose text is a number, with or without the word Phase before it,
    then a description cell and a status cell. *)
Definition reLinkFirst : regex :=
  CatAll [lit "|"; Star space; lit "["; Opt (Cat (lit "Phase") (Star space));
          Group 1 (Plus digit); lit "]"; lit "(";
          Group 2 (Plus (Unit (noneOf (js ")")))); lit ")"; Star space;
          lit "|"; Star space; Group 3 (Plus (Unit (noneOf (js "|"))));
          Star space; lit "|"; Star space;
          Group 4 (Plus (Unit (noneOf (js "|"))))].

(** Format 2. *)
Definition parseLinkFirstTable (content dir : jsstring) : list PhaseData :=
  flat_map
    (fun m =>
       let phase := group' 1 m in
       let linkPath := group' 2 m in
       let name := group' 3 m in
       let status := group' 4 m in
       if negb (isValidStatus status) then []
       else [mkPhase (parseInt phase) (trim name) (normalizeStatus status)
               (Path.resolve dir linkPath) (js "Phase " ++ phase) VUndefined])
    (matchAll reLinkFirst content).

Definition statusEmoji : N -> bool :=
  oneOf [0x2705; 0x23F3; 0x1F504; 0x274C; 0x25CB; 0x27F3; 0x2713].

(** The pattern of [parseNumberedListWithStatus], flags [gimu]. *)
Definition reNumbered : regex :=
  CatAll [LineStart true; Group 1 (Plus (Point isDigit)); litIU ".";
          Star (Point isWhiteSpace); litIU "**";
          Group 2 (Plus (Point (noneOf (js "*")))); litIU "**";
          Star (Point (noneOf [45; 10])); litIU "-";
          Star (Point isWhiteSpace);
          Group 3
            (CatAll [Opt (Point statusEmoji); Star (Point isWhiteSpace);
                     AltAll [litIU "COMPLETE"; litIU "COMPLETED"; litIU "DONE";
                             CatAll [litIU "IN"; Opt (Point (oneOf (js "- ")));
                                     litIU "PROGRESS"];
                             litIU "PENDING"; litIU "WIP"; litIU "TODO";
                             litIU "CANCELLED";
                             CatAll [litIU "NOT"; Opt (Point (oneOf (js "- ")));
                                     litIU "STARTED"];
                             litIU "PLANNED"];
                     Star (Point (noneOf [10; 45]))])].

(** Format 3. *)
Definition parseNumberedListWithStatus (content planFilePath : jsstring)
  : list PhaseData :=
  map
    (fun m =>
       let num := group' 1 m in
       let name := group' 2 m in
       let status := group' 3 m in
       mkPhase (parseInt num) (trim name) (normalizeStatus status)
         planFilePath (trim name) VUndefined)
    (matchAllU reNumbered content).

Definition colonOrSpace (c : N) : bool := (c =? 58) || isWhiteSpace c.

(** [/###\s*Phase\s*(\d+)[:\s]+(.+)/i] *)
Definition reHeading : regex :=
  CatAll [lit "###"; Star space; litI "Phase"; Star space;
          Group 1 (Plus digit); Plus (Unit colonOrSpace); Group 2 (Plus dot)].

(** [/-\s*Status:\s*(.+)/i] *)
Definition reStatusLine : regex :=
  CatAll [lit "-"; Star space; litI "Status:"; Star space;
          Group 1 (Plus dot)].

(** The status line check on the phase being built. *)
Definition applyStatusLine (line : jsstring) (currentPhase : PhaseData)
  : PhaseData :=
  match exec reStatusLine line with
  | Some statusMatch =>
      mkPhase (phase currentPhase) (name currentPhase)
        (normalizeStatus (group' 1 statusMatch)) (file currentPhase)
        (linkText currentPhase) (effort currentPhase)
  | None => currentPhase
  end.

(** The loop over the lines, with the phases pushed so far and the phase
    being built. *)
Fixpoint headingLoop (planFilePath : jsstring) (lines : list jsstring)
  (phases : list PhaseData) (currentPhase : option PhaseData)
  : list PhaseData :=
  match lines with
  | [] =>
      match currentPhase with
      | Some p => phases ++ [p]
      | None => phases
      end
  | line :: lines' =>
      let '(phases1, current1) :=
        match exec reHeading line with
        | Some headingMatch =>
            let phaseNum := parseInt (group' 1 headingMatch) in
            (match currentPhase with
             | Some p => phases ++ [p]
             | None => phases
             end,
             Some (mkPhase phaseNum (trim (group' 2 headingMatch)) pending
                     planFilePath (js "Phase " ++ numberToString phaseNum)
                     VUndefined))
        | None => (phases, currentPhase)
        end in
      headingLoop planFilePath lines' phases1
        (option_map (applyStatusLine line) current1)
  end.

(** Format 4. *)
Definition parseHeadingBased (content planFilePath : jsstring)
  : list PhaseData :=
  headingLoop planFilePath (split 10 content) [] None.

(** The pattern of [parseCheckboxList], flags [gim]. *)
Definition reCheckbox : regex :=
  CatAll [LineStart true; lit "-"; Star space; lit "[";
          Group 1 (Alt (litI "x") (lit " ")); lit "]"; Star space;
          lit "**"; lit "["; Opt (Cat (litI "Phase") (Star space));
          Group 2 (Plus digit); Star (Unit colonOrSpace);
          Group 3 (Star (Unit (noneOf (js "]")))); lit "]"; lit "(";
          Group 4 (Plus (Unit (noneOf (js ")")))); lit ")"; lit "**"].

(** Format 5. *)
Definition parseCheckboxList (content dir planFilePath : jsstring)
  : list PhaseData :=
  map
    (fun m =>
       let checked := group' 1 m in
       let phase := group' 2 m in
       let name := group' 3 m in
       let linkPath := group' 4 m in
       let shown :=
         if nonEmpty (trim name) then trim name else js "Phase " ++ phase in
       mkPhase (parseInt phase) shown
         (if JS.eqb (toLowerCase checked) (js "x") then completed else pending)
         (Path.resolve dir linkPath) shown VUndefined)
    (matchAll reCheckbox content).

Section WithFiles.

Variable matter : jsstring -> outcome frontdata.
Variable fs : filesystem.

(** The body of the [phases.map] callback of
    [enrichPhasesWithFileMetadata]. *)
Definition enrichPhase (p : PhaseData) : PhaseData :=
  if negb (nonEmpty (file p)) || negb (includes (file p) (js "phase-")) then p
  else
    match extractPhaseMetadata matter fs (file p) with
    | Returned (Some metadata) =>
        mkPhase (phase p) (name p) (metaStatus metadata) (file p)
          (linkText p) (orElse (metaEffort metadata) (effort p))
    | Returned None => p
    | Thrown => p
    end.

(** [Promise.all] keeps the order of the promises it is given. *)
Definition enrichPhasesWithFileMetadata (phases : list PhaseData)
  : list PhaseData :=
  map enrichPhase phases.

Definition parsePlanTable (planFilePath : jsstring)
  : outcome (list PhaseData) :=
  match readFile fs planFilePath with
  | Thrown => Thrown
  | Returned content =>
      let dir := Path.dirname planFilePath in
      let phases := parseMultiColumnTable content dir planFilePath in
      if (0 <? length phases)%nat
      then Returned (enrichPhasesWithFileMetadata phases)
      else
      let phases := parseLinkFirstTable content dir in
      if (0 <? length phases)%nat
      then Returned (enrichPhasesWithFileMetadata phases)
      else
      let phases := parseNumberedListWithStatus content planFilePath in
      if (0 <? length phases)%nat
      then Returned (enrichPhasesWithFileMetadata phases)
      else
      let phases := parseHeadingBased content planFilePath in
      if (0 <? length phases)%nat
      then Returned (enrichPhasesWithFileMetadata phases)
      else
      let phases := parseCheckboxList content dir planFilePath in
      if (0 <? length phases)%nat
      then Returned (enrichPhasesWithFileMetadata phases)
      else Returned phases
  end.

(** The callback of [parsePlans]: the [try] stores the phases, the
    [catch] stores the empty array. *)
Definition parseInto (results : gmap jsstring (list PhaseData))
  (file : jsstring) : gmap jsstring (list PhaseData) :=
  match parsePlanTable file with
  | Returned phases => <[file := phases]> results
  | Thrown => <[file := []]> results
  end.

Definition parsePlans (planFiles : list jsstring)
  : gmap jsstring (list PhaseData) :=
  fold_left parseInto planFiles ∅.

End WithFiles.

End PlanParser.

Export PlanParser.

(* ===================================================================== *)
(** ** [parser/planScanner.ts] *)
(* ===================================================================== *)

Module PlanScanner.

Definition getPlanId (planPath : jsstring) : jsstring :=
  Path.basename (Path.dirname planPath).

(** [/^\d{6}(-\d{4})?-/] *)
Definition reDatePrefix : regex :=
  CatAll [LineStart false; Times 6 digit;
          Opt (Group 1 (Cat (lit "-") (Times 4 digit))); lit "-"].

(** [input.replace(r, f)] for a pattern without the [g] flag. *)
Definition replaceFirst (r : regex) (f : rmatched -> jsstring)
  (input : jsstring) : jsstring :=
  match exec r input with
  | Some m =>
      firstn (index m) input ++ f m
        ++ skipn (index m + length (matched m)) input
  | None => input
  end.

Definition capitalize (word : jsstring) : jsstring :=
  match word with
  | [] => []
  | c :: w => upperUnit c ++ w
  end.

Definition getPlanDisplayName (planId : jsstring) : jsstring :=
  let withoutDate := replaceFirst reDatePrefix (fun _ => []) planId in
  join (js " ") (map capitalize (split 45 withoutDate)).

End PlanScanner.

Export PlanScanner.

(* ===================================================================== *)
(** ** Dates and numbers *)
(* ===================================================================== *)

Module JSDate.

Local Open Scope Z_scope.

(** Days from 1970-01-01 to the given day of the proleptic Gregorian
    calendar; [m] is 1..12. *)
Definition daysFromCivil (y m d : Z) : Z :=
  let y' := if m <=? 2 then y - 1 else y in
  let era := y' / 400 in
  let yoe := y' - era * 400 in
  let doy := (153 * (m + (if 2 <? m then -3 else 9)) + 2) / 5 + d - 1 in
  let doe := yoe * 365 + yoe / 4 - yoe / 100 + doy in
  era * 146097 + doe - 719468.

(** The inverse: year, month index 0..11 and day of the month. *)
Definition civilFromDays (z : Z) : Z * Z * Z :=
  let z' := z + 719468 in
  let era := z' / 146097 in
  let doe := z' - era * 146097 in
  let yoe := (doe - doe / 1460 + doe / 36524 - doe / 146096) / 365 in
  let doy := doe - (365 * yoe + yoe / 4 - yoe / 100) in
  let mp := (5 * doy + 2) / 153 in
  let d := doy - (153 * mp + 2) / 5 + 1 in
  let m := if mp <? 10 then mp + 3 else mp - 9 in
  (yoe + era * 400 + (if m <=? 2 then 1 else 0), m - 1, d).

(** A [Date] object, by the number of its day in local time; [None] is
    the invalid date, whose time value is NaN.  The local time zone is
    taken to be UTC. *)
Definition Date : Type := option Z.

(** ECMAScript MakeDay: months outside 0..11 carry into the year and the
    day counts on from the first of the month. *)
Definition makeDay (year month date : Z) : Z :=
  daysFromCivil (year + month / 12) (month mod 12 + 1) 1 + date - 1.

(** [new Date(year, month, day)]: years 0..99 mean 1900..1999, and
    TimeClip gives NaN beyond 8.64e15 ms (100 000 000 days) from the
    epoch. *)
Definition newDate (year month day : Z) : Date :=
  let yr := if (0 <=? year) && (year <=? 99) then 1900 + year else year in
  let dayNumber := makeDay yr month day in
  if Z.abs dayNumber <=? 100000000 then Some dayNumber else None.

(** [isNaN(date.getTime())] *)
Definition isInvalid (d : Date) : bool :=
  match d with None => true | Some _ => false end.

Definition getFullYear (day : Z) : Z := fst (fst (civilFromDays day)).
Definition getMonth (day : Z) : Z := snd (fst (civilFromDays day)).
Definition getDate (day : Z) : Z := snd (civilFromDays day).

End JSDate.

Module JSNumber.

(** A count as a double; exact below 2^53. *)
Definition ofNat (n : nat) : float :=
  PrimFloat.of_uint63 (Uint63.of_Z (Z.of_nat n)).

(** [Math.round(x)]: the integer nearest to [x], ties towards
    +infinity, computed exactly from the mantissa and the exponent of
    [x].  Infinite and NaN arguments do not occur in the callers. *)
Definition mathRound (x : float) : Z :=
  match FloatOps.Prim2SF x with
  | SpecFloat.S754_finite sign m e =>
      let num := if sign then Zneg m else Zpos m in
      if (0 <=? e)%Z then (num * 2 ^ e)%Z
      else ((2 * num + 2 ^ (- e)) / 2 ^ (- e + 1))%Z
  | _ => 0%Z
  end.

(** The double nearest to [m / 10^k], ties to the even mantissa: the
    value that the engines give to a decimal numeral.  The quotient is
    taken with 66 bits or more and a sticky last bit, so that rounding it
    to 53 bits rounds the exact value. *)
Definition ofDecimal (m : Z) (k : nat) : float :=
  match m with
  | Zpos _ =>
      let den := (10 ^ Z.of_nat k)%Z in
      let s := Z.max 0 (66 + Z.log2 den - Z.log2 m) in
      let num := (m * 2 ^ s)%Z in
      let q := (num / den)%Z in
      let sticky := if (num mod den =? 0)%Z then q else Z.lor q 1 in
      match sticky with
      | Zpos mant =>
          FloatOps.SF2Prim
            (SpecFloat.binary_normalize FloatOps.prec FloatOps.emax
               (Zpos mant) (- s) false)
      | _ => 0%float
      end
  | _ => 0%float
  end.

(** [parseFloat(s)] on a numeral of digits with an optional fraction,
    the shape that the effort patterns capture. *)
Definition parseFloat (s : jsstring) : float :=
  match split 46 s with
  | [whole] => ofDecimal (parseInt whole) 0
  | whole :: fraction :: _ =>
      ofDecimal (parseInt (whole ++ fraction)) (length fraction)
  | [] => 0%float
  end.

(** [parseInt(s, 10)] on a string of digits, as a double. *)
Definition parseIntNumber (s : jsstring) : float :=
  ofDecimal (parseInt s) 0.

End JSNumber.

(* ===================================================================== *)
(** ** [parser/metadataExtractor.ts] *)
(* ===================================================================== *)

Module MetadataExtractor.

(** [/^P[0-3]$/] *)
Definition rePriority : regex :=
  CatAll [LineStart false; lit "P"; Unit (between 48 51); LineEnd false].

(** The result is the run-time value: [None] for [null], otherwise the
    string returned (the cast [p as Priority] does not change it). *)
Definition normalizePriority (priority : jsval) : option jsstring :=
  if negb (truthy priority) then None
  else
    let p := trim (toUpperCase (stringOf priority)) in
    if JS.eqb p (js "P1") || JS.eqb p (js "HIGH") || JS.eqb p (js "CRITICAL")
    then Some (js "P1")
    else if JS.eqb p (js "P2") || JS.eqb p (js "MEDIUM")
            || JS.eqb p (js "NORMAL")
    then Some (js "P2")
    else if JS.eqb p (js "P3") || JS.eqb p (js "LOW") then Some (js "P3")
    else if test rePriority p then Some p
    else None.

(** [/^(\d{6,8})(?:-(\d{4}))?-/] *)
Definition reDirDate : regex :=
  CatAll [LineStart false; Group 1 (Cat (Times 6 digit) (UpTo 2 digit));
          Opt (Cat (lit "-") (Group 2 (Times 4 digit))); lit "-"].

(** [None] is [undefined]; [Some day] a valid date. *)
Definition parseDateFromDirName (dirName : jsstring) : option Z :=
  match exec reDirDate dirName with
  | None => None
  | Some m =>
      let dateStr := group' 1 m in
      let '(year, month, day) :=
        if (length dateStr =? 6)%nat
        then ((2000 + parseInt (slice 0 2 dateStr))%Z,
              (parseInt (slice 2 4 dateStr) - 1)%Z,
              parseInt (slice 4 6 dateStr))
        else (parseInt (slice 0 4 dateStr),
              (parseInt (slice 4 6 dateStr) - 1)%Z,
              parseInt (slice 6 8 dateStr)) in
      let date := JSDate.newDate year month day in
      if JSDate.isInvalid date then None else date
  end.

Definition normalizeMetadataStatus (status : jsval) : PlanStatus :=
  if negb (truthy status) then plan_pending
  else
    let s := trim (toLowerCase (stringOf status)) in
    if JS.eqb s (js "complete") || JS.eqb s (js "completed")
       || JS.eqb s (js "done")
    then plan_completed
    else if JS.eqb s (js "in-progress") || JS.eqb s (js "in_progress")
            || JS.eqb s (js "active") || JS.eqb s (js "wip")
    then plan_in_progress
    else if JS.eqb s (js "cancelled") || JS.eqb s (js "canceled")
    then plan_cancelled
    else plan_pending.

(** A [Date] object of a plan record: [LocalDate day] comes from
    [new Date(year, month, day)], [NewDate v] is [new Date(v)] for a value
    read from the document, left as it is. *)
Inductive dateval : Type :=
| LocalDate (day : Z)
| NewDate (v : jsval).

(** [x || undefined] *)
Definition orUndefined (v : jsval) : jsval := orElse v VUndefined.

(** What [extractFromFrontmatter] returns for a plan. *)
Record frontmeta : Type := mkFront {
  fName : jsval;
  fDescription : jsval;
  fStatus : PlanStatus;
  fPriority : option jsstring;
  fEffort : jsval;
  fTags : list jsval;
  fBranch : jsval;
  fIssue : jsval;
  fCreatedDate : option dateval;
  fCompletedDate : option dateval
}.

(** What [extractFromHeader] returns; [None] is a key that was not set. *)
Record headermeta : Type := mkHeaderMeta {
  hPriority : option (option jsstring);
  hStatus : option PlanStatus;
  hBranch : option jsstring;
  hIssue : option jsval;
  hCreatedDate : option dateval
}.

(** A bold label of the header section: the label with or without a colon
    inside or after the asterisks, then blanks. *)
Definition boldLabel (label : regex) : regex :=
  CatAll [lit "**"; label; Opt (lit ":"); lit "**"; Opt (lit ":");
          Star space].

Definition rePriorityHeader : regex :=
  Cat (boldLabel (litI "Priority"))
    (Group 1 (AltAll [Cat (litI "P") (Unit (between 48 51)); litI "High";
                      litI "Medium"; litI "Low"])).

Definition reStatusHeader : regex :=
  Cat (boldLabel (litI "Status")) (Group 1 (Plus (Unit (noneOf [10; 40])))).

Definition reBranchHeader : regex :=
  CatAll [boldLabel (litI "Branch"); Opt (lit "`");
          Group 1 (Plus (Unit (noneOf [96; 10]))); Opt (lit "`")].

Definition reIssueHeader : regex :=
  Cat (boldLabel (litI "Issue"))
    (Alt (Cat (lit "#") (Group 1 (Plus digit)))
       (CatAll [LazyStar dot; litI "issues/"; Group 2 (Plus digit)])).

Definition reCreatedHeader : regex :=
  Cat (boldLabel (Alt (litI "Created") (litI "Date")))
    (Group 1 (CatAll [Times 4 digit; lit "-"; Times 2 digit; lit "-";
                      Times 2 digit])).

Definition extractFromHeader (content : jsstring) : headermeta :=
  let headerSection := join [10] (firstn 50 (split 10 content)) in
  mkHeaderMeta
    (match exec rePriorityHeader headerSection with
     | Some m => Some (normalizePriority (VString (group' 1 m)))
     | None => None
     end)
    (match exec reStatusHeader headerSection with
     | Some m => Some (normalizeMetadataStatus (VString (trim (group' 1 m))))
     | None => None
     end)
    (match exec reBranchHeader headerSection with
     | Some m => Some (trim (group' 1 m))
     | None => None
     end)
    (match exec reIssueHeader headerSection with
     | Some m =>
         Some (orElse
                 (match group 1 m with Some g => VString g | None => VUndefined end)
                 (match group 2 m with Some g => VString g | None => VUndefined end))
     | None => None
     end)
    (match exec reCreatedHeader headerSection with
     | Some m => Some (NewDate (VString (group' 1 m)))
     | None => None
     end).

(** [/##\s*Overview\s*\n+([^\n#]+)/i] *)
Definition reOverview : regex :=
  CatAll [lit "##"; Star space; litI "Overview"; Star space; Plus (chr 10);
          Group 1 (Plus (Unit (noneOf [10; 35])))].

(** [/^[^.!?]+[.!?]/] *)
Definition reFirstSentence : regex :=
  CatAll [LineStart false; Plus (Unit (noneOf (js ".!?")));
          Unit (oneOf (js ".!?"))].

Definition extractDescription (content : jsstring) : jsval :=
  match exec reOverview content with
  | Some overviewMatch =>
      let desc := trim (group' 1 overviewMatch) in
      match exec reFirstSentence desc with
      | Some firstSentence => VString (trim (matched firstSentence))
      | None => VString (trim (slice 0 150 desc))
      end
  | None => VUndefined
  end.

Record PlanData : Type := mkPlan {
  planId : jsstring;
  planName : jsval;
  planPath : jsstring;
  planStatus : PlanStatus;
  phases : list PhaseData;
  completedCount : nat;
  totalCount : nat;
  percentage : Z;
  lastModified : Z;
  description : jsval;
  priority : option jsstring;
  tags : list jsval;
  issue : jsval;
  branch : jsval;
  planEffort : jsval;
  createdDate : option dateval;
  completedDate : option dateval
}.

(** [a || b] on optional objects, which are truthy when present. *)
Definition orOpt {A} (a b : option A) : option A :=
  match a with Some _ => a | None => b end.

Definition ofString (o : option jsstring) : jsval :=
  match o with Some s => VString s | None => VUndefined end.

Section WithFiles.

Variable matter : jsstring -> outcome frontdata.
Variable fs : filesystem.

Definition extractFromFrontmatter (content : jsstring) : option frontmeta :=
  if negb (nonEmpty content) || negb (startsWith (trim content) (js "---"))
  then None
  else
    match matter content with
    | Thrown => None
    | Returned data =>
        if (length data =? 0)%nat then None
        else
          Some (mkFront
                  (orUndefined (field data "title"))
                  (orUndefined (field data "description"))
                  (normalizeMetadataStatus (field data "status"))
                  (normalizePriority (field data "priority"))
                  (orUndefined (field data "effort"))
                  (match field data "tags" with
                   | VArray items => items
                   | _ => []
                   end)
                  (orUndefined (field data "branch"))
                  (if truthy (field data "issue")
                   then VString (stringOf (field data "issue"))
                   else VUndefined)
                  (if truthy (field data "created")
                   then Some (NewDate (field data "created")) else None)
                  (if truthy (field data "completed")
                   then Some (NewDate (field data "completed")) else None))
    end.

(** [Math.round((completedCount / totalCount) * 100)], in doubles. *)
Definition percentageOf (completedCount totalCount : nat) : Z :=
  if (0 <? totalCount)%nat
  then JSNumber.mathRound
         (PrimFloat.mul
            (PrimFloat.div (JSNumber.ofNat completedCount)
               (JSNumber.ofNat totalCount))
            (JSNumber.ofNat 100))
  else 0%Z.

Definition extractPlanData (planPath : jsstring) : outcome PlanData :=
  match fs planPath with
  | File content mtime =>
      let planId := getPlanId planPath in
      match parsePlanTable matter fs planPath with
      | Thrown => Thrown
      | Returned phases =>
          let frontmatter := extractFromFrontmatter content in
          let headerMeta := extractFromHeader content in
          let dirDate := parseDateFromDirName planId in
          let completedCount :=
            length (filter (fun p => isCompleted (status p)) phases) in
          let totalCount := length phases in
          let calculatedStatus := calculatePlanStatus phases in
          let front (f : frontmeta -> jsval) : jsval :=
            match frontmatter with Some fm => f fm | None => VUndefined end in
          Returned
            (mkPlan planId
               (orElse (front fName) (VString (getPlanDisplayName planId)))
               planPath
               (match frontmatter with
                | Some fm => fStatus fm
                | None =>
                    match hStatus headerMeta with
                    | Some st => st
                    | None => calculatedStatus
                    end
                end)
               phases completedCount totalCount
               (percentageOf completedCount totalCount)
               mtime
               (orElse (front fDescription) (extractDescription content))
               (orOpt (match frontmatter with
                       | Some fm => fPriority fm
                       | None => None
                       end)
                  (match hPriority headerMeta with
                   | Some pr => pr
                   | None => None
                   end))
               (match frontmatter with Some fm => fTags fm | None => [] end)
               (orElse (front fIssue)
                  (match hIssue headerMeta with
                   | Some v => v
                   | None => VUndefined
                   end))
               (orElse (front fBranch) (ofString (hBranch headerMeta)))
               (front fEffort)
               (orOpt (orOpt (match frontmatter with
                              | Some fm => fCreatedDate fm
                              | None => None
                              end)
                         (hCreatedDate headerMeta))
                  (option_map LocalDate dirDate))
               (match frontmatter with
                | Some fm => fCompletedDate fm
                | None => None
                end))
      end
  | _ => Thrown
  end.

End WithFiles.

(** [/(\d+(?:\.\d+)?)\s*(?:h|hours?|hrs?)/] *)
Definition reHours : regex :=
  CatAll [Group 1 (Cat (Plus digit) (Opt (Cat (lit ".") (Plus digit))));
          Star space;
          AltAll [lit "h"; Cat (lit "hour") (Opt (lit "s"));
                  Cat (lit "hr") (Opt (lit "s"))]].

(** [/(\d+)\s*(?:m|min|minutes?)/] *)
Definition reMinutes : regex :=
  CatAll [Group 1 (Plus digit); Star space;
          AltAll [lit "m"; lit "min"; Cat (lit "minute") (Opt (lit "s"))]].

(** [/(\d+(?:\.\d+)?)\s*(?:d|days?)/] *)
Definition reDays : regex :=
  CatAll [Group 1 (Cat (Plus digit) (Opt (Cat (lit ".") (Plus digit))));
          Star space; AltAll [lit "d"; Cat (lit "day") (Opt (lit "s"))]].

(** [None] is [undefined]. *)
Definition parseEffortToHours (effortStr : option jsstring) : float :=
  match effortStr with
  | None => 0%float
  | Some effort =>
      if negb (nonEmpty effort) then 0%float
      else
        let str := trim (toLowerCase effort) in
        match exec reHours str with
        | Some hoursMatch => JSNumber.parseFloat (group' 1 hoursMatch)
        | None =>
            match exec reMinutes str with
            | Some minutesMatch =>
                PrimFloat.div (JSNumber.parseIntNumber (group' 1 minutesMatch))
                  (JSNumber.ofNat 60)
            | None =>
                match exec reDays str with
                | Some daysMatch =>
                    PrimFloat.mul (JSNumber.parseFloat (group' 1 daysMatch))
                      (JSNumber.ofNat 8)
                | None => 0%float
                end
            end
        end
  end.

End MetadataExtractor.

Export MetadataExtractor.

(* ===================================================================== *)
(** ** [parser/planScanner.ts]: the scan of the plans directory *)
(* ===================================================================== *)

Module Scanner.

(** A [Dirent] of [readdir] with [withFileTypes]. *)
Record Dirent : Type := mkDirent {
  entryName : jsstring;
  isDirectory : bool
}.

Section WithDirectories.

Variable fs : filesystem.
(** [fs.promises.readdir(dir, { withFileTypes: true })]. *)
Variable readdir : jsstring -> outcome (list Dirent).
(** [a.localeCompare(b)], which follows the collation of the host. *)
Variable localeCompare : jsstring -> jsstring -> Z.

Definition planMdPath (plansDir : jsstring) (entry : Dirent) : jsstring :=
  Path.join [plansDir; entryName entry; js "plan.md"].

(** The body of the loop over the entries: what the entry adds to
    [planFiles]. *)
Definition found (plansDir : jsstring) (entry : Dirent) : list jsstring :=
  if negb (isDirectory entry) then []
  else if access fs (planMdPath plansDir entry)
       then [planMdPath plansDir entry]
       else [].

Definition byDirectoryDescending (a b : jsstring) : option Z :=
  let dirA := Path.basename (Path.dirname a) in
  let dirB := Path.basename (Path.dirname b) in
  Some (localeCompare dirB dirA).

Definition scanPlansDirectory (plansDir : jsstring)
  : outcome (list jsstring) :=
  if negb (access fs plansDir) then Returned []
  else
    match readdir plansDir with
    | Thrown => Thrown
    | Returned entries =>
        Returned (JSArray.sort byDirectoryDescending
                    (flat_map (found plansDir) entries))
    end.

End WithDirectories.

End Scanner.

(* ===================================================================== *)
(** ** [types.ts]: the progress of a project *)
(* ===================================================================== *)

Module Progress.

Record ProjectProgress : Type := mkProgress {
  rootPath : jsstring;
  projectName : jsstring;
  plans : list PlanData;
  totalPhases : nat;
  completedPhases : nat;
  percentage : Z
}.

(** A [PlanStatus] in a template literal. *)
Definition statusText (st : PlanStatus) : jsstring :=
  match st with
  | plan_completed => js "completed"
  | plan_in_progress => js "in-progress"
  | plan_pending => js "pending"
  | plan_cancelled => js "cancelled"
  end.

Definition isStatus (a b : PlanStatus) : bool :=
  match a, b with
  | plan_completed, plan_completed | plan_in_progress, plan_in_progress
  | plan_pending, plan_pending | plan_cancelled, plan_cancelled => true
  | _, _ => false
  end.

End Progress.

(* ===================================================================== *)
(** ** [treeProvider.ts] *)
(* ===================================================================== *)

Module TreeProvider.

Inductive FilterMode : Type :=
| mode_all | mode_active | mode_in_progress | mode_pending | mode_completed.

Definition FILTER_LABELS (mode : FilterMode) : jsstring :=
  match mode with
  | mode_all => js "All Plans"
  | mode_active => js "Active (In Progress + Pending)"
  | mode_in_progress => js "In Progress Only"
  | mode_pending => js "Pending Only"
  | mode_completed => js "Completed Only"
  end.

Definition statusOrder (st : PlanStatus) : Z :=
  match st with
  | plan_in_progress => 0
  | plan_pending => 1
  | plan_completed => 2
  | plan_cancelled => 3
  end.

(** [priorityOrder[key]] as a number: any key but the four of the table
    gives [undefined] or an inherited member of the object, NaN in the
    subtraction, here [None]. *)
Definition priorityOrder (key : jsstring) : option Z :=
  if JS.eqb key (js "P1") then Some 0%Z
  else if JS.eqb key (js "P2") then Some 1%Z
  else if JS.eqb key (js "P3") then Some 2%Z
  else if JS.eqb key (js "none") then Some 3%Z
  else None.

(** The comparator of the plan list; [None] is NaN. *)
Definition comparePlans (a b : PlanData) : option Z :=
  let statusDiff :=
    (statusOrder (planStatus a) - statusOrder (planStatus b))%Z in
  if negb (statusDiff =? 0)%Z then Some statusDiff
  else
    let aPriority :=
      match priority a with Some p => p | None => js "none" end in
    let bPriority :=
      match priority b with Some p => p | None => js "none" end in
    match priorityOrder aPriority, priorityOrder bPriority with
    | Some pa, Some pb =>
        let priorityDiff := (pa - pb)%Z in
        if negb (priorityDiff =? 0)%Z then Some priorityDiff
        else if negb (percentage a =? percentage b)%Z
        then Some (percentage b - percentage a)%Z
        else Some (lastModified b - lastModified a)%Z
    | _, _ => None
    end.

Definition filterPlans (plans : list PlanData) (mode : FilterMode)
  : list PlanData :=
  match mode with
  | mode_active =>
      filter
        (fun p => negb (Progress.isStatus (planStatus p) plan_completed)
                  && negb (Progress.isStatus (planStatus p) plan_cancelled))
        plans
  | mode_in_progress =>
      filter (fun p => Progress.isStatus (planStatus p) plan_in_progress) plans
  | mode_pending =>
      filter (fun p => Progress.isStatus (planStatus p) plan_pending) plans
  | mode_completed =>
      filter (fun p => Progress.isStatus (planStatus p) plan_completed) plans
  | mode_all => plans
  end.

(** The elements of the tree, each by the arguments of its constructor;
    the label, the icon and the tooltip of a plan or phase item are
    computed from them. *)
Inductive TreeElement : Type :=
| PlanTreeItem (plan : PlanData)
| PhaseTreeItem (phase : PhaseData) (plan : PlanData)
| InfoTreeItem (label icon : jsstring) (description : option jsstring).

(** The [id] that the constructors set; an info item has none. *)
Definition itemId (element : TreeElement) : option jsstring :=
  match element with
  | PlanTreeItem plan => Some (planId plan)
  | PhaseTreeItem ph plan =>
      Some (planId plan ++ js "-phase-" ++ numberToString (phase ph))
  | InfoTreeItem _ _ _ => None
  end.

Record PlansTreeProvider : Type := mkProvider {
  plans : list PlanData;
  filterMode : FilterMode
}.

Definition setPlans (provider : PlansTreeProvider) (plans : list PlanData)
  : PlansTreeProvider :=
  mkProvider plans (filterMode provider).

Definition setFilterMode (provider : PlansTreeProvider) (mode : FilterMode)
  : PlansTreeProvider :=
  mkProvider (plans provider) mode.

Definition isAll (mode : FilterMode) : bool :=
  match mode with mode_all => true | _ => false end.

Definition getRootItems (provider : PlansTreeProvider) : list TreeElement :=
  if (length (plans provider) =? 0)%nat
  then [InfoTreeItem (js "No plans found") (js "warning")
          (Some (js "Check ./plans directory"))]
  else
    let filtered := filterPlans (plans provider) (filterMode provider) in
    let sorted := JSArray.sort comparePlans filtered in
    if (length filtered =? 0)%nat
    then
      let filterLabel := FILTER_LABELS (filterMode provider) in
      [InfoTreeItem (js "No " ++ toLowerCase filterLabel) (js "filter")
         (Some (js "Change filter to see more"))]
    else
      (if negb (isAll (filterMode provider))
       then
         let filterLabel := FILTER_LABELS (filterMode provider) in
         let hiddenCount :=
           (Z.of_nat (length (plans provider))
            - Z.of_nat (length filtered))%Z in
         [InfoTreeItem (js "Filter: " ++ filterLabel) (js "filter")
            (Some (numberToString hiddenCount ++ js " hidden"))]
       else [])
      ++ map PlanTreeItem sorted.

Definition getChildren (provider : PlansTreeProvider)
  (element : option TreeElement) : list TreeElement :=
  match element with
  | None => getRootItems provider
  | Some (PlanTreeItem plan) =>
      if (length (phases plan) =? 0)%nat
      then [InfoTreeItem (js "No phases found") (js "info") None]
      else map (fun phase => PhaseTreeItem phase plan) (phases plan)
  | Some _ => []
  end.

Definition getParent (provider : PlansTreeProvider) (element : TreeElement)
  : option TreeElement :=
  match element with
  | PhaseTreeItem _ plan =>
      match find (fun p => JS.eqb (planId p) (planId plan))
              (plans provider) with
      | Some p => Some (PlanTreeItem p)
      | None => None
      end
  | _ => None
  end.

End TreeProvider.

(* ===================================================================== *)
(** ** [statusBar.ts] *)
(* ===================================================================== *)

Module StatusBar.

(** How a method ends: by returning or by throwing. *)
Inductive completion : Type := Normal | Abrupt.

(** The status bar item of the editor, as far as the class sets it. *)
Record StatusBarItem : Type := mkItem {
  text : jsstring;
  tooltip : jsstring;
  visible : bool
}.

Record PlansStatusBar : Type := mkBar {
  statusBarItem : StatusBarItem;
  currentPlan : option PlanData;
  progress : option Progress.ProjectProgress
}.

(** The constructor; an item is hidden until it is shown. *)
Definition newBar : PlansStatusBar :=
  mkBar (mkItem [] (js "Click to open current plan") false) None None.

Definition ellipsis : jsstring := [0x2026].
Definition middleDot : jsstring := [0xB7].

(** [items.slice(0, finish)] for strings and arrays: a negative
    [finish] counts from the end. *)
Definition sliceTo {A} (finish : Z) (items : list A) : list A :=
  if (0 <=? finish)%Z then firstn (Z.to_nat finish) items
  else firstn (length items - Z.to_nat (- finish)) items.

Definition truncate (str : jsstring) (maxLength : Z) : jsstring :=
  if (Z.of_nat (length str) <=? maxLength)%Z then str
  else sliceTo (maxLength - 1) str ++ ellipsis.

(** [truncate(plan.name, maxLength)] put into the template literal of the
    item text.  The name of a plan is whatever the front matter gives as
    its title: a number and a boolean have neither [length] nor [slice],
    so that the call throws; a list has both.  For [VOther] the call is
    taken to throw, as it does for a date and for a mapping that has no
    keys of those names. *)
Definition truncateName (name : jsval) (maxLength : Z) : outcome jsstring :=
  match name with
  | VString str => Returned (truncate str maxLength)
  | VArray items =>
      if (Z.of_nat (length items) <=? maxLength)%Z
      then Returned (stringOf name)
      else Returned (stringOf (VArray (sliceTo (maxLength - 1) items))
                     ++ ellipsis)
  | _ => Thrown
  end.

Definition byLastModifiedDescending (a b : PlanData) : option Z :=
  Some (lastModified b - lastModified a)%Z.

Definition findCurrentPlan (bar : PlansStatusBar) : option PlanData :=
  match progress bar with
  | None => None
  | Some pr =>
      let plans := Progress.plans pr in
      match find (fun p => Progress.isStatus (planStatus p) plan_in_progress)
              plans with
      | Some inProgress => Some inProgress
      | None =>
          match find (fun p => Progress.isStatus (planStatus p) plan_pending
                               && (0 <? completedCount p)%nat) plans with
          | Some pendingWithProgress => Some pendingWithProgress
          | None =>
              match JSArray.sort byLastModifiedDescending plans with
              | first :: _ => Some first
              | [] => None
              end
          end
      end
  end.

Definition count (n : nat) : jsstring := numberToString (Z.of_nat n).

Definition createTooltip (bar : PlansStatusBar) : jsstring :=
  match currentPlan bar, progress bar with
  | Some plan, Some pr =>
      let otherPlans :=
        (Z.of_nat (length (Progress.plans pr)) - 1)%Z in
      JS.join [10]
        ([js "ClaudeKit: " ++ stringOf (planName plan);
          repeat 0x2500 30;
          js "Progress: " ++ count (completedCount plan) ++ js "/"
            ++ count (totalCount plan) ++ js " phases ("
            ++ numberToString (percentage plan)
            ++ js "%)";
          js "Status: " ++ Progress.statusText (planStatus plan)]
         ++ match priority plan with
            | Some p =>
                if nonEmpty p then [js "Priority: " ++ p] else []
            | None => []
            end
         ++ (if truthy (planEffort plan)
             then [js "Effort: " ++ stringOf (planEffort plan)] else [])
         ++ (if (0 <? otherPlans)%Z
             then [[]; js "+" ++ numberToString otherPlans ++ js " other plan"
                        ++ (if (1 <? otherPlans)%Z then js "s" else [])]
             else [])
         ++ [[]; js "Click to open plan.md"])
  | _, _ => js "No plans found"
  end.

(** [update]: the state it leaves and how it ends.  A throw of
    [truncate] comes after [currentPlan] is set and before the item is
    touched. *)
Definition update (bar : PlansStatusBar) : PlansStatusBar * completion :=
  let item := statusBarItem bar in
  let hidden :=
    mkBar (mkItem (text item) (tooltip item) false) None (progress bar) in
  match progress bar with
  | None => (hidden, Normal)
  | Some pr =>
      if (length (Progress.plans pr) =? 0)%nat then (hidden, Normal)
      else
        match findCurrentPlan bar with
        | None =>
            (mkBar (mkItem (js "$(folder) No active plans")
                      (js "No plans in progress") true)
               None (progress bar), Normal)
        | Some plan =>
            let selected := mkBar item (Some plan) (progress bar) in
            let progressText :=
              count (completedCount plan) ++ js "/"
              ++ count (totalCount plan) in
            match truncateName (planName plan) 20 with
            | Thrown => (selected, Abrupt)
            | Returned shown =>
                let icon :=
                  if Progress.isStatus (planStatus plan) plan_completed
                  then js "$(check)"
                  else if Progress.isStatus (planStatus plan)
                            plan_in_progress
                  then js "$(sync)"
                  else js "$(folder)" in
                (mkBar (mkItem (icon ++ js " " ++ progressText ++ js " "
                                ++ middleDot ++ js " " ++ shown)
                          (createTooltip selected) true)
                   (Some plan) (progress bar), Normal)
            end
        end
  end.

Definition setProgress (bar : PlansStatusBar)
  (value : option Progress.ProjectProgress)
  : PlansStatusBar * completion :=
  update (mkBar (statusBarItem bar) (currentPlan bar) value).

Definition getCurrentPlan (bar : PlansStatusBar) : option PlanData :=
  currentPlan bar.

End StatusBar.

(* ===================================================================== *)
(** ** [planProject.ts] *)
(* ===================================================================== *)

Module PlansProject.

(** The state of a project that [refresh] reads and writes; [fired]
    counts the change events sent to the listeners. *)
Record PlansProject : Type := mkProject {
  workspaceRoot : jsstring;
  projectName : jsstring;
  plansPath : jsstring;
  progress : option Progress.ProjectProgress;
  fired : nat
}.

Section WithFiles.

Variable matter : jsstring -> outcome frontdata.
Variable fs : filesystem.
Variable readdir : jsstring -> outcome (list Scanner.Dirent).
Variable localeCompare : jsstring -> jsstring -> Z.

(** The callback of [planFiles.map]: the plan, or [null] for a file
    whose extraction throws. *)
Definition planOf (planFile : jsstring) : option PlanData :=
  match extractPlanData matter fs planFile with
  | Returned plan => Some plan
  | Thrown => None
  end.

Definition keep (result : option PlanData) : list PlanData :=
  match result with Some plan => [plan] | None => [] end.

Definition refresh (project : PlansProject) : PlansProject :=
  match Scanner.scanPlansDirectory fs readdir localeCompare
          (plansPath project) with
  | Thrown => project
  | Returned planFiles =>
      let results := map planOf planFiles in
      let plans := flat_map keep results in
      let totalPhases :=
        fold_left (fun sum p => (sum + totalCount p)%nat) plans 0%nat in
      let completedPhases :=
        fold_left (fun sum p => (sum + completedCount p)%nat) plans 0%nat in
      mkProject (workspaceRoot project) (projectName project)
        (plansPath project)
        (Some (Progress.mkProgress (workspaceRoot project)
                 (projectName project) plans totalPhases completedPhases
                 (percentageOf completedPhases totalPhases)))
        (S (fired project))
  end.

End WithFiles.

Definition getProgress (project : PlansProject)
  : option Progress.ProjectProgress :=
  progress project.

End PlansProject.

(* ===================================================================== *)
(** ** [extension.ts]: the aggregation over the projects *)
(* ===================================================================== *)

Module Extension.

Record UI : Type := mkUI {
  treeProvider : TreeProvider.PlansTreeProvider;
  statusBar : StatusBar.PlansStatusBar
}.

(** The loop over the projects: the plans and the two sums. *)
Fixpoint collect (projects : list PlansProject.PlansProject)
  (allPlans : list PlanData) (totalPhases completedPhases : nat)
  : list PlanData * nat * nat :=
  match projects with
  | [] => (allPlans, totalPhases, completedPhases)
  | project :: projects' =>
      match PlansProject.getProgress project with
      | Some pr =>
          collect projects' (allPlans ++ Progress.plans pr)
            (totalPhases + Progress.totalPhases pr)
            (completedPhases + Progress.completedPhases pr)
      | None => collect projects' allPlans totalPhases completedPhases
      end
  end.

Definition aggregateProgress (projects : list PlansProject.PlansProject)
  : Progress.ProjectProgress :=
  let '(allPlans, totalPhases, completedPhases) :=
    collect projects [] 0%nat 0%nat in
  Progress.mkProgress
    (match projects with
     | first :: _ => PlansProject.workspaceRoot first
     | [] => []
     end)
    (match projects with
     | first :: _ =>
         if nonEmpty (PlansProject.projectName first)
         then PlansProject.projectName first else js "Workspace"
     | [] => js "Workspace"
     end)
    allPlans totalPhases completedPhases
    (percentageOf completedPhases totalPhases).

Definition updateUIFromProjects (projects : list PlansProject.PlansProject)
  (ui : UI) : UI * StatusBar.completion :=
  let aggregate := aggregateProgress projects in
  let tree :=
    TreeProvider.setPlans (treeProvider ui) (Progress.plans aggregate) in
  let '(bar, how) := StatusBar.setProgress (statusBar ui) (Some aggregate) in
  (mkUI tree bar, how).

End Extension.

(* ===================================================================== *)
(** ** Vocabulary of the statements and sample documents *)
(* ===================================================================== *)

(** A phase with the given status, for examples. *)
Definition phaseWith (st : PhaseStatus) : PhaseData :=
  mkPhase 1 (js "Setup") st (js "/plans/a/plan.md") (js "Setup") VUndefined.

(** The values that [normalizePriority] can return. *)
Definition priorityValues : list (option jsstring) :=
  [None; Some (js "P0"); Some (js "P1"); Some (js "P2"); Some (js "P3")].

(** A file system holding the listed files and nothing else. *)
Definition fsOf (files : list (jsstring * jsstring)) : filesystem :=
  fun path =>
    match find (fun kv => JS.eqb (fst kv) path) files with
    | Some kv => File (snd kv) 0
    | None => NoAccess
    end.

(** The lines of a document, each followed by a line feed. *)
Definition text (lines : list jsstring) : jsstring :=
  flat_map (fun l => l ++ [10]) lines.

(** [gray-matter] on documents without a YAML block: no data. *)
Definition noFrontMatter : jsstring -> outcome frontdata :=
  fun _ => Returned [].

(** The result of the first strategy that yields a non-empty phase list;
    the empty list if none does. *)
Fixpoint firstNonEmpty (results : list (list PhaseData)) : list PhaseData :=
  match results with
  | [] => []
  | [] :: results' => firstNonEmpty results'
  | phases :: _ => phases
  end.

(** The five strategies in the order of [parsePlanTable]. *)
Definition strategies (content dir planFilePath : jsstring)
  : list (list PhaseData) :=
  [ parseMultiColumnTable content dir planFilePath;
    parseLinkFirstTable content dir;
    parseNumberedListWithStatus content planFilePath;
    parseHeadingBased content planFilePath;
    parseCheckboxList content dir planFilePath ].

(** A plan whose only phase is a checkbox entry linked to a phase file,
    and that phase file with a status row. *)
Definition checkboxPlan : jsstring :=
  text [js "# Plan"; js "- [ ] **[Phase 1: Setup](./phase-01.md)**"].

Definition checkboxFiles : filesystem :=
  fsOf [(js "/plans/a/plan.md", checkboxPlan);
        (js "/plans/a/phase-01.md", text [js "| Status | done |"])].

(** The plan table of the enrichment scenario and its phase file. *)
Definition overridePlan : jsstring :=
  text [js "| # | Phase | Status | Link |";
        js "|---|-------|--------|------|";
        js "| 1 | Setup | Pending | [Phase 1](./phase-01-x.md) |"].

Definition overridePhaseFile : jsstring :=
  text [js "## Overview"; [];
        js "| Field | Value |";
        js "|-------|-------|";
        js "| Implementation Status | " ++ [0x2705] ++ js " Complete |"].

Definition overrideFiles : filesystem :=
  fsOf [(js "/plans/a/plan.md", overridePlan);
        (js "/plans/a/phase-01-x.md", overridePhaseFile)].

(** The phases that [parsePlans] records for one file. *)
Definition recorded (matter : jsstring -> outcome frontdata)
  (fs : filesystem) (file : jsstring) : list PhaseData :=
  match parsePlanTable matter fs file with
  | Returned phases => phases
  | Thrown => []
  end.

(** The phase that a heading line opens. *)
Definition openedPhase (planFilePath : jsstring) (headingMatch : rmatched)
  : PhaseData :=
  let phaseNum := parseInt (group' 1 headingMatch) in
  mkPhase phaseNum (trim (group' 2 headingMatch)) pending planFilePath
    (js "Phase " ++ numberToString phaseNum) VUndefined.

Definition withStatus (st : PhaseStatus) (p : PhaseData) : PhaseData :=
  mkPhase (phase p) (name p) st (file p) (linkText p) (effort p).

Definition pushed (currentPhase : option PhaseData) : list PhaseData :=
  match currentPhase with Some p => [p] | None => [] end.

(** A plan in the heading format: a status line before the first heading,
    two status lines under phase 1 and none under phase 2. *)
Definition headingPlan : jsstring :=
  text [js "# Plan"; js "- Status: done";
        js "### Phase 1: Setup"; js "- Status: done"; js "notes";
        js "- Status: wip";
        js "### Phase 2: Build"].

(** A numbered-list plan with [total] steps of which the first [done] are
    marked DONE and the others TODO. *)
Definition stepLine (done i : nat) : jsstring :=
  numberToString (Z.of_nat i) ++ js ". **Step** - "
  ++ (if (i <=? done)%nat then js "DONE" else js "TODO").

Definition stepPlan (done total : nat) : jsstring :=
  text (js "# Steps" :: map (stepLine done) (seq 1 total)).

Definition stepFiles (done total : nat) : filesystem :=
  fsOf [(js "/plans/260102-steps/plan.md", stepPlan done total)].

(** [round(100 * completedCount / totalCount)] on exact fractions, halves
    upwards as [Math.round] does on an exact number. *)
Definition exactPercentage (completedCount totalCount : nat) : Z :=
  if (0 <? totalCount)%nat
  then ((200 * Z.of_nat completedCount + Z.of_nat totalCount)
        / (2 * Z.of_nat totalCount))%Z
  else 0%Z.

(** The numbered-list line of the scenario. *)
Definition schemaLine : jsstring :=
  js "1. **Database Schema** (12h) - " ++ [0x2705]
  ++ js " COMPLETE - 12 tables created".

(** A document with the dependency table of the scenario. *)
Definition dependencyPlan : jsstring :=
  text [js "## Dependency Graph"; [];
        js "| Phase | Depends On | Can Run Parallel With |";
        js "|-------|------------|----------------------|";
        js "| 01 | None | 09 |";
        js "| 02 | 01 | 03, 04 |"; [];
        js "## Phase Summary"; [];
        schemaLine].

(** A document with a table that has a status column and no phase
    number, name or description column. *)
Definition gapPlan : jsstring :=
  text [js "## Gap Analysis"; [];
        js "| Gap | Owner | Status |";
        js "|-----|-------|--------|";
        js "| None | Ann | Done |";
        js "| Auth | Bob | Pending |"; [];
        js "## Phase Summary"; [];
        schemaLine].

Definition schemaPhase : PhaseData :=
  mkPhase 1 (js "Database Schema") completed (js "/plans/a/plan.md")
    (js "Database Schema") VUndefined.

(** A line without line terminators that does not start with a digit. *)
Definition quietLine (l : jsstring) : Prop :=
  Forall (fun c => isLineTerminator c = false) l
  /\ match l with [] => True | c :: _ => isDigit c = false end.

(** A line of prose: quiet, without an opening bracket and without a
    pipe. *)
Definition proseLine (l : jsstring) : Prop :=
  quietLine l /\ ~ In 91 l /\ hasPipe l = false.

(** A line of a table: quiet, without an opening bracket and with a
    pipe. *)
Definition tableLine (l : jsstring) : Prop :=
  quietLine l /\ ~ In 91 l /\ hasPipe l = true.

(** A document with one table between lines of prose, and the numbered
    line of the scenario at its end. *)
Definition tablePlan (pre : list jsstring) (hdr : jsstring)
  (rows mid : list jsstring) : jsstring :=
  text (pre ++ hdr :: rows ++ mid ++ [schemaLine]).

(** A run of decimal digits. *)
Definition allDigits (ds : jsstring) : Prop :=
  Forall (fun c => isDigit c = true) ds.

(** [a] does not come after [b] under a comparator. *)
Definition notAfter {A} (comparefn : A -> A -> option Z) (a b : A) : Prop :=
  (JSArray.sortValue (comparefn a b) <= 0)%Z.

(** The plans of the plan items of a list of tree elements. *)
Definition shownPlans (items : list TreeProvider.TreeElement)
  : list PlanData :=
  flat_map (fun item =>
              match item with
              | TreeProvider.PlanTreeItem plan => [plan]
              | _ => []
              end) items.

(** The priorities of the table of [comparePlans]. *)
Definition tablePriority (p : PlanData) : Prop :=
  In (priority p) [None; Some (js "P1"); Some (js "P2"); Some (js "P3")].

(** A comparator that is consistent on the elements of an array: of two
    elements one is not after the other, and not being after is
    transitive. *)
Definition consistentOn {A} (comparefn : A -> A -> option Z) (l : list A)
  : Prop :=
  (forall x y, In x l -> In y l ->
     notAfter comparefn x y \/ notAfter comparefn y x)
  /\ (forall x y z, In x l -> In y l -> In z l ->
        notAfter comparefn x y -> notAfter comparefn y z ->
        notAfter comparefn x z).

(** A plan record with the given status, priority, percentage and time
    of modification, for examples. *)
Definition samplePlan (st : PlanStatus) (pr : option jsstring)
  (pct mtime : Z) : PlanData :=
  mkPlan (js "260101-sample") (VString (js "Sample"))
    (js "/plans/260101-sample/plan.md") st [] 0 0 pct mtime VUndefined pr []
    VUndefined VUndefined VUndefined None None.

(** A plan record with one pending phase. *)
Definition phasedPlan : PlanData :=
  mkPlan (js "260101-sample") (VString (js "Sample"))
    (js "/plans/260101-sample/plan.md") plan_pending [phaseWith pending] 0 1
    0 0 VUndefined None [] VUndefined VUndefined VUndefined None None.

(** A project with a completed plan and a plan in progress, and a status
    bar that was given its progress. *)
Definition sampleProgress : Progress.ProjectProgress :=
  Progress.mkProgress (js "/w") (js "w")
    [samplePlan plan_completed None 100 5;
     samplePlan plan_in_progress (Some (js "P2")) 50 7] 0 0 0.

Definition sampleBar : StatusBar.PlansStatusBar :=
  StatusBar.mkBar (StatusBar.statusBarItem StatusBar.newBar) None
    (Some sampleProgress).

(** A plan whose front matter holds a numeric title and nothing else,
    above a list of completed steps; [gray-matter] on it. *)
Definition titledPlan : jsstring :=
  text [js "---"; js "title: 7"; js "---";
        js "1. **Schema** - DONE"; js "2. **Api** - DONE"].

Definition titleOnly : jsstring -> outcome frontdata :=
  fun _ => Returned [(js "title", VNumber 7)].

Definition titledFiles : filesystem :=
  fsOf [(js "/plans/a/plan.md", titledPlan)].

(** A workspace with two plan directories, a directory without a plan and
    a file in the plans directory; the entries of the plans directory; a
    collation that compares the first code units. *)
Definition sampleTree : filesystem :=
  fun path =>
    if existsb (JS.eqb path)
         [js "/w/plans"; js "/w/plans/260101-a"; js "/w/plans/260102-b";
          js "/w/plans/empty"]
    then Directory
    else if JS.eqb path (js "/w/plans/260101-a/plan.md")
    then File (text [js "1. **Schema** - DONE"; js "2. **Api** - TODO"]) 10
    else if JS.eqb path (js "/w/plans/260102-b/plan.md")
    then File (text [js "1. **Ui** - DONE"]) 20
    else if JS.eqb path (js "/w/plans/readme.md")
    then File (js "notes") 5
    else NoAccess.

Definition sampleEntries : jsstring -> outcome (list Scanner.Dirent) :=
  fun dir =>
    if JS.eqb dir (js "/w/plans")
    then Returned [Scanner.mkDirent (js "readme.md") false;
                   Scanner.mkDirent (js "260101-a") true;
                   Scanner.mkDirent (js "empty") true;
                   Scanner.mkDirent (js "260102-b") true]
    else Thrown.

Fixpoint sampleCollation (a b : jsstring) : Z :=
  match a, b with
  | [], [] => 0
  | [], _ :: _ => -1
  | _ :: _, [] => 1
  | x :: a', y :: b' =>
      if (x <? y)%N then -1
      else if (y <? x)%N then 1
      else sampleCollation a' b'
  end.

Definition sampleProject : PlansProject.PlansProject :=
  PlansProject.mkProject (js "/w") (js "w") (js "/w/plans") None 0.

(** A name that [readdir] can give to an entry: not empty, without a
    slash, and neither [.] nor [..]. *)
Definition properName (name : jsstring) : Prop :=
  name <> [] /\ ~ In Path.slash name /\ name <> js "." /\ name <> js "..".

(** The plans of a project that has progress. *)
Definition plansOf (project : PlansProject.PlansProject) : list PlanData :=
  match PlansProject.progress project with
  | Some pr => Progress.plans pr
  | None => []
  end.

(** The totals of a progress record are the sums over its plans. *)
Definition sumsOverPlans (pr : Progress.ProjectProgress) : Prop :=
  Progress.totalPhases pr = list_sum (map totalCount (Progress.plans pr))
  /\ Progress.completedPhases pr
     = list_sum (map completedCount (Progress.plans pr)).

Definition refreshedProject : PlansProject.PlansProject :=
  PlansProject.refresh noFrontMatter sampleTree sampleEntries sampleCollation
    sampleProject.

Definition sampleUI : Extension.UI :=
  Extension.mkUI (TreeProvider.mkProvider [] TreeProvider.mode_all)
    StatusBar.newBar.

(** The number of the phase that a line opens in the heading format, if
    the line is a heading. *)
Definition headingNumber (line : jsstring) : list Z :=
  match exec reHeading line with
  | Some headingMatch => [parseInt (group' 1 headingMatch)]
  | None => []
  end.

(** A pattern without capturing groups. *)
Fixpoint groupFree (r : regex) : bool :=
  match r with
  | Empty | Unit _ | Point _ | LineStart _ | LineEnd _ => true
  | Cat r1 r2 | Alt r1 r2 => groupFree r1 && groupFree r2
  | Star r1 | LazyStar r1 => groupFree r1
  | Group _ _ => false
  end.

(** What a description is free of: line feeds and number signs. *)
Definition plainUnit (c : N) : Prop := c <> 10 /\ c <> 35.

(** The units that end a sentence. *)
Definition endsSentence (c : N) : Prop := c = 46 \/ c = 33 \/ c = 63.

(* ===================================================================== *)
(** ** Strings *)
(* ===================================================================== *)

Lemma eqb_eq (a b : jsstring) : JS.eqb a b = true <-> a = b.
Proof.
  revert b. induction a as [|x a IH]; intros [|y b]; simpl;
    try (split; congruence).
  rewrite andb_true_iff, N.eqb_eq, IH. split.
  - intros [-> ->]. reflexivity.
  - intros H. injection H as -> ->. split; reflexivity.
Qed.

Lemma eqb_neq (a b : jsstring) : JS.eqb a b = false <-> a <> b.
Proof.
  rewrite <- eqb_eq. destruct (JS.eqb a b); split; congruence.
Qed.

Lemma startsWith_app (s prefix : jsstring) :
  startsWith s prefix = true <-> exists post, s = prefix ++ post.
Proof.
  revert s. induction prefix as [|p prefix IH]; intros s; cbn.
  - split; [intros _; exists s; reflexivity|reflexivity].
  - destruct s as [|c s].
    + split; [discriminate|]. intros [post H]. discriminate.
    + rewrite andb_true_iff, N.eqb_eq, IH. split.
      * intros [-> [post ->]]. exists post. reflexivity.
      * intros [post H]. injection H as -> ->. split; [reflexivity|eauto].
Qed.

(** [s.includes(kw)] says that [kw] occurs in [s]. *)
Lemma includes_app (s kw : jsstring) :
  includes s kw = true <-> exists pre post, s = pre ++ kw ++ post.
Proof.
  induction s as [|c s IH].
  - cbn [includes]. rewrite orb_false_r, startsWith_app. split.
    + intros [post H]. exists [], post. exact H.
    + intros (pre & post & H). destruct pre as [|x pre]; [|discriminate].
      exists post. exact H.
  - cbn [includes]. rewrite orb_true_iff, startsWith_app, IH. split.
    + intros [[post H]|(pre & post & H)].
      * exists [], post. exact H.
      * exists (c :: pre), post. cbn. now rewrite H.
    + intros (pre & post & H). destruct pre as [|x pre].
      * left. exists post. exact H.
      * right. injection H as -> H. exists pre, post. exact H.
Qed.

Lemma includes_rev (s kw : jsstring) :
  includes (rev s) (rev kw) = includes s kw.
Proof.
  apply eq_true_iff_eq. rewrite !includes_app. split.
  - intros (pre & post & H). exists (rev post), (rev pre).
    apply (f_equal (@rev N)) in H. rewrite rev_involutive in H.
    rewrite H, !rev_app_distr, rev_involutive, app_assoc. reflexivity.
  - intros (pre & post & ->). exists (rev post), (rev pre).
    rewrite !rev_app_distr, app_assoc. reflexivity.
Qed.

Lemma includes_trimStart (s kw : jsstring) (c : N) (kw' : jsstring) :
  kw = c :: kw' -> isWhiteSpace c = false ->
  includes (trimStart s) kw = includes s kw.
Proof.
  intros -> Hc. induction s as [|x s IH]; [reflexivity|].
  cbn [trimStart]. destruct (isWhiteSpace x) eqn:Hx; [|reflexivity].
  rewrite IH. cbn [includes startsWith].
  destruct (N.eqb_spec x c) as [->|_]; [congruence|reflexivity].
Qed.

(** Trimming does not change whether a keyword occurs, when the keyword
    neither starts nor ends with white space. *)
Lemma includes_trim (s kw : jsstring) :
  match kw with
  | [] => False
  | c :: _ => isWhiteSpace c = false /\ isWhiteSpace (last kw c) = false
  end ->
  includes (trim s) kw = includes s kw.
Proof.
  destruct kw as [|c kw']; [contradiction|]. intros [Hfirst Hlast].
  unfold trim, trimEnd.
  rewrite <- (rev_involutive (c :: kw')) at 1.
  rewrite includes_rev.
  destruct (rev (c :: kw')) as [|d kw''] eqn:Hrev.
  { apply (f_equal (@length N)) in Hrev. rewrite length_rev in Hrev.
    discriminate. }
  assert (Hd : isWhiteSpace d = false).
  { assert (E : c :: kw' = rev kw'' ++ [d]).
    { rewrite <- (rev_involutive (c :: kw')), Hrev. reflexivity. }
    rewrite E in Hlast. rewrite last_last in Hlast. exact Hlast. }
  rewrite (includes_trimStart _ _ d kw'' eq_refl Hd).
  rewrite <- Hrev, includes_rev.
  apply (includes_trimStart _ _ c kw' eq_refl Hfirst).
Qed.

Lemma split_not_nil (sep : N) (s : jsstring) : split sep s <> [].
Proof.
  destruct s as [|c s]; cbn; [discriminate|].
  destruct (split sep s); [discriminate|].
  destruct (c =? sep); discriminate.
Qed.

Lemma split_line (sep : N) (l doc : jsstring) :
  ~ In sep l -> split sep (l ++ sep :: doc) = l :: split sep doc.
Proof.
  induction l as [|c l IH]; intros Hsep; cbn [app split].
  - pose proof (split_not_nil sep doc) as Hne.
    destruct (split sep doc); [contradiction|].
    now rewrite N.eqb_refl.
  - rewrite IH by (intros H; apply Hsep; now right).
    destruct (N.eqb_spec c sep) as [->|Hne]; [|reflexivity].
    exfalso. apply Hsep. now left.
Qed.

Lemma split_text (lines : list jsstring) (doc : jsstring) :
  Forall (fun l => ~ In 10 l) lines ->
  split 10 (text lines ++ doc) = lines ++ split 10 doc.
Proof.
  induction 1 as [|l lines Hl _ IH]; [reflexivity|].
  unfold text in *. cbn [flat_map app].
  rewrite <- !app_assoc. cbn [app].
  rewrite (split_line 10 l _ Hl), IH. reflexivity.
Qed.

(** Replaces the literals [js "..."] of the goal by their code units. *)
Ltac eval_literals :=
  repeat match goal with
         | |- context [js ?s] =>
             let v := eval vm_compute in (js s) in
             change (js s) with v
         end.

(* ===================================================================== *)
(** ** The matcher and ECMAScript's repetition *)
(* ===================================================================== *)

Lemma advance_remaining (n : nat) (s : mstate) :
  (remaining (advance n s) <= remaining s)%nat.
Proof.
  unfold remaining, advance. cbn [after]. rewrite length_skipn. lia.
Qed.

(** The continuation is only ever asked about states that have no more
    input left than the state the match started from. *)
Lemma rmatch_ext (r : regex) :
  forall (k k' : mstate -> option mstate) (s : mstate),
    (forall s', (remaining s' <= remaining s)%nat -> k s' = k' s') ->
    rmatch r k s = rmatch r k' s.
Proof.
  induction r as [|p|p|r1 IH1 r2 IH2|r1 IH1 r2 IH2|r1 IH1|r1 IH1|i r1 IH1
                 |m|m]; intros k k' s Hk; cbn [rmatch].
  - apply Hk. lia.
  - destruct (after s) as [|c t] eqn:E; [reflexivity|].
    destruct (p c); [|reflexivity]. apply Hk. apply advance_remaining.
  - destruct (codePointAt (after s)) as [[cp n]|]; [|reflexivity].
    destruct (p cp); [|reflexivity]. apply Hk. apply advance_remaining.
  - apply IH1. intros s' Hs'. apply IH2. intros s'' Hs''. apply Hk. lia.
  - rewrite (IH1 k k' s Hk), (IH2 k k' s Hk). reflexivity.
  - fold (remaining s).
    assert (Hloop : forall fuel s0,
               (remaining s0 <= remaining s)%nat ->
               greedyLoop (rmatch r1) k fuel s0
               = greedyLoop (rmatch r1) k' fuel s0).
    { induction fuel as [|fuel IHf]; intros s0 Hs0; cbn [greedyLoop].
      - apply Hk. assumption.
      - rewrite (Hk s0 Hs0).
        erewrite IH1; [reflexivity|].
        intros s1 Hs1. cbn beta. fold (remaining s1) (remaining s0).
        destruct (remaining s1 <? remaining s0)%nat; [|reflexivity].
        apply IHf. lia. }
    apply Hloop. lia.
  - fold (remaining s).
    assert (Hloop : forall fuel s0,
               (remaining s0 <= remaining s)%nat ->
               lazyLoop (rmatch r1) k fuel s0
               = lazyLoop (rmatch r1) k' fuel s0).
    { induction fuel as [|fuel IHf]; intros s0 Hs0; cbn [lazyLoop].
      - apply Hk. assumption.
      - rewrite (Hk s0 Hs0).
        erewrite IH1; [reflexivity|].
        intros s1 Hs1. cbn beta. fold (remaining s1) (remaining s0).
        destruct (remaining s1 <? remaining s0)%nat; [|reflexivity].
        apply IHf. lia. }
    apply Hloop. lia.
  - apply IH1. intros s1 Hs1. apply Hk. exact Hs1.
  - destruct (before s); [apply Hk; lia|].
    destruct (m && _); [apply Hk; lia|reflexivity].
  - destruct (after s) eqn:E; [apply Hk; lia|].
    destruct (m && _); [apply Hk; lia|reflexivity].
Qed.

(** A match needs its continuation to accept. *)
Lemma rmatch_none (r : regex) :
  forall (k : mstate -> option mstate) (s : mstate),
    (forall s', k s' = None) -> rmatch r k s = None.
Proof.
  induction r as [|p|p|r1 IH1 r2 IH2|r1 IH1 r2 IH2|r1 IH1|r1 IH1|i r1 IH1
                 |m|m]; intros k s Hk; cbn [rmatch].
  - apply Hk.
  - destruct (after s) as [|c t]; [reflexivity|]. destruct (p c); auto.
  - destruct (codePointAt (after s)) as [[cp n]|]; [|reflexivity].
    destruct (p cp); auto.
  - apply IH1. intros s'. apply IH2. exact Hk.
  - rewrite (IH1 k s Hk). apply IH2. exact Hk.
  - generalize (length (after s)). intros fuel. revert s.
    induction fuel as [|fuel IHf]; intros s; cbn [greedyLoop]; [apply Hk|].
    rewrite IH1; [apply Hk|].
    intros s1. destruct (_ <? _)%nat; [apply IHf|reflexivity].
  - generalize (length (after s)). intros fuel. revert s.
    induction fuel as [|fuel IHf]; intros s; cbn [lazyLoop]; [apply Hk|].
    rewrite Hk. apply IH1.
    intros s1. destruct (_ <? _)%nat; [apply IHf|reflexivity].
  - apply IH1. intros s1. apply Hk.
  - destruct (before s); [apply Hk|]. destruct (m && _); auto.
  - destruct (after s); [apply Hk|]. destruct (m && _); auto.
Qed.

(** Fuel beyond the input still to read changes nothing. *)
Lemma greedyLoop_fuel (r : regex) (k : mstate -> option mstate) :
  forall fuel1 fuel2 s,
    (remaining s <= fuel1)%nat -> (remaining s <= fuel2)%nat ->
    greedyLoop (rmatch r) k fuel1 s = greedyLoop (rmatch r) k fuel2 s.
Proof.
  induction fuel1 as [|fuel1 IH]; intros fuel2 s H1 H2.
  - destruct fuel2 as [|fuel2]; [reflexivity|]. cbn [greedyLoop].
    rewrite rmatch_none; [reflexivity|].
    intros s1. fold (remaining s1) (remaining s).
    replace (remaining s) with 0%nat by lia. reflexivity.
  - destruct fuel2 as [|fuel2].
    + cbn [greedyLoop].
      rewrite rmatch_none; [reflexivity|].
      intros s1. fold (remaining s1) (remaining s).
      replace (remaining s) with 0%nat by lia. reflexivity.
    + cbn [greedyLoop]. erewrite rmatch_ext; [reflexivity|].
      intros s1 _. cbn beta. fold (remaining s1) (remaining s).
      destruct (Nat.ltb_spec (remaining s1) (remaining s)); [|reflexivity].
      apply IH; lia.
Qed.

Lemma lazyLoop_fuel (r : regex) (k : mstate -> option mstate) :
  forall fuel1 fuel2 s,
    (remaining s <= fuel1)%nat -> (remaining s <= fuel2)%nat ->
    lazyLoop (rmatch r) k fuel1 s = lazyLoop (rmatch r) k fuel2 s.
Proof.
  induction fuel1 as [|fuel1 IH]; intros fuel2 s H1 H2.
  - destruct fuel2 as [|fuel2]; [reflexivity|]. cbn [lazyLoop].
    destruct (k s); [reflexivity|].
    rewrite rmatch_none; [reflexivity|].
    intros s1. fold (remaining s1) (remaining s).
    replace (remaining s) with 0%nat by lia. reflexivity.
  - destruct fuel2 as [|fuel2].
    + cbn [lazyLoop]. destruct (k s); [reflexivity|].
      rewrite rmatch_none; [reflexivity|].
      intros s1. fold (remaining s1) (remaining s).
      replace (remaining s) with 0%nat by lia. reflexivity.
    + cbn [lazyLoop]. destruct (k s); [reflexivity|].
      apply rmatch_ext.
      intros s1 _. cbn beta. fold (remaining s1) (remaining s).
      destruct (Nat.ltb_spec (remaining s1) (remaining s)); [|reflexivity].
      apply IH; lia.
Qed.

(** The equation of RepeatMatcher for [r*]: one iteration of [r] that
    consumed something, followed by the repetition again, and otherwise
    the continuation. *)
Theorem rmatch_star (r : regex) (k : mstate -> option mstate) (s : mstate) :
  rmatch (Star r) k s
  = match rmatch r
            (fun s1 =>
               if (remaining s1 <? remaining s)%nat
               then rmatch (Star r) k s1 else None) s with
    | Some m => Some m
    | None => k s
    end.
Proof.
  cbn [rmatch]. fold (remaining s).
  destruct (remaining s) as [|n] eqn:E.
  - cbn [greedyLoop].
    rewrite rmatch_none; [reflexivity|]. intros s1. reflexivity.
  - cbn [greedyLoop]. fold (remaining s). rewrite E.
    erewrite rmatch_ext; [reflexivity|].
    intros s1 _. cbn beta. fold (remaining s1).
    destruct (Nat.ltb_spec (remaining s1) (S n)); [|reflexivity].
    apply greedyLoop_fuel; lia.
Qed.

(** The equation of RepeatMatcher for [r*?]. *)
Theorem rmatch_lazy_star (r : regex) (k : mstate -> option mstate)
  (s : mstate) :
  rmatch (LazyStar r) k s
  = match k s with
    | Some m => Some m
    | None =>
        rmatch r
          (fun s1 =>
             if (remaining s1 <? remaining s)%nat
             then rmatch (LazyStar r) k s1 else None) s
    end.
Proof.
  cbn [rmatch]. fold (remaining s).
  destruct (remaining s) as [|n] eqn:E.
  - cbn [lazyLoop]. destruct (k s); [reflexivity|].
    rewrite rmatch_none; [reflexivity|]. intros s1. reflexivity.
  - cbn [lazyLoop]. fold (remaining s). rewrite E.
    destruct (k s); [reflexivity|].
    apply rmatch_ext.
    intros s1 _. cbn beta. fold (remaining s1).
    destruct (Nat.ltb_spec (remaining s1) (S n)); [|reflexivity].
    apply lazyLoop_fuel; lia.
Qed.

(* ===================================================================== *)
(** ** The matcher finds a match exactly when there is one *)
(* ===================================================================== *)

Lemma greedyLoop_sound (r : regex) (k : mstate -> option mstate)
  (e : mstate) :
  (forall k' s,
     rmatch r k' s = Some e -> exists s', reaches r s s' /\ k' s' = Some e) ->
  forall fuel s,
    greedyLoop (rmatch r) k fuel s = Some e ->
    exists s', reaches (Star r) s s' /\ k s' = Some e.
Proof.
  intros IH. induction fuel as [|fuel IHf]; intros s; cbn [greedyLoop].
  - intros H. exists s. split; [constructor|exact H].
  - destruct (rmatch r _ s) as [m|] eqn:E.
    + intros H. injection H as ->.
      apply IH in E. destruct E as (s1 & Hr & Hk).
      fold (remaining s1) (remaining s) in Hk.
      destruct (Nat.ltb_spec (remaining s1) (remaining s)); [|discriminate].
      apply IHf in Hk. destruct Hk as (s' & Hstar & Hk).
      exists s'. split; [|exact Hk].
      eapply reaches_Star_more; eassumption.
    + intros H. exists s. split; [constructor|exact H].
Qed.

Lemma lazyLoop_sound (r : regex) (k : mstate -> option mstate)
  (e : mstate) :
  (forall k' s,
     rmatch r k' s = Some e -> exists s', reaches r s s' /\ k' s' = Some e) ->
  forall fuel s,
    lazyLoop (rmatch r) k fuel s = Some e ->
    exists s', reaches (LazyStar r) s s' /\ k s' = Some e.
Proof.
  intros IH. induction fuel as [|fuel IHf]; intros s; cbn [lazyLoop].
  - intros H. exists s. split; [constructor|exact H].
  - destruct (k s) as [m|] eqn:E.
    + intros H. injection H as ->. exists s. split; [constructor|exact E].
    + intros H. apply IH in H. destruct H as (s1 & Hr & Hk).
      fold (remaining s1) (remaining s) in Hk.
      destruct (Nat.ltb_spec (remaining s1) (remaining s)); [|discriminate].
      apply IHf in Hk. destruct Hk as (s' & Hstar & Hk).
      exists s'. split; [|exact Hk].
      eapply reaches_LazyStar_more; eassumption.
Qed.

(** What the matcher returns was accepted by the continuation in a state
    that the pattern reaches. *)
Theorem rmatch_sound (r : regex) :
  forall (k : mstate -> option mstate) (s e : mstate),
    rmatch r k s = Some e -> exists s', reaches r s s' /\ k s' = Some e.
Proof.
  induction r as [|p|p|r1 IH1 r2 IH2|r1 IH1 r2 IH2|r1 IH1|r1 IH1|i r1 IH1
                 |m|m]; intros k s e; cbn [rmatch].
  - intros H. exists s. split; [constructor|exact H].
  - destruct (after s) as [|c t] eqn:E; [discriminate|].
    destruct (p c) eqn:Hp; [|discriminate].
    intros H. exists (advance 1 s). split; [|exact H].
    econstructor; eassumption.
  - destruct (codePointAt (after s)) as [[cp n]|] eqn:E; [|discriminate].
    destruct (p cp) eqn:Hp; [|discriminate].
    intros H. exists (advance n s). split; [|exact H].
    econstructor; eassumption.
  - intros H. apply IH1 in H. destruct H as (s1 & H1 & H).
    apply IH2 in H. destruct H as (s2 & H2 & H).
    exists s2. split; [|exact H]. econstructor; eassumption.
  - destruct (rmatch r1 k s) as [m|] eqn:E.
    + intros H. injection H as ->. apply IH1 in E.
      destruct E as (s' & Hr & Hk). exists s'. split; [|exact Hk].
      now apply reaches_Alt_left.
    + intros H. apply IH2 in H. destruct H as (s' & Hr & Hk).
      exists s'. split; [|exact Hk]. now apply reaches_Alt_right.
  - apply greedyLoop_sound. intros k' s0. apply IH1.
  - apply lazyLoop_sound. intros k' s0. apply IH1.
  - intros H. apply IH1 in H. destruct H as (s1 & Hr & Hk).
    eexists. split; [|exact Hk]. now constructor.
  - destruct (before s) as [|c t] eqn:E.
    + intros H. exists s. split; [|exact H]. now constructor.
    + destruct m; cbn [andb]; [|discriminate].
      destruct (isLineTerminator c) eqn:Hc; [|discriminate].
      intros H. exists s. split; [|exact H].
      eapply reaches_LineStart_line; eassumption.
  - destruct (after s) as [|c t] eqn:E.
    + intros H. exists s. split; [|exact H]. now constructor.
    + destruct m; cbn [andb]; [|discriminate].
      destruct (isLineTerminator c) eqn:Hc; [|discriminate].
      intros H. exists s. split; [|exact H].
      eapply reaches_LineEnd_line; eassumption.
Qed.

(** When the pattern reaches a state that the continuation accepts, the
    matcher finds a match. *)
Theorem rmatch_complete (r : regex) :
  forall (k : mstate -> option mstate) (s s' : mstate),
    reaches r s s' -> k s' <> None -> rmatch r k s <> None.
Proof.
  induction r as [|p|p|r1 IH1 r2 IH2|r1 IH1 r2 IH2|r1 IH1|r1 IH1|i r1 IH1
                 |m|m]; intros k s s' Hr Hk.
  - inversion Hr; subst. exact Hk.
  - inversion Hr; subst. cbn [rmatch].
    match goal with H : after s = _ |- _ => rewrite H end.
    match goal with H : p _ = true |- _ => rewrite H end. exact Hk.
  - inversion Hr; subst. cbn [rmatch].
    match goal with H : codePointAt _ = _ |- _ => rewrite H end.
    match goal with H : p _ = true |- _ => rewrite H end. exact Hk.
  - inversion Hr; subst. cbn [rmatch].
    eapply IH1; [eassumption|]. eapply IH2; eassumption.
  - cbn [rmatch]. inversion Hr; subst.
    + pose proof (IH1 k s s' ltac:(assumption) Hk).
      destruct (rmatch r1 k s); congruence.
    + destruct (rmatch r1 k s); cbn beta iota; [intros E; discriminate E|].
      eapply IH2; eassumption.
  - remember (Star r1) as R eqn:HR. revert HR Hk.
    induction Hr as [| | | | | |r s|r s s1 s2 Hr1 _ Hlt Hr2 IH| | | | | | |];
      intros HR Hk; try discriminate; injection HR as ->.
    + rewrite rmatch_star.
      match goal with
      | |- match ?t with _ => _ end <> None => destruct t
      end; [intros E; discriminate E|exact Hk].
    + rewrite rmatch_star.
      match goal with
      | |- match ?t with _ => _ end <> None =>
          assert (Hin : t <> None);
          [|destruct t; [intros E; discriminate E|contradiction]]
      end.
      eapply IH1; [eassumption|]. cbn beta.
      destruct (Nat.ltb_spec (remaining s1) (remaining s)); [|lia].
      apply IH; [reflexivity|exact Hk].
  - remember (LazyStar r1) as R eqn:HR. revert HR Hk.
    induction Hr as [| | | | | | | |r s|r s s1 s2 Hr1 _ Hlt Hr2 IH| | | | |];
      intros HR Hk; try discriminate; injection HR as ->.
    + rewrite rmatch_lazy_star.
      destruct (k s); [intros E; discriminate E|contradiction].
    + rewrite rmatch_lazy_star.
      destruct (k s); [intros E; discriminate E|].
      eapply IH1; [eassumption|]. cbn beta.
      destruct (Nat.ltb_spec (remaining s1) (remaining s)); [|lia].
      apply IH; [reflexivity|exact Hk].
  - inversion Hr; subst. cbn [rmatch]. eapply IH1; [eassumption|exact Hk].
  - cbn [rmatch]. inversion Hr; subst.
    + match goal with H : before s' = [] |- _ => rewrite H end. exact Hk.
    + match goal with H : before s' = _ :: _ |- _ => rewrite H end.
      match goal with H : isLineTerminator _ = true |- _ => rewrite H end.
      exact Hk.
  - cbn [rmatch]. inversion Hr; subst.
    + match goal with H : after s' = [] |- _ => rewrite H end. exact Hk.
    + match goal with H : after s' = _ :: _ |- _ => rewrite H end.
      match goal with H : isLineTerminator _ = true |- _ => rewrite H end.
      exact Hk.
Qed.

(** The matcher fails exactly when the continuation rejects every state
    that the pattern reaches. *)
Corollary rmatch_None_iff (r : regex) (k : mstate -> option mstate)
  (s : mstate) :
  rmatch r k s = None <-> (forall s', reaches r s s' -> k s' = None).
Proof.
  split.
  - intros Hnone s' Hr. destruct (k s') eqn:E; [|reflexivity].
    exfalso. apply (rmatch_complete r k s s' Hr); [congruence|exact Hnone].
  - intros Hall. destruct (rmatch r k s) as [e|] eqn:E; [|reflexivity].
    apply rmatch_sound in E. destruct E as (s' & Hr & Hk).
    rewrite (Hall s' Hr) in Hk. discriminate.
Qed.

(* ===================================================================== *)
(** ** Searching for matches *)
(* ===================================================================== *)

Lemma codePointAt_length (input : jsstring) (cp : N) (n : nat) :
  codePointAt input = Some (cp, n) -> (1 <= n <= length input)%nat.
Proof.
  destruct input as [|c [|d t]]; cbn; [discriminate| |].
  - intros H. injection H as _ <-. lia.
  - destruct (isHigh c && isLow d); intros H; injection H as _ <-; lia.
Qed.

Lemma advance_progress (n : nat) (s : mstate) :
  (1 <= n <= remaining s)%nat -> (remaining (advance n s) < remaining s)%nat.
Proof.
  unfold remaining, advance. cbn [after]. rewrite length_skipn. lia.
Qed.

(** The search for the leftmost match never needs more steps than there
    is input. *)
Lemma searchFrom_fuel (unicode : bool) (r : regex) :
  forall fuel1 fuel2 s,
    (remaining s <= fuel1)%nat -> (remaining s <= fuel2)%nat ->
    searchFrom unicode r fuel1 s = searchFrom unicode r fuel2 s.
Proof.
  assert (Hend : forall fuel s,
             remaining s = 0%nat ->
             searchFrom unicode r fuel s = matchAt r s).
  { intros fuel s Hs. unfold remaining in Hs.
    destruct fuel; cbn [searchFrom]; destruct (matchAt r s); try reflexivity.
    destruct (after s); [reflexivity|discriminate]. }
  induction fuel1 as [|fuel1 IH]; intros fuel2 s H1 H2.
  - rewrite !Hend by lia. reflexivity.
  - destruct fuel2 as [|fuel2]; [rewrite !Hend by lia; reflexivity|].
    cbn [searchFrom]. destruct (matchAt r s); [reflexivity|].
    destruct (codePointAt (after s)) as [[cp n]|] eqn:E; [|reflexivity].
    pose proof (codePointAt_length _ _ _ E) as Hn.
    assert (Hstep : forall m, (1 <= m <= remaining s)%nat ->
                      searchFrom unicode r fuel1 (advance m s)
                      = searchFrom unicode r fuel2 (advance m s)).
    { intros m Hm. pose proof (advance_progress m s Hm). apply IH; lia. }
    apply Hstep. unfold remaining. destruct unicode; lia.
Qed.

(** The loop over the matches of a pattern with the [g] flag: the next
    search starts where the match ended. *)
Lemma matchesFrom_fuel (unicode : bool) (r : regex) :
  forall fuel1 fuel2 s,
    (remaining s < fuel1)%nat -> (remaining s < fuel2)%nat ->
    matchesFrom unicode r fuel1 s = matchesFrom unicode r fuel2 s.
Proof.
  induction fuel1 as [|fuel1 IH]; intros fuel2 s H1 H2; [lia|].
  destruct fuel2 as [|fuel2]; [lia|].
  cbn [matchesFrom].
  destruct (searchFrom unicode r (length (after s)) s) as [m|];
    [|reflexivity].
  destruct (Nat.ltb_spec (length (after (rest m))) (length (after s)));
    [|reflexivity].
  f_equal. apply IH; unfold remaining in *; cbn [after]; lia.
Qed.

Lemma matchesFrom_step (unicode : bool) (r : regex) (fuel : nat)
  (s : mstate) :
  matchesFrom unicode r (S fuel) s
  = match searchFrom unicode r (length (after s)) s with
    | None => []
    | Some m =>
        if (length (after (rest m)) <? length (after s))%nat
        then m :: matchesFrom unicode r fuel
                    (MState (before (rest m)) (after (rest m)) [])
        else [m]
    end.
Proof. reflexivity. Qed.

Theorem matchesFrom_unfold (unicode : bool) (r : regex) (s : mstate) :
  matchesFrom unicode r (S (remaining s)) s
  = match searchFrom unicode r (remaining s) s with
    | None => []
    | Some m =>
        if (remaining (rest m) <? remaining s)%nat
        then m :: matchesFrom unicode r (S (remaining (rest m)))
                    (MState (before (rest m)) (after (rest m)) [])
        else [m]
    end.
Proof.
  rewrite matchesFrom_step. fold (remaining s).
  destruct (searchFrom unicode r (remaining s) s) as [m|]; [|reflexivity].
  fold (remaining (rest m)).
  destruct (Nat.ltb_spec (remaining (rest m)) (remaining s)); [|reflexivity].
  f_equal. apply matchesFrom_fuel; unfold remaining in *; cbn [after]; lia.
Qed.

(** A pattern that starts with [^] (without the [m] flag) matches at the
    start of the input or nowhere. *)
Lemma searchFrom_anchored (u : bool) (r : regex) (fuel : nat) (s : mstate) :
  before s <> [] -> searchFrom u (Cat (LineStart false) r) fuel s = None.
Proof.
  revert s. induction fuel as [|fuel IH]; intros s Hs.
  - simpl. unfold matchAt. simpl. destruct (before s); [congruence|reflexivity].
  - simpl. unfold matchAt. simpl. destruct (before s) eqn:Hb; [congruence|].
    simpl. destruct (codePointAt (after s)) as [[cp0 len0]|]; [|reflexivity].
    apply IH. unfold advance. simpl. rewrite Hb.
    destruct (rev _); discriminate.
Qed.

Lemma exec_anchored (r : regex) (input : jsstring) :
  exec (Cat (LineStart false) r) input
  = matchAt (Cat (LineStart false) r) (start input).
Proof.
  unfold exec. destruct input as [|c t].
  - simpl. destruct (matchAt _ _); reflexivity.
  - cbn [length searchFrom].
    destruct (matchAt _ _); [reflexivity|].
    assert (H : forall fuel,
               searchFrom false (Cat (LineStart false) r) fuel
                 (advance 1 (start (c :: t))) = None).
    { intros fuel. apply searchFrom_anchored. simpl. discriminate. }
    cbn [start after codePointAt].
    destruct t as [|d t']; [apply H|].
    destruct (isHigh c && isLow d); apply H.
Qed.

(* ===================================================================== *)
(** ** Digit runs and captured groups *)
(* ===================================================================== *)

Lemma reaches_digit (s s' : mstate) :
  reaches digit s s' ->
  exists c, after s = c :: after s' /\ isDigit c = true /\ caps s' = caps s.
Proof.
  unfold digit. intros H. inversion H as [|p s0 c t Ha Hp| | | | | | | | | | | | |];
    subst.
  exists c. unfold advance. cbn [after caps]. rewrite Ha. auto.
Qed.

Lemma reaches_chr (ch : N) (s s' : mstate) :
  reaches (chr ch) s s' -> caps s' = caps s.
Proof.
  unfold chr. intros H.
  inversion H as [|p s0 c t Ha Hp| | | | | | | | | | | | |]; subst.
  reflexivity.
Qed.

Lemma reaches_Times_digit (n : nat) :
  forall s s',
    reaches (Times n digit) s s' ->
    exists ds,
      after s = ds ++ after s' /\ length ds = n /\ allDigits ds
      /\ caps s' = caps s.
Proof.
  induction n as [|n IH]; intros s s' H; cbn [Times] in H.
  - inversion H; subst. exists []. repeat split. constructor.
  - inversion H as [| | |r1 r2 s0 s1 s2 H1 H2| | | | | | | | | | |]; subst.
    apply reaches_digit in H1. destruct H1 as (c & Ha & Hc & Hcaps).
    apply IH in H2. destruct H2 as (ds & Hds & Hlen & Hall & Hcaps').
    exists (c :: ds). rewrite Ha, Hds. cbn [app length].
    repeat split; [congruence|now constructor|congruence].
Qed.

Lemma reaches_UpTo_digit (n : nat) :
  forall s s',
    reaches (UpTo n digit) s s' ->
    exists ds,
      after s = ds ++ after s' /\ (length ds <= n)%nat /\ allDigits ds
      /\ caps s' = caps s.
Proof.
  induction n as [|n IH]; intros s s' H; cbn [UpTo] in H.
  - inversion H; subst. exists []. repeat split; [cbn; lia|constructor].
  - unfold Opt in H.
    inversion H as [| | | |r1 r2 s0 s0' HL|r1 r2 s0 s0' HR| | | | | | | | |];
      subst.
    + inversion HL as [| | |r1 r2 s0 s1 s2 H1 H2| | | | | | | | | | |]; subst.
      apply reaches_digit in H1. destruct H1 as (c & Ha & Hc & Hcaps).
      apply IH in H2. destruct H2 as (ds & Hds & Hlen & Hall & Hcaps').
      exists (c :: ds). rewrite Ha, Hds. cbn [app length].
      repeat split; [lia|now constructor|congruence].
    + inversion HR; subst. exists []. repeat split; [cbn; lia|constructor].
Qed.

(** Takes apart the derivations of sequences, alternatives and groups. *)
Ltac invert_reaches :=
  repeat match goal with
         | H : reaches (Cat _ _) _ _ |- _ => inversion H; clear H; subst
         | H : reaches (Alt _ _) _ _ |- _ => inversion H; clear H; subst
         | H : reaches (Group _ _) _ _ |- _ => inversion H; clear H; subst
         | H : reaches Empty _ _ |- _ => inversion H; clear H; subst
         | H : reaches (LineStart _) _ _ |- _ => inversion H; clear H; subst
         end.

Lemma firstn_consumed (ds rest : jsstring) :
  firstn (length (ds ++ rest) - length rest) (ds ++ rest) = ds.
Proof.
  rewrite length_app. replace (length ds + length rest - length rest)%nat
    with (length ds + 0)%nat by lia.
  rewrite firstn_app_2. cbn. apply app_nil_r.
Qed.

(** The first group of an anchored pattern of the shape of the directory
    pattern, with the sub-patterns left open: [g] is the group's body,
    [d] the separator and [t] the body of the second group. *)
Lemma anchored_group_capture (g d t : regex) (P : jsstring -> Prop) :
  (forall s s',
     reaches g s s' ->
     exists ds, after s = ds ++ after s' /\ P ds /\ caps s' = caps s) ->
  (forall s s', reaches d s s' -> caps s' = caps s) ->
  (forall s s', reaches t s s' -> caps s' = caps s) ->
  forall input s',
    reaches
      (Cat (LineStart false)
         (Cat (Group 1 g) (Cat (Alt (Cat d (Group 2 t)) Empty) d)))
      (MState [] input []) s' ->
    exists ds,
      P ds
      /\ find (fun c => Nat.eqb (fst c) 1) (caps s') = Some (1%nat, ds).
Proof.
  intros Hg Hd Ht input s' Hr. invert_reaches.
  - repeat match goal with
           | H : reaches g _ _ |- _ =>
               apply Hg in H; destruct H as (ds & Hafter & HP & Hcaps)
           | H : reaches d _ _ |- _ => apply Hd in H
           | H : reaches t _ _ |- _ => apply Ht in H
           end.
    cbn [caps before after] in *. exists ds. split; [exact HP|].
    repeat match goal with H : caps _ = _ |- _ => rewrite H end.
    cbn [find fst Nat.eqb]. rewrite Hafter, firstn_consumed. reflexivity.
  - repeat match goal with
           | H : reaches g _ _ |- _ =>
               apply Hg in H; destruct H as (ds & Hafter & HP & Hcaps)
           | H : reaches d _ _ |- _ => apply Hd in H
           | H : reaches t _ _ |- _ => apply Ht in H
           end.
    cbn [caps before after] in *. exists ds. split; [exact HP|].
    repeat match goal with H : caps _ = _ |- _ => rewrite H end.
    cbn [find fst Nat.eqb]. rewrite Hafter, firstn_consumed. reflexivity.
Qed.

(* ===================================================================== *)
(** ** Properties of the status utilities *)
(* ===================================================================== *)

Lemma isCompleted_true st : isCompleted st = true <-> st = completed.
Proof. destruct st; simpl; split; congruence. Qed.

Lemma isInProgress_true st : isInProgress st = true <-> st = in_progress.
Proof. destruct st; simpl; split; congruence. Qed.

(** No lowercased text holds the capital letter U+0178. *)
Lemma lowerUnit_no_0178 (c : N) : ~ In 0x178 (lowerUnit c).
Proof.
  unfold lowerUnit, between.
  repeat match goal with
         | |- context [if ?b then _ else _] => destruct b eqn:?
         end; cbn [In];
    repeat match goal with
           | H : _ && _ = true |- _ => apply andb_true_iff in H; destruct H
           | H : _ || _ = true |- _ => apply orb_true_iff in H
           | H : negb _ = true |- _ => apply negb_true_iff in H
           | H : (_ <=? _) = true |- _ => apply N.leb_le in H
           | H : (_ =? _) = true |- _ => apply N.eqb_eq in H
           | H : (_ =? _) = false |- _ => apply N.eqb_neq in H
           end;
    intros Hin;
    repeat match goal with
           | H : _ \/ _ |- _ => destruct H
           | H : False |- _ => destruct H
           end; try lia.
  all: try (assert (c = 0x177) by lia; subst c; discriminate).
Qed.

Lemma toLowerCase_no_0178 (raw : jsstring) : ~ In 0x178 (toLowerCase raw).
Proof.
  unfold toLowerCase. intros H. apply in_flat_map in H.
  destruct H as (c & _ & H). exact (lowerUnit_no_0178 c H).
Qed.

Lemma includes_markSync (raw : jsstring) :
  includes (trim (toLowerCase raw)) markSync = false.
Proof.
  rewrite includes_trim by (split; reflexivity).
  apply not_true_is_false. intros H. apply includes_app in H.
  destruct H as (pre & post & H).
  apply (toLowerCase_no_0178 raw). rewrite H.
  apply in_or_app. right. right. left. reflexivity.
Qed.

(** What [normalizeStatus] computes, in terms of the lowercased text:
    completed when it holds "complete", "done" or one of the two
    mis-encoded check marks; otherwise in progress when it holds
    "progress", "active" or "wip"; otherwise pending.  The fourth literal
    of the in-progress test never occurs in a lowercased text. *)
Theorem normalizeStatus_lowercased (raw : jsstring) :
  let s := toLowerCase raw in
  normalizeStatus raw
  = if includes s (js "complete") || includes s (js "done")
       || includes s markCheck || includes s markDone
    then completed
    else if includes s (js "progress") || includes s (js "active")
            || includes s (js "wip")
    then in_progress
    else pending.
Proof.
  cbv zeta. unfold normalizeStatus.
  rewrite includes_markSync, orb_false_r.
  rewrite !includes_trim by (split; reflexivity).
  reflexivity.
Qed.

Lemma normalizeStatus_absent : normalizeStatusOf None = pending.
Proof. reflexivity. Qed.

(** C1, at the inputs where the code departs from it.  The check mark
    U+2713, the white heavy check mark U+2705 and the arrows U+1F504 are
    all classified as pending, because the literals that
    [normalizeStatus] searches for are the three mis-encoded sequences
    [markCheck], [markDone] and [markSync]; the last one holds the capital
    letter U+0178, which no lowercased text contains, so that even the
    input of the module's own test (the mis-encoded arrows followed by
    " Working") is pending. *)
Theorem normalizeStatus_emoji_pending :
  normalizeStatus [0x2713] = pending
  /\ normalizeStatus [0x2705] = pending
  /\ normalizeStatus [0xD83D; 0xDD04] = pending
  /\ normalizeStatus (markSync ++ js " Working") = pending
  /\ normalizeStatus markCheck = completed.
Proof. repeat split; vm_compute; reflexivity. Qed.

(** C7: the plan status computed from the phases. *)
Theorem calculatePlanStatus_cases (phases : list PhaseData) :
  (phases = [] -> calculatePlanStatus phases = plan_pending)
  /\ (phases <> [] -> (forall p, In p phases -> status p = completed) ->
      calculatePlanStatus phases = plan_completed)
  /\ ((exists p, In p phases /\ status p <> completed) ->
      (exists q, In q phases
                 /\ (status q = completed \/ status q = in_progress)) ->
      calculatePlanStatus phases = plan_in_progress)
  /\ ((forall p, In p phases -> status p = pending) ->
      calculatePlanStatus phases = plan_pending).
Proof.
  unfold calculatePlanStatus.
  split; [intros ->; reflexivity|].
  split.
  { intros Hne Hall. destruct phases as [|p0 ps]; [congruence|].
    cbn [length Nat.eqb].
    replace (forallb _ (p0 :: ps)) with true; [reflexivity|].
    symmetry. apply forallb_forall. intros p Hp.
    apply isCompleted_true. auto. }
  split.
  { intros (p & Hp & Hnc) (q & Hq & Hst).
    destruct phases as [|p0 ps]; [destruct Hp|].
    cbn [length Nat.eqb].
    assert (Hall : forallb (fun p => isCompleted (status p)) (p0 :: ps) = false).
    { apply not_true_is_false. intros Hall.
      rewrite forallb_forall in Hall. apply Hnc, isCompleted_true. auto. }
    rewrite Hall.
    assert (Hsome : existsb (fun p => isInProgress (status p)) (p0 :: ps)
                    || existsb (fun p => isCompleted (status p)) (p0 :: ps)
                    = true).
    { apply orb_true_iff. destruct Hst as [Hst|Hst].
      - right. apply existsb_exists. exists q. split; [assumption|].
        now apply isCompleted_true.
      - left. apply existsb_exists. exists q. split; [assumption|].
        now apply isInProgress_true. }
    rewrite Hsome. reflexivity. }
  { intros Hall. destruct phases as [|p0 ps]; [reflexivity|].
    cbn [length Nat.eqb].
    assert (H1 : forallb (fun p => isCompleted (status p)) (p0 :: ps) = false).
    { cbn. rewrite (Hall p0 (or_introl eq_refl)). reflexivity. }
    rewrite H1.
    assert (H2 : existsb (fun p => isInProgress (status p)) (p0 :: ps) = false).
    { apply not_true_is_false. intros H. apply existsb_exists in H.
      destruct H as (x & Hx & Hs). rewrite (Hall x Hx) in Hs. discriminate. }
    assert (H3 : existsb (fun p => isCompleted (status p)) (p0 :: ps) = false).
    { apply not_true_is_false. intros H. apply existsb_exists in H.
      destruct H as (x & Hx & Hs). rewrite (Hall x Hx) in Hs. discriminate. }
    rewrite H2, H3. reflexivity. }
Qed.

Lemma calculatePlanStatus_cases_witness :
  calculatePlanStatus [phaseWith completed; phaseWith pending]
  = plan_in_progress.
Proof.
  apply (proj1 (proj2 (proj2
           (calculatePlanStatus_cases [phaseWith completed; phaseWith pending])))).
  - exists (phaseWith pending). split; [right; left; reflexivity|discriminate].
  - exists (phaseWith completed). split; [left; reflexivity|left; reflexivity].
Defined.

(* ===================================================================== *)
(** ** Properties of the priority normalizer *)
(* ===================================================================== *)

Lemma test_rePriority (p : jsstring) :
  test rePriority p = true
  <-> p = js "P0" \/ p = js "P1" \/ p = js "P2" \/ p = js "P3".
Proof.
  unfold test, rePriority. cbn [CatAll]. rewrite exec_anchored.
  unfold matchAt, lit, chr. eval_literals. cbn [map CatAll].
  destruct p as [|c [|d [|e t]]]; cbn -[N.eqb between].
  - split; [discriminate|]. intros [H|[H|[H|H]]]; discriminate.
  - destruct (80 =? c); cbn; (split; [discriminate|]);
      intros [H|[H|[H|H]]]; discriminate.
  - destruct (N.eqb_spec 80 c) as [<- | Hc]; cbn.
    + unfold between.
      destruct (N.leb_spec 48 d), (N.leb_spec d 51); cbn;
        (split; [try discriminate|]).
      * intros _.
        assert (Hd : d = 48 \/ d = 49 \/ d = 50 \/ d = 51) by lia.
        destruct Hd as [-> | [-> | [-> | ->]]]; auto.
      * reflexivity.
      * intros [E|[E|[E|E]]]; inversion E; lia.
      * intros [E|[E|[E|E]]]; inversion E; lia.
      * intros [E|[E|[E|E]]]; inversion E; lia.
    + split; [discriminate|].
      intros [H|[H|[H|H]]]; inversion H; congruence.
  - destruct (80 =? c); cbn; [destruct (between 48 51 d); cbn|];
      (split; [discriminate|]); intros [H|[H|[H|H]]]; discriminate.
Qed.

Lemma normalizePriority_text (text : jsstring) :
  text <> [] ->
  normalizePriority (VString text)
  = let p := trim (toUpperCase text) in
    if existsb (JS.eqb p) [js "P1"; js "HIGH"; js "CRITICAL"]
    then Some (js "P1")
    else if existsb (JS.eqb p) [js "P2"; js "MEDIUM"; js "NORMAL"]
    then Some (js "P2")
    else if existsb (JS.eqb p) [js "P3"; js "LOW"] then Some (js "P3")
    else if JS.eqb p (js "P0") then Some (js "P0")
    else None.
Proof.
  intros Hne. unfold normalizePriority. cbn [truthy stringOf].
  apply eqb_neq in Hne. rewrite Hne. cbn [negb existsb].
  set (p := trim (toUpperCase text)).
  rewrite !orb_false_r.
  destruct (JS.eqb p (js "P1")) eqn:E1; cbn [orb]; [reflexivity|].
  destruct (JS.eqb p (js "HIGH")) eqn:E1a; cbn [orb]; [reflexivity|].
  destruct (JS.eqb p (js "CRITICAL")) eqn:E1b; cbn [orb]; [reflexivity|].
  destruct (JS.eqb p (js "P2")) eqn:E2; cbn [orb]; [reflexivity|].
  destruct (JS.eqb p (js "MEDIUM")) eqn:E2a; cbn [orb]; [reflexivity|].
  destruct (JS.eqb p (js "NORMAL")) eqn:E2b; cbn [orb]; [reflexivity|].
  destruct (JS.eqb p (js "P3")) eqn:E3; cbn [orb]; [reflexivity|].
  destruct (JS.eqb p (js "LOW")) eqn:E3a; cbn [orb]; [reflexivity|].
  apply eqb_neq in E1, E2, E3.
  destruct (test rePriority p) eqn:Ht.
  - apply test_rePriority in Ht.
    destruct Ht as [Ht | [Ht | [Ht | Ht]]]; try contradiction.
    rewrite Ht. reflexivity.
  - destruct (JS.eqb p (js "P0")) eqn:E0; [|reflexivity].
    apply eqb_eq in E0.
    assert (Ht' : test rePriority p = true) by (apply test_rePriority; auto).
    congruence.
Qed.

(** C6, amended: [normalizePriority] returns [null] or one of P0, P1,
    P2, P3.  Absent and empty input give [null]; after upper-casing and
    trimming, P1, HIGH and CRITICAL give P1, P2, MEDIUM and NORMAL give
    P2, P3 and LOW give P3, the token P0 is passed through as it is, and
    every other text gives [null]. *)
Theorem normalizePriority_codomain :
  normalizePriority VUndefined = None
  /\ normalizePriority (VString []) = None
  /\ forall text : jsstring,
       text <> [] ->
       let p := trim (toUpperCase text) in
       (In p [js "P1"; js "HIGH"; js "CRITICAL"] ->
        normalizePriority (VString text) = Some (js "P1"))
       /\ (In p [js "P2"; js "MEDIUM"; js "NORMAL"] ->
           normalizePriority (VString text) = Some (js "P2"))
       /\ (In p [js "P3"; js "LOW"] ->
           normalizePriority (VString text) = Some (js "P3"))
       /\ (p = js "P0" -> normalizePriority (VString text) = Some (js "P0"))
       /\ (~ In p [js "P1"; js "HIGH"; js "CRITICAL"; js "P2"; js "MEDIUM";
                   js "NORMAL"; js "P3"; js "LOW"; js "P0"] ->
           normalizePriority (VString text) = None)
       /\ In (normalizePriority (VString text)) priorityValues.
Proof.
  split; [reflexivity|]. split; [reflexivity|].
  intros text Hne p. rewrite (normalizePriority_text text Hne).
  fold p. cbv zeta.
  assert (Hin : forall ws, existsb (JS.eqb p) ws = true <-> In p ws).
  { intros ws. rewrite existsb_exists. split.
    - intros (w & Hw & E). apply eqb_eq in E. subst. assumption.
    - intros Hp. exists p. split; [assumption|]. apply eqb_eq. reflexivity. }
  assert (Hout : forall ws, ~ In p ws -> existsb (JS.eqb p) ws = false).
  { intros ws Hp. apply not_true_is_false. rewrite Hin. assumption. }
  set (w1 := [js "P1"; js "HIGH"; js "CRITICAL"]).
  set (w2 := [js "P2"; js "MEDIUM"; js "NORMAL"]).
  set (w3 := [js "P3"; js "LOW"]).
  assert (H12 : In p w2 -> ~ In p w1).
  { subst w1 w2. eval_literals. cbn [In].
    intros [<- | [<- | [<- | []]]] [E | [E | [E | []]]]; discriminate. }
  assert (H13 : In p w3 -> ~ In p w1).
  { subst w1 w3. eval_literals. cbn [In].
    intros [<- | [<- | []]] [E | [E | [E | []]]]; discriminate. }
  assert (H23 : In p w3 -> ~ In p w2).
  { subst w2 w3. eval_literals. cbn [In].
    intros [<- | [<- | []]] [E | [E | [E | []]]]; discriminate. }
  repeat split.
  - intros Hp. apply Hin in Hp. rewrite Hp. reflexivity.
  - intros Hp. rewrite (Hout w1) by auto.
    apply Hin in Hp. rewrite Hp. reflexivity.
  - intros Hp. rewrite (Hout w1), (Hout w2) by auto.
    apply Hin in Hp. rewrite Hp. reflexivity.
  - intros E. rewrite (Hout w1), (Hout w2), (Hout w3).
    + rewrite E. reflexivity.
    + rewrite E. subst w3. eval_literals. cbn [In].
      intros [H | [H | []]]; discriminate.
    + rewrite E. subst w2. eval_literals. cbn [In].
      intros [H | [H | [H | []]]]; discriminate.
    + rewrite E. subst w1. eval_literals. cbn [In].
      intros [H | [H | [H | []]]]; discriminate.
  - intros Hp. rewrite (Hout w1), (Hout w2), (Hout w3).
    + destruct (JS.eqb p (js "P0")) eqn:E; [|reflexivity].
      apply eqb_eq in E. contradict Hp. rewrite E. cbn [In]. tauto.
    + contradict Hp. subst w3. cbn [In] in *. tauto.
    + contradict Hp. subst w2. cbn [In] in *. tauto.
    + contradict Hp. subst w1. cbn [In] in *. tauto.
  - unfold priorityValues.
    repeat match goal with
           | |- context [if ?b then _ else _] => destruct b
           end; cbn [In]; tauto.
Qed.

(** C6 as stated fails: for P0 the result is outside P1, P2, P3 and
    [null]. *)
Lemma normalizePriority_P0 :
  ~ In (normalizePriority (VString (js "P0")))
      [None; Some (js "P1"); Some (js "P2"); Some (js "P3")].
Proof. vm_compute. intros [H | [H | [H | [H | []]]]]; discriminate. Qed.

Lemma normalizePriority_codomain_witness :
  normalizePriority (VString (js " high ")) = Some (js "P1").
Proof.
  apply (proj2 (proj2 normalizePriority_codomain) (js " high ")).
  - discriminate.
  - vm_compute. right. left. reflexivity.
Defined.

(* ===================================================================== *)
(** ** Properties of the date prefix of a directory name *)
(* ===================================================================== *)

Section DateProperties.

Local Open Scope Z_scope.

(** For the years, months and days that a directory prefix can spell, the
    [Date] constructor never produces the invalid date. *)
Lemma newDate_valid (year month day : Z) :
  0 <= year <= 9999 -> -1 <= month <= 98 -> 0 <= day <= 99 ->
  JSDate.isInvalid (JSDate.newDate year month day) = false.
Proof.
  intros Hy Hm Hd. unfold JSDate.newDate, JSDate.makeDay, JSDate.daysFromCivil.
  cbv zeta.
  set (yr := if (0 <=? year) && (year <=? 99) then 1900 + year else year).
  assert (Hyr : 100 <= yr <= 9999).
  { subst yr. destruct (Z.leb_spec 0 year), (Z.leb_spec year 99); cbn; lia. }
  clearbody yr.
  set (m := month mod 12 + 1).
  assert (Hmm : 1 <= m <= 12) by (subst m; pose proof (Z.mod_pos_bound month 12); lia).
  clearbody m.
  set (q := month / 12).
  assert (Hq : -1 <= q <= 8).
  { subst q. split.
    - apply Z.div_le_lower_bound; lia.
    - enough (month / 12 < 9) by lia. apply Z.div_lt_upper_bound; lia. }
  clearbody q.
  match goal with
  | |- JSDate.isInvalid (if ?b then _ else _) = false =>
      replace b with true; [reflexivity|]
  end.
  symmetry. apply Z.leb_le.
  destruct (m <=? 2), (2 <? m); Z.to_euclidean_division_equations; lia.
Qed.

End DateProperties.

(** The first group of the directory pattern is a run of six to eight
    digits. *)
Lemma reDirDate_group (dirName : jsstring) (m : rmatched) :
  exec reDirDate dirName = Some m ->
  (6 <= length (group' 1 m) <= 8)%nat /\ allDigits (group' 1 m).
Proof.
  unfold reDirDate. cbn [CatAll]. rewrite exec_anchored. unfold matchAt.
  cbn [before after start].
  destruct (rmatch _ Some _) as [e|] eqn:E; [|discriminate].
  intros H. injection H as <-.
  apply rmatch_sound in E. destruct E as (s' & Hr & Hk). injection Hk as <-.
  change (lit "-") with (chr 45) in Hr. unfold Opt in Hr.
  apply (anchored_group_capture _ _ _
           (fun ds => (6 <= length ds <= 8)%nat /\ allDigits ds)) in Hr.
  - destruct Hr as (ds & HP & Hfind).
    unfold group', group. cbn [groups]. rewrite Hfind. exact HP.
  - intros s s1 Hg.
    inversion Hg as [| | |r1 r2 s0 s2 s3 H1 H2| | | | | | | | | | |]; subst.
    apply (reaches_Times_digit 6) in H1.
    destruct H1 as (ds1 & Ha1 & Hl1 & Hd1 & Hc1).
    apply (reaches_UpTo_digit 2) in H2.
    destruct H2 as (ds2 & Ha2 & Hl2 & Hd2 & Hc2).
    exists (ds1 ++ ds2). rewrite Ha1, Ha2, app_assoc, length_app.
    repeat split; [lia|lia|now apply Forall_app|congruence].
  - intros s s1. apply reaches_chr.
  - intros s s1 Ht. apply (reaches_Times_digit 4) in Ht.
    destruct Ht as (ds & _ & _ & _ & Hc). exact Hc.
Qed.

Lemma isDigit_value (c : N) :
  isDigit c = true -> (0 <= Z.of_N (c - 48) <= 9)%Z.
Proof.
  unfold isDigit, between. rewrite andb_true_iff, !N.leb_le. lia.
Qed.

(** X28.  C4, in general: the result is absent exactly when the directory name
    has no date prefix.  For every prefix that the pattern accepts the
    [Date] constructor yields a valid date, so that the check for an
    invalid date never rejects anything. *)
Theorem parseDateFromDirName_absent_iff (dirName : jsstring) :
  parseDateFromDirName dirName = None <-> exec reDirDate dirName = None.
Proof.
  unfold parseDateFromDirName.
  destruct (exec reDirDate dirName) as [m|] eqn:E; [|tauto].
  split; [|discriminate]. intros Hnone. exfalso. revert Hnone.
  destruct (reDirDate_group _ _ E) as [Hlen Hdig].
  set (ds := group' 1 m) in *. clearbody ds.
  assert (Hvalid : forall y mo d,
             (0 <= y <= 9999)%Z -> (-1 <= mo <= 98)%Z -> (0 <= d <= 99)%Z ->
             (if JSDate.isInvalid (JSDate.newDate y mo d) then None
              else JSDate.newDate y mo d) <> None).
  { intros y mo d Hy Hmo Hd.
    pose proof (newDate_valid y mo d Hy Hmo Hd) as Hv.
    rewrite Hv. destruct (JSDate.newDate y mo d); [discriminate|].
    discriminate Hv. }
  destruct ds as [|d1 [|d2 [|d3 [|d4 [|d5 [|d6 [|d7 [|d8 [|d9 ds]]]]]]]]];
    cbn [length] in Hlen; try lia.
  all: repeat match goal with
         | H : allDigits (_ :: _) |- _ => inversion H; clear H; subst
         | H : Forall _ (_ :: _) |- _ => inversion H; clear H; subst
         end.
  all: repeat match goal with
         | H : isDigit _ = true |- _ => apply isDigit_value in H
         end.
  all: cbn [length Nat.eqb slice firstn skipn Nat.sub parseInt fold_left].
  all: apply Hvalid; lia.
Qed.

(** C4, at the inputs where the code departs from it.  A day or month
    out of range is carried over by the [Date] constructor instead of
    being rejected: the prefix 260231 gives 3 March 2026 and 261301 gives
    1 January 2027.  The two examples of the claim hold. *)
Theorem parseDateFromDirName_overflow :
  option_map JSDate.civilFromDays (parseDateFromDirName (js "260231-x"))
  = Some (2026, 2, 3)%Z
  /\ option_map JSDate.civilFromDays (parseDateFromDirName (js "261301-x"))
     = Some (2027, 0, 1)%Z
  /\ option_map JSDate.civilFromDays
       (parseDateFromDirName (js "260102-0609-claude-kit"))
     = Some (2026, 0, 2)%Z
  /\ parseDateFromDirName (js "feature-name") = None.
Proof. repeat split; vm_compute; reflexivity. Qed.

(* ===================================================================== *)
(** ** Properties of the parser's control flow *)
(* ===================================================================== *)

Section ParserProperties.

Variable matter : jsstring -> outcome frontdata.
Variable fs : filesystem.

Lemma enrichPhase_frame (p : PhaseData) :
  let q := enrichPhase matter fs p in
  phase q = phase p /\ name q = name p /\ file q = file p
  /\ linkText q = linkText p.
Proof.
  unfold enrichPhase.
  destruct (negb (nonEmpty (file p)) || negb (includes (file p) (js "phase-")));
    [auto|].
  destruct (extractPhaseMetadata matter fs (file p)) as [[md|]|]; cbn; auto.
Qed.

Lemma enrichPhases_nil : enrichPhasesWithFileMetadata matter fs [] = [].
Proof. reflexivity. Qed.

(** C3, amended: the five strategies are tried in their fixed order; the
    result of the first one that yields a non-empty list is passed through
    the phase file enricher and returned; if every strategy yields no
    phase, the empty list is returned. *)
Theorem parsePlanTable_first_strategy (planFilePath content : jsstring)
  (mtime : Z) :
  fs planFilePath = File content mtime ->
  parsePlanTable matter fs planFilePath
  = Returned
      (enrichPhasesWithFileMetadata matter fs
         (firstNonEmpty
            (strategies content (Path.dirname planFilePath) planFilePath))).
Proof.
  intros Hfile. unfold parsePlanTable, readFile, strategies. rewrite Hfile.
  cbv zeta. cbn [firstNonEmpty].
  destruct (parseMultiColumnTable _ _ _); [|reflexivity].
  destruct (parseLinkFirstTable _ _); [|reflexivity].
  destruct (parseNumberedListWithStatus _ _); [|reflexivity].
  destruct (parseHeadingBased _ _); [|reflexivity].
  destruct (parseCheckboxList _ _ _); reflexivity.
Qed.

End ParserProperties.

Lemma parsePlanTable_first_strategy_witness :
  parsePlanTable noFrontMatter checkboxFiles (js "/plans/a/plan.md")
  = Returned
      (enrichPhasesWithFileMetadata noFrontMatter checkboxFiles
         (firstNonEmpty
            (strategies checkboxPlan (Path.dirname (js "/plans/a/plan.md"))
               (js "/plans/a/plan.md")))).
Proof.
  apply (parsePlanTable_first_strategy noFrontMatter checkboxFiles
           (js "/plans/a/plan.md") checkboxPlan 0).
  vm_compute. reflexivity.
Defined.

(** C3 as stated fails: the checkbox strategy yields phase 1 as pending,
    and the parser returns it as completed, the status found in the phase
    file. *)
Lemma parsePlanTable_returns_enriched :
  firstNonEmpty
    (strategies checkboxPlan (js "/plans/a") (js "/plans/a/plan.md"))
  = [mkPhase 1 (js "Setup") pending (js "/plans/a/phase-01.md") (js "Setup")
       VUndefined]
  /\ parsePlanTable noFrontMatter checkboxFiles (js "/plans/a/plan.md")
     = Returned [mkPhase 1 (js "Setup") completed (js "/plans/a/phase-01.md")
                   (js "Setup") VUndefined]
  /\ parsePlanTable noFrontMatter checkboxFiles (js "/plans/a/plan.md")
     <> Returned
          (firstNonEmpty
             (strategies checkboxPlan (js "/plans/a") (js "/plans/a/plan.md"))).
Proof.
  split; [vm_compute; reflexivity|].
  split; [vm_compute; reflexivity|].
  vm_compute. discriminate.
Qed.

Section EnricherProperties.

Variable matter : jsstring -> outcome frontdata.
Variable fs : filesystem.

(** What the enricher does to one phase. *)
Lemma enrichPhase_cases (p : PhaseData) :
  let q := enrichPhase matter fs p in
  (includes (file p) (js "phase-") = false -> q = p)
  /\ (extractPhaseMetadata matter fs (file p) = Thrown -> q = p)
  /\ (extractPhaseMetadata matter fs (file p) = Returned None -> q = p)
  /\ (forall md,
        includes (file p) (js "phase-") = true ->
        extractPhaseMetadata matter fs (file p) = Returned (Some md) ->
        status q = metaStatus md
        /\ effort q = if truthy (metaEffort md) then metaEffort md
                      else effort p).
Proof.
  unfold enrichPhase. cbv zeta. repeat split.
  - intros ->. rewrite orb_true_r. reflexivity.
  - intros ->. destruct (_ || _); reflexivity.
  - intros ->. destruct (_ || _); reflexivity.
  - destruct (file p) as [|c f] eqn:Hf; [discriminate|].
    rewrite H, H0. reflexivity.
  - destruct (file p) as [|c f] eqn:Hf; [discriminate|].
    rewrite H, H0. reflexivity.
Qed.

(** C5: the enricher keeps the length and the order of the list; a phase
    whose file path has no "phase-", or whose file cannot be read or holds
    no metadata, is returned unchanged; otherwise the status is the one
    extracted, the effort is the extracted one when that is truthy (a
    non-empty string) and the old one otherwise, and the number, name,
    file and link text stay.  In the scenario, phase 1 is Pending in the
    plan table and completed after enrichment from its phase file. *)
Theorem enrichPhases_pointwise (phases : list PhaseData) :
  length (enrichPhasesWithFileMetadata matter fs phases) = length phases
  /\ (forall (i : nat) (p : PhaseData),
        nth_error phases i = Some p ->
        exists q,
          nth_error (enrichPhasesWithFileMetadata matter fs phases) i = Some q
          /\ phase q = phase p /\ name q = name p /\ file q = file p
          /\ linkText q = linkText p
          /\ (includes (file p) (js "phase-") = false -> q = p)
          /\ (extractPhaseMetadata matter fs (file p) = Thrown -> q = p)
          /\ (extractPhaseMetadata matter fs (file p) = Returned None ->
              q = p)
          /\ (forall md,
                includes (file p) (js "phase-") = true ->
                extractPhaseMetadata matter fs (file p)
                = Returned (Some md) ->
                status q = metaStatus md
                /\ effort q = if truthy (metaEffort md) then metaEffort md
                              else effort p))
  /\ parseMultiColumnTable overridePlan (js "/plans/a")
       (js "/plans/a/plan.md")
     = [mkPhase 1 (js "Setup") pending (js "/plans/a/phase-01-x.md")
          (js "Phase 1") VUndefined]
  /\ parsePlanTable matter overrideFiles (js "/plans/a/plan.md")
     = Returned [mkPhase 1 (js "Setup") completed
                   (js "/plans/a/phase-01-x.md") (js "Phase 1") VUndefined].
Proof.
  split; [apply length_map|].
  split.
  { intros i p Hi. exists (enrichPhase matter fs p).
    split; [unfold enrichPhasesWithFileMetadata; now apply map_nth_error|].
    destruct (enrichPhase_frame matter fs p) as (H1 & H2 & H3 & H4).
    destruct (enrichPhase_cases p) as (H5 & H6 & H7 & H8).
    repeat split; auto; apply H8; assumption. }
  split; vm_compute; reflexivity.
Qed.

End EnricherProperties.

Lemma enrichPhases_pointwise_witness :
  exists q,
    nth_error
      (enrichPhasesWithFileMetadata noFrontMatter overrideFiles
         [mkPhase 1 (js "Setup") pending (js "/plans/a/phase-01-x.md")
            (js "Phase 1") VUndefined]) 0
    = Some q
    /\ status q = completed.
Proof.
  destruct (proj1 (proj2 (enrichPhases_pointwise noFrontMatter overrideFiles
              [mkPhase 1 (js "Setup") pending (js "/plans/a/phase-01-x.md")
                 (js "Phase 1") VUndefined]))
              0%nat _ eq_refl)
    as (q & Hq & _ & _ & _ & _ & _ & _ & _ & Hmd).
  exists q. split; [exact Hq|].
  apply (Hmd (mkMeta completed VUndefined VUndefined VUndefined VUndefined
                VUndefined VUndefined)); vm_compute; reflexivity.
Defined.

Section FailureProperties.

Variable matter : jsstring -> outcome frontdata.
Variable fs : filesystem.

Lemma parseInto_insert (results : gmap jsstring (list PhaseData))
  (file : jsstring) :
  parseInto matter fs results file
  = <[file := recorded matter fs file]> results.
Proof.
  unfold parseInto, recorded.
  destruct (parsePlanTable matter fs file); reflexivity.
Qed.

Lemma parsePlans_lookup (planFiles : list jsstring)
  (results : gmap jsstring (list PhaseData)) (file : jsstring) :
  fold_left (parseInto matter fs) planFiles results !! file
  = if existsb (JS.eqb file) planFiles then Some (recorded matter fs file)
    else results !! file.
Proof.
  revert results. induction planFiles as [|f fs' IH]; intros results.
  - reflexivity.
  - cbn [fold_left existsb]. rewrite IH, parseInto_insert.
    destruct (existsb (JS.eqb file) fs'); [now rewrite orb_true_r|].
    rewrite orb_false_r.
    destruct (JS.eqb file f) eqn:E.
    + apply eqb_eq in E. subst f. apply lookup_insert_eq.
    + apply eqb_neq in E. apply lookup_insert_ne. congruence.
Qed.

Lemma existsb_eqb_In (file : jsstring) (planFiles : list jsstring) :
  existsb (JS.eqb file) planFiles = true <-> In file planFiles.
Proof.
  rewrite existsb_exists. split.
  - intros (f & Hf & E). apply eqb_eq in E. now subst.
  - intros Hin. exists file. split; [assumption|]. now apply eqb_eq.
Qed.

(** C9: parsing one plan throws exactly when the read of the plan file
    itself fails; an unreadable phase file leaves its phase as it is, and
    a YAML block that does not parse counts as no front matter; the batch
    [parsePlans] always returns a map, which holds for every listed file
    the phases parsed from it, or the empty list when its parse threw, and
    nothing for other paths. *)
Theorem parse_failures_contained :
  (forall planFilePath,
     parsePlanTable matter fs planFilePath = Thrown
     <-> readFile fs planFilePath = Thrown)
  /\ (forall p, readFile fs (file p) = Thrown -> enrichPhase matter fs p = p)
  /\ (forall content,
        matter content = Thrown ->
        PhaseMetadataExtractor.extractFromFrontmatter matter content = None
        /\ MetadataExtractor.extractFromFrontmatter matter content = None)
  /\ (forall planFiles file,
        In file planFiles ->
        parsePlans matter fs planFiles !! file
        = Some (match parsePlanTable matter fs file with
                | Returned phases => phases
                | Thrown => []
                end))
  /\ (forall planFiles file,
        ~ In file planFiles -> parsePlans matter fs planFiles !! file = None).
Proof.
  split.
  { intros planFilePath. unfold parsePlanTable.
    destruct (readFile fs planFilePath) as [content|]; [|tauto].
    cbv zeta.
    repeat match goal with
           | |- context [if ?b then _ else _] => destruct b
           end; split; discriminate. }
  split.
  { intros p Hread. unfold enrichPhase.
    destruct (_ || _); [reflexivity|].
    unfold extractPhaseMetadata, access. unfold readFile in *.
    destruct (fs (file p)); cbn; try reflexivity; discriminate. }
  split.
  { intros content Hthrow.
    unfold PhaseMetadataExtractor.extractFromFrontmatter,
      MetadataExtractor.extractFromFrontmatter.
    rewrite Hthrow. split.
    - destruct (negb _); reflexivity.
    - destruct (_ || _); reflexivity. }
  split.
  { intros planFiles file Hin. unfold parsePlans.
    rewrite parsePlans_lookup.
    rewrite (proj2 (existsb_eqb_In file planFiles) Hin). reflexivity. }
  { intros planFiles file Hout. unfold parsePlans.
    rewrite parsePlans_lookup.
    destruct (existsb (JS.eqb file) planFiles) eqn:E.
    - apply existsb_eqb_In in E. contradiction.
    - apply lookup_empty. }
Qed.

End FailureProperties.

(** A plan directory with one readable plan; the other path is missing. *)
Lemma parse_failures_contained_witness :
  parsePlans noFrontMatter checkboxFiles
    [js "/plans/missing/plan.md"; js "/plans/a/plan.md"]
    !! js "/plans/missing/plan.md" = Some []
  /\ parsePlans noFrontMatter checkboxFiles
       [js "/plans/missing/plan.md"; js "/plans/a/plan.md"]
       !! js "/plans/a/plan.md"
     = Some [mkPhase 1 (js "Setup") completed (js "/plans/a/phase-01.md")
               (js "Setup") VUndefined].
Proof.
  pose proof (proj1 (proj2 (proj2 (proj2
    (parse_failures_contained noFrontMatter checkboxFiles))))) as H.
  split.
  - rewrite (H _ (js "/plans/missing/plan.md")) by (left; reflexivity).
    vm_compute. reflexivity.
  - rewrite (H _ (js "/plans/a/plan.md")) by (right; left; reflexivity).
    vm_compute. reflexivity.
Defined.

(* ===================================================================== *)
(** ** Properties of the heading strategy *)
(* ===================================================================== *)

Section HeadingProperties.

Variable planFilePath : jsstring.

Lemma headingLoop_nil phases currentPhase :
  headingLoop planFilePath [] phases currentPhase
  = phases ++ pushed currentPhase.
Proof. destruct currentPhase; cbn; [reflexivity|now rewrite app_nil_r]. Qed.

Lemma headingLoop_heading line lines phases currentPhase headingMatch :
  exec reHeading line = Some headingMatch ->
  headingLoop planFilePath (line :: lines) phases currentPhase
  = headingLoop planFilePath lines (phases ++ pushed currentPhase)
      (Some (applyStatusLine line (openedPhase planFilePath headingMatch))).
Proof.
  intros H. cbn [headingLoop]. rewrite H. cbn [option_map].
  destruct currentPhase; cbn [pushed]; [reflexivity|].
  now rewrite app_nil_r.
Qed.

Lemma headingLoop_other line lines phases currentPhase :
  exec reHeading line = None ->
  headingLoop planFilePath (line :: lines) phases currentPhase
  = headingLoop planFilePath lines phases
      (option_map (applyStatusLine line) currentPhase).
Proof. intros H. cbn [headingLoop]. rewrite H. reflexivity. Qed.

(** The phases pushed so far are a prefix of the result. *)
Lemma headingLoop_acc lines phases0 phases currentPhase :
  headingLoop planFilePath lines (phases0 ++ phases) currentPhase
  = phases0 ++ headingLoop planFilePath lines phases currentPhase.
Proof.
  revert phases currentPhase.
  induction lines as [|line lines IH]; intros phases currentPhase.
  - rewrite !headingLoop_nil. now rewrite app_assoc.
  - destruct (exec reHeading line) as [hm|] eqn:H.
    + rewrite !(headingLoop_heading _ _ _ _ hm H).
      rewrite <- app_assoc. apply IH.
    + rewrite !(headingLoop_other _ _ _ _ H). apply IH.
Qed.

(** Lines before the first heading leave no trace. *)
Lemma headingLoop_preamble pre lines :
  Forall (fun l => exec reHeading l = None) pre ->
  headingLoop planFilePath (pre ++ lines) [] None
  = headingLoop planFilePath lines [] None.
Proof.
  induction 1 as [|l pre Hl _ IH]; [reflexivity|].
  cbn [app]. rewrite (headingLoop_other _ _ _ _ Hl). exact IH.
Qed.

(** The lines of a phase up to the next heading. *)
Lemma headingLoop_body body lines phases current :
  Forall (fun l => exec reHeading l = None) body ->
  headingLoop planFilePath (body ++ lines) phases (Some current)
  = headingLoop planFilePath lines phases
      (Some (fold_left (fun c l => applyStatusLine l c) body current)).
Proof.
  intros Hbody. revert current.
  induction Hbody as [|l body Hl _ IH]; intros current; [reflexivity|].
  cbn [app fold_left]. rewrite (headingLoop_other _ _ _ _ Hl). apply IH.
Qed.

(** At the end of the document or at the next heading the phase being
    built is pushed. *)
Lemma headingLoop_close lines phases current :
  match lines with
  | [] => True
  | l :: _ => exec reHeading l <> None
  end ->
  headingLoop planFilePath lines phases (Some current)
  = phases ++ [current] ++ headingLoop planFilePath lines [] None.
Proof.
  destruct lines as [|l lines]; intros H.
  - rewrite !headingLoop_nil. reflexivity.
  - destruct (exec reHeading l) as [hm|] eqn:E; [|contradiction].
    rewrite !(headingLoop_heading _ _ _ _ hm E). cbn [pushed].
    rewrite <- (app_nil_r (phases ++ [current])) at 1.
    rewrite headingLoop_acc, <- app_assoc. reflexivity.
Qed.

Lemma applyStatusLine_match line statusMatch p :
  exec reStatusLine line = Some statusMatch ->
  applyStatusLine line p = withStatus (normalizeStatus (group' 1 statusMatch)) p.
Proof. intros H. unfold applyStatusLine. now rewrite H. Qed.

Lemma applyStatusLine_none line p :
  exec reStatusLine line = None -> applyStatusLine line p = p.
Proof. intros H. unfold applyStatusLine. now rewrite H. Qed.

Lemma applyStatusLine_frame line p :
  exists st, applyStatusLine line p = withStatus st p.
Proof.
  unfold applyStatusLine. destruct (exec reStatusLine line) as [m|].
  - eexists. reflexivity.
  - exists (status p). destruct p; reflexivity.
Qed.

Lemma fold_status_frame body p :
  exists st,
    fold_left (fun c l => applyStatusLine l c) body p = withStatus st p.
Proof.
  revert p. induction body as [|l body IH]; intros p.
  - exists (status p). destruct p; reflexivity.
  - cbn [fold_left]. destruct (applyStatusLine_frame l p) as [st ->].
    destruct (IH (withStatus st p)) as [st' ->]. exists st'. reflexivity.
Qed.

Lemma fold_status_quiet body p :
  Forall (fun l => exec reStatusLine l = None) body ->
  fold_left (fun c l => applyStatusLine l c) body p = p.
Proof.
  intros H. revert p. induction H as [|l body Hl _ IH]; intros p;
    [reflexivity|].
  cbn [fold_left]. rewrite (applyStatusLine_none _ _ Hl). apply IH.
Qed.

(** The last status line of a phase decides. *)
Lemma fold_status_last body1 line body2 statusMatch p :
  exec reStatusLine line = Some statusMatch ->
  Forall (fun l => exec reStatusLine l = None) body2 ->
  fold_left (fun c l => applyStatusLine l c) (body1 ++ line :: body2) p
  = withStatus (normalizeStatus (group' 1 statusMatch)) p.
Proof.
  intros Hline Hquiet. rewrite fold_left_app. cbn [fold_left].
  rewrite (fold_status_quiet _ _ Hquiet).
  rewrite (applyStatusLine_match _ _ _ Hline).
  destruct (fold_status_frame body1 p) as [st ->]. reflexivity.
Qed.

End HeadingProperties.

(** The lines read so far matter only through the phases pushed and the
    phase being built. *)
Lemma headingLoop_prefix (planFilePath : jsstring) (pre : list jsstring)
  (phases : list PhaseData) (currentPhase : option PhaseData) :
  exists phases' current',
    forall lines,
      headingLoop planFilePath (pre ++ lines) phases currentPhase
      = headingLoop planFilePath lines phases' current'.
Proof.
  revert phases currentPhase.
  induction pre as [|l pre IH]; intros phases currentPhase.
  - exists phases, currentPhase. reflexivity.
  - destruct (exec reHeading l) as [m|] eqn:E.
    + destruct (IH (phases ++ pushed currentPhase)
                  (Some (applyStatusLine l (openedPhase planFilePath m))))
        as (phases' & current' & H).
      exists phases', current'. intros lines. cbn [app].
      rewrite (headingLoop_heading _ _ _ _ _ m E). apply H.
    + destruct (IH phases (option_map (applyStatusLine l) currentPhase))
        as (phases' & current' & H).
      exists phases', current'. intros lines. cbn [app].
      rewrite (headingLoop_other _ _ _ _ _ E). apply H.
Qed.

(** C10: in the heading strategy the last status line of a phase decides
    its status, and the lines before the first heading are ignored.  The
    document has the lines [pre], then a phase heading [h], then lines
    without a phase heading among which [s1] and later [s2] are status
    lines and no status line follows [s2], then [rest], which is empty or
    starts with the next phase heading. *)
Theorem parseHeadingBased_last_status (planFilePath : jsstring) :
  (forall content pre h body1 s1 body2 s2 body3 rest headingMatch
          statusMatch,
     split 10 content
     = pre ++ h :: (body1 ++ s1 :: body2 ++ s2 :: body3) ++ rest ->
     exec reHeading h = Some headingMatch ->
     Forall (fun l => exec reHeading l = None)
       (body1 ++ s1 :: body2 ++ s2 :: body3) ->
     match rest with
     | [] => True
     | l :: _ => exec reHeading l <> None
     end ->
     exec reStatusLine s1 <> None ->
     exec reStatusLine s2 = Some statusMatch ->
     Forall (fun l => exec reStatusLine l = None) body3 ->
     parseHeadingBased content planFilePath
     = headingLoop planFilePath pre [] None
       ++ [mkPhase (parseInt (group' 1 headingMatch))
             (trim (group' 2 headingMatch))
             (normalizeStatus (group' 1 statusMatch)) planFilePath
             (js "Phase "
              ++ numberToString (parseInt (group' 1 headingMatch)))
             VUndefined]
       ++ headingLoop planFilePath rest [] None)
  /\ (forall pre doc,
        Forall (fun l => ~ In 10 l) pre ->
        Forall (fun l => exec reHeading l = None) pre ->
        parseHeadingBased (text pre ++ doc) planFilePath
        = parseHeadingBased doc planFilePath).
Proof.
  split.
  - intros content pre h body1 s1 body2 s2 body3 rest hm sm
      Hsplit Hh Hbody Hrest _ Hs2 Hquiet.
    unfold parseHeadingBased. rewrite Hsplit.
    set (body := body1 ++ s1 :: body2 ++ s2 :: body3) in *.
    destruct (headingLoop_prefix planFilePath pre [] None)
      as (phases & current & Hpre).
    rewrite Hpre.
    rewrite <- (app_nil_r pre) at 1. rewrite Hpre, headingLoop_nil.
    rewrite (headingLoop_heading _ _ _ _ _ hm Hh).
    rewrite (headingLoop_body _ _ _ _ _ Hbody).
    rewrite (headingLoop_close _ _ _ _ Hrest).
    rewrite <- !app_assoc. do 2 f_equal. cbn [app]. f_equal.
    subst body.
    change (body1 ++ s1 :: body2 ++ s2 :: body3)
      with (body1 ++ (s1 :: body2) ++ s2 :: body3).
    rewrite app_assoc.
    rewrite (fold_status_last _ _ _ _ _ Hs2 Hquiet).
    destruct (applyStatusLine_frame h (openedPhase planFilePath hm))
      as [st ->].
    reflexivity.
  - intros pre doc Hlines Hquiet. unfold parseHeadingBased.
    rewrite (split_text pre doc Hlines).
    apply headingLoop_preamble. assumption.
Qed.

Lemma parseHeadingBased_last_status_witness :
  parseHeadingBased headingPlan (js "/plans/a/plan.md")
  = [mkPhase 1 (js "Setup") in_progress (js "/plans/a/plan.md")
       (js "Phase 1") VUndefined;
     mkPhase 2 (js "Build") pending (js "/plans/a/plan.md")
       (js "Phase 2") VUndefined].
Proof.
  erewrite (proj1 (parseHeadingBased_last_status (js "/plans/a/plan.md"))
              headingPlan [js "# Plan"; js "- Status: done"]
              (js "### Phase 1: Setup") [] (js "- Status: done")
              [js "notes"] (js "- Status: wip") []
              [js "### Phase 2: Build"; []]); cycle 1.
  - vm_compute. reflexivity.
  - vm_compute. reflexivity.
  - repeat constructor; vm_compute; reflexivity.
  - vm_compute. discriminate.
  - vm_compute. discriminate.
  - vm_compute. reflexivity.
  - constructor.
  - vm_compute. reflexivity.
Defined.

(* ===================================================================== *)
(** ** Properties of the table scan *)
(* ===================================================================== *)

Section ScanProperties.

Variables (lines : list jsstring) (dir planFilePath : jsstring).

(** Every turn of the table scan moves forward, so the number of lines
    left bounds the turns of the loop. *)
Lemma scanTables_fuel :
  forall fuel1 fuel2 scanStartLine,
    (length lines - scanStartLine <= fuel1)%nat ->
    (length lines - scanStartLine <= fuel2)%nat ->
    scanTables fuel1 lines scanStartLine dir planFilePath
    = scanTables fuel2 lines scanStartLine dir planFilePath.
Proof.
  assert (Hend : forall fuel scanStartLine,
             (length lines <= scanStartLine)%nat ->
             scanTables fuel lines scanStartLine dir planFilePath = []).
  { intros [|fuel] scanStartLine Hle; cbn [scanTables]; [reflexivity|].
    destruct (Nat.ltb_spec scanStartLine (length lines)); [lia|reflexivity]. }
  induction fuel1 as [|fuel1 IH]; intros fuel2 scanStartLine H1 H2.
  - rewrite !Hend by lia. reflexivity.
  - destruct fuel2 as [|fuel2]; [rewrite !Hend by lia; reflexivity|].
    cbn [scanTables].
    destruct (Nat.ltb_spec scanStartLine (length lines)); [|reflexivity].
    cbn [negb].
    destruct (parseTableStartingFrom lines scanStartLine dir planFilePath)
      as [phases nextScanLine].
    destruct (0 <? length phases)%nat; [reflexivity|].
    destruct (Nat.leb_spec nextScanLine scanStartLine); [reflexivity|].
    apply IH; lia.
Qed.

(** The loop of [parseMultiColumnTable], one turn at a time. *)
Theorem scanTables_unfold (scanStartLine : nat) :
  scanTables (length lines - scanStartLine) lines scanStartLine dir
    planFilePath
  = if negb (scanStartLine <? length lines)%nat then []
    else
      let '(phases, nextScanLine) :=
        parseTableStartingFrom lines scanStartLine dir planFilePath in
      if (0 <? length phases)%nat then phases
      else if (nextScanLine <=? scanStartLine)%nat then []
      else scanTables (length lines - nextScanLine) lines nextScanLine dir
             planFilePath.
Proof.
  destruct (Nat.ltb_spec scanStartLine (length lines)) as [Hlt|Hge].
  - destruct (length lines - scanStartLine)%nat as [|fuel] eqn:E; [lia|].
    cbn [scanTables negb].
    destruct (Nat.ltb_spec scanStartLine (length lines)); [|lia].
    cbn [negb].
    destruct (parseTableStartingFrom lines scanStartLine dir planFilePath)
      as [phases nextScanLine].
    destruct (0 <? length phases)%nat; [reflexivity|].
    destruct (Nat.leb_spec nextScanLine scanStartLine); [reflexivity|].
    apply scanTables_fuel; lia.
  - replace (length lines - scanStartLine)%nat with 0%nat by lia.
    reflexivity.
Qed.

End ScanProperties.

Lemma headerOf_index (i : nat) (cols : list jsstring) (h : header) :
  headerOf i cols = Some h -> headerIndex h = i.
Proof.
  unfold headerOf. destruct (findIndex _ cols); [|discriminate].
  destruct (findIndex _ cols), (findIndex _ cols);
    intros H; injection H as <-; reflexivity.
Qed.

Lemma findHeader_index (lines : list jsstring) (i : nat) (h : header) :
  findHeader lines i = Some h -> (i <= headerIndex h)%nat.
Proof.
  revert i. induction lines as [|line lines IH]; intros i; [discriminate|].
  cbn [findHeader]. destruct (negb (hasPipe line)).
  - intros H. apply IH in H. lia.
  - destruct (headerOf i (headerCols line)) as [h'|] eqn:E.
    + intros H. injection H as ->. apply headerOf_index in E. lia.
    + intros H. apply IH in H. lia.
Qed.

Lemma skipTable_index (rows : list jsstring) (i : nat) :
  (i <= skipTable rows i)%nat.
Proof.
  revert i. induction rows as [|line rows IH]; intros i; cbn; [lia|].
  destruct (hasPipe line); [|lia]. specialize (IH (S i)). lia.
Qed.

(* ===================================================================== *)
(** ** Documents with a rejected table *)
(* ===================================================================== *)

(** A literal unit that does not occur in the text still to read cannot
    be matched. *)
Lemma rmatch_chr_absent (ch : N) (k : mstate -> option mstate) (s : mstate) :
  ~ In ch (after s) -> rmatch (chr ch) k s = None.
Proof.
  destruct s as [b a cs]. intros Hs. unfold chr. cbn [rmatch after] in *.
  destruct a as [|c t]; [reflexivity|].
  destruct (N.eqb_spec ch c) as [<-|_]; [|reflexivity].
  exfalso. apply Hs. now left.
Qed.

(** Blanks before a unit that does not occur do not help. *)
Lemma greedyLoop_space_absent (ch : N) (k : mstate -> option mstate) :
  (forall s, ~ In ch (after s) -> k s = None) ->
  forall fuel s,
    ~ In ch (after s) -> greedyLoop (rmatch space) k fuel s = None.
Proof.
  intros Hk. induction fuel as [|fuel IH]; intros s Hs; cbn [greedyLoop].
  - now apply Hk.
  - match goal with
    | |- match ?inner with _ => _ end = None =>
        assert (Hinner : inner = None); [|rewrite Hinner; now apply Hk]
    end.
    destruct s as [b a cs]. unfold space. cbn [rmatch after] in *.
    destruct a as [|c t]; [reflexivity|].
    destruct (isWhiteSpace c); [|reflexivity].
    destruct (_ <? _)%nat; [|reflexivity].
    apply IH. unfold advance. cbn [after skipn].
    intros H. apply Hs. now right.
Qed.

(** Without an opening bracket in the text still to read, the pattern of
    the link-first rows does not match. *)
Lemma matchAt_linkFirst_none (s : mstate) :
  ~ In 91 (after s) -> matchAt reLinkFirst s = None.
Proof.
  destruct s as [b a cs]. intros Hs. unfold matchAt, reLinkFirst.
  cbn [CatAll].
  change (lit "|") with (chr 124) at 1. change (lit "[") with (chr 91).
  cbn [rmatch after before]. unfold chr at 1. cbn [rmatch after].
  destruct a as [|c t]; [reflexivity|].
  destruct (124 =? c); [|reflexivity].
  rewrite (greedyLoop_space_absent 91); [reflexivity| |].
  - intros s. apply rmatch_chr_absent.
  - unfold advance. cbn [after skipn]. intros H. apply Hs. now right.
Qed.

Lemma searchFrom_linkFirst_none :
  forall fuel s,
    ~ In 91 (after s) -> searchFrom false reLinkFirst fuel s = None.
Proof.
  induction fuel as [|fuel IH]; intros s Hs; cbn [searchFrom];
    rewrite (matchAt_linkFirst_none s Hs); [reflexivity|].
  destruct (codePointAt (after s)) as [[cp n]|]; [|reflexivity].
  apply IH. destruct s as [b a cs]. unfold advance. cbn [after] in *.
  destruct a as [|c t]; [exact Hs|].
  cbn [skipn]. intros H. apply Hs. now right.
Qed.

(** A document without an opening bracket has no link-first rows. *)
Lemma parseLinkFirstTable_no_bracket (content dir : jsstring) :
  ~ In 91 content -> parseLinkFirstTable content dir = [].
Proof.
  intros H. unfold parseLinkFirstTable, matchAll. cbn [matchesFrom].
  rewrite searchFrom_linkFirst_none by exact H. reflexivity.
Qed.

(** One step of the search: where no match starts, the search moves on by
    one code point, or by one code unit without the [u] flag. *)
Lemma searchAt_step (unicode : bool) (r : regex) (s : mstate) (cp : N)
  (n : nat) :
  matchAt r s = None ->
  codePointAt (after s) = Some (cp, n) ->
  searchAt unicode r s
  = searchAt unicode r (advance (if unicode then n else 1%nat) s).
Proof.
  intros Hm Hcp. unfold searchAt.
  pose proof (codePointAt_length _ _ _ Hcp) as Hn.
  fold (remaining s) in Hn.
  destruct (remaining s) as [|fuel] eqn:E; [lia|].
  cbn [searchFrom]. rewrite Hm, Hcp.
  apply searchFrom_fuel; [|lia].
  assert (Hadv : forall m, (1 <= m <= remaining s)%nat ->
                   (remaining (advance m s) <= fuel)%nat).
  { intros m Hmm. pose proof (advance_progress m s Hmm). lia. }
  apply Hadv. destruct unicode; lia.
Qed.

(** The numbered-list pattern starts only at the start of a line. *)
Lemma matchAt_numbered_midline (s : mstate) (c : N) (b : jsstring) :
  before s = c :: b -> isLineTerminator c = false ->
  matchAt reNumbered s = None.
Proof.
  destruct s as [b0 a cs]. cbn [before]. intros -> Hc.
  unfold matchAt, reNumbered. cbn [CatAll before after].
  cbn [rmatch before andb]. rewrite Hc. reflexivity.
Qed.

(** The numbered-list pattern starts only at a digit. *)
Lemma matchAt_numbered_nodigit (s : mstate) :
  match after s with
  | [] => True
  | c :: _ => isDigit c = false
  end ->
  matchAt reNumbered s = None.
Proof.
  destruct s as [b a cs]. cbn [after]. intros Ha.
  assert (Hpoint : match codePointAt a with
                   | Some (cp, _) => isDigit cp = false
                   | None => True
                   end).
  { destruct a as [|c [|d t]]; cbn [codePointAt]; [exact I|exact Ha|].
    destruct (isHigh c && isLow d); [|exact Ha].
    unfold isDigit, between. apply andb_false_iff. right.
    apply N.leb_gt. lia. }
  unfold matchAt, reNumbered. cbn [CatAll before after].
  unfold Plus at 1. cbn [rmatch before after].
  destruct (codePointAt a) as [[cp n]|].
  - rewrite Hpoint.
    destruct b as [|c0 b0]; [|destruct (true && isLineTerminator c0)];
      reflexivity.
  - destruct b as [|c0 b0]; [|destruct (true && isLineTerminator c0)];
      reflexivity.
Qed.

(** The code point at the head of a text is one unit, or two units of
    which the second is a low surrogate. *)
Lemma codePointAt_cases (c : N) (t : jsstring) :
  (exists cp, codePointAt (c :: t) = Some (cp, 1%nat))
  \/ (exists cp d t', t = d :: t' /\ isLow d = true
                      /\ codePointAt (c :: t) = Some (cp, 2%nat)).
Proof.
  cbn [codePointAt]. destruct t as [|d t']; [left; eauto|].
  destruct (isHigh c); cbn [andb]; [|left; eauto].
  destruct (isLow d) eqn:E; [right; eauto 6|left; eauto].
Qed.

(** A line feed is a code point of its own. *)
Lemma codePointAt_feed (rest : jsstring) :
  codePointAt (10 :: rest) = Some (10, 1%nat).
Proof. destruct rest; reflexivity. Qed.

Lemma isLow_not_terminator (d : N) :
  isLow d = true -> isLineTerminator d = false.
Proof.
  unfold isLow, between, isLineTerminator.
  intros H. apply andb_true_iff in H as [H _]. apply N.leb_le in H.
  repeat (apply orb_false_iff; split); apply N.eqb_neq; lia.
Qed.

(** Inside a line, the search for the numbered-list pattern runs on to the
    end of the line. *)
Lemma searchAt_numbered_midline (rest : jsstring) (cs : list (nat * jsstring)) :
  forall n l c b,
    (length l <= n)%nat ->
    Forall (fun c => isLineTerminator c = false) (c :: l) ->
    searchAt true reNumbered (MState (c :: b) (l ++ 10 :: rest) cs)
    = searchAt true reNumbered (MState (10 :: rev l ++ c :: b) rest cs).
Proof.
  induction n as [|n IH]; intros l c b Hlen Hl;
    inversion Hl as [|? ? Hc Hl']; subst.
  - destruct l; [|cbn in Hlen; lia]. cbn [app rev].
    erewrite searchAt_step;
      [|eapply matchAt_numbered_midline; [reflexivity|exact Hc]
       |apply codePointAt_feed].
    reflexivity.
  - destruct l as [|x l].
    { apply (IH [] c b); [cbn; lia|exact Hl]. }
    inversion Hl' as [|? ? Hx Hl'']; subst.
    destruct (codePointAt_cases x (l ++ 10 :: rest))
      as [[cp E]|[cp [d [t' [Ht [Hd E]]]]]].
    + erewrite searchAt_step;
        [|eapply matchAt_numbered_midline; [reflexivity|exact Hc]|exact E].
      change (advance _ _) with (MState (x :: c :: b) (l ++ 10 :: rest) cs).
      rewrite IH; [|cbn in Hlen; lia|constructor; assumption].
      cbn [rev]. rewrite <- app_assoc. reflexivity.
    + destruct l as [|d' l]; cbn [app] in Ht.
      { injection Ht as <- _. discriminate Hd. }
      injection Ht as <- <-.
      erewrite searchAt_step;
        [|eapply matchAt_numbered_midline; [reflexivity|exact Hc]|exact E].
      change (advance _ _)
        with (MState (d' :: x :: c :: b) (l ++ 10 :: rest) cs).
      inversion Hl'' as [|? ? Hd' Hl3]; subst.
      rewrite IH; [|cbn in Hlen; lia|constructor; assumption].
      cbn [rev]. rewrite <- !app_assoc. reflexivity.
Qed.

(** From the start of a quiet line, the search for the numbered-list
    pattern runs on to the start of the next line. *)
Lemma searchAt_numbered_quiet_line (l b rest : jsstring)
  (cs : list (nat * jsstring)) :
  quietLine l ->
  searchAt true reNumbered (MState b (l ++ 10 :: rest) cs)
  = searchAt true reNumbered (MState (10 :: rev l ++ b) rest cs).
Proof.
  intros [Hl Hd]. destruct l as [|x l].
  - cbn [app rev].
    erewrite searchAt_step;
      [|apply matchAt_numbered_nodigit; reflexivity|apply codePointAt_feed].
    reflexivity.
  - inversion Hl as [|? ? Hx Hl']; subst.
    destruct (codePointAt_cases x (l ++ 10 :: rest))
      as [[cp E]|[cp [d [t' [Ht [Hd' E]]]]]].
    + erewrite searchAt_step;
        [|apply matchAt_numbered_nodigit; exact Hd|exact E].
      change (advance _ _) with (MState (x :: b) (l ++ 10 :: rest) cs).
      rewrite (searchAt_numbered_midline rest cs (length l));
        [|lia|constructor; assumption].
      cbn [rev]. rewrite <- app_assoc. reflexivity.
    + destruct l as [|d' l]; cbn [app] in Ht.
      { injection Ht as <- _. discriminate Hd'. }
      injection Ht as <- <-.
      erewrite searchAt_step;
        [|apply matchAt_numbered_nodigit; exact Hd|exact E].
      change (advance _ _) with (MState (d' :: x :: b) (l ++ 10 :: rest) cs).
      inversion Hl' as [|? ? Hd2 Hl3]; subst.
      rewrite (searchAt_numbered_midline rest cs (length l));
        [|lia|constructor; assumption].
      cbn [rev]. rewrite <- !app_assoc. reflexivity.
Qed.

(** The search runs over any number of quiet lines. *)
Lemma searchAt_numbered_quiet_lines (rest : jsstring)
  (cs : list (nat * jsstring)) :
  forall ls b,
    Forall quietLine ls ->
    searchAt true reNumbered (MState b (text ls ++ rest) cs)
    = searchAt true reNumbered (MState (rev (text ls) ++ b) rest cs).
Proof.
  induction ls as [|l ls IH]; intros b Hls; [reflexivity|].
  inversion Hls as [|? ? Hl Hls']; subst.
  unfold text. cbn [flat_map]. fold (text ls).
  rewrite <- !app_assoc. cbn [app].
  rewrite searchAt_numbered_quiet_line by exact Hl.
  rewrite IH by exact Hls'.
  rewrite !rev_app_distr. cbn [rev app]. rewrite <- !app_assoc.
  reflexivity.
Qed.

Lemma text_app (ls1 ls2 : list jsstring) :
  text (ls1 ++ ls2) = text ls1 ++ text ls2.
Proof. apply flat_map_app. Qed.

(** A text of lines ends with a line feed. *)
Lemma text_rev (ls : list jsstring) :
  ls = [] \/ exists b, rev (text ls) = 10 :: b.
Proof.
  destruct ls as [|l0 ls0] using rev_ind; [left; reflexivity|right].
  rewrite text_app. unfold text at 2. cbn [flat_map].
  rewrite !rev_app_distr. cbn [rev app]. eauto.
Qed.

(** The numbered line of the scenario after quiet lines: the numbered-list
    strategy finds that line and nothing else. *)
Lemma parseNumberedListWithStatus_after_quiet (ls : list jsstring)
  (planFilePath : jsstring) :
  Forall quietLine ls ->
  parseNumberedListWithStatus (text (ls ++ [schemaLine])) planFilePath
  = [mkPhase 1 (js "Database Schema") completed planFilePath
       (js "Database Schema") VUndefined].
Proof.
  intros Hls. unfold parseNumberedListWithStatus, matchAllU.
  rewrite text_app.
  set (content := text ls ++ text [schemaLine]).
  change (S (length content)) with (S (remaining (start content))).
  rewrite matchesFrom_unfold.
  fold (searchAt true reNumbered (start content)).
  unfold start at 1, content at 1.
  rewrite (searchAt_numbered_quiet_lines _ _ ls []) by exact Hls.
  assert (Hlen : (remaining (start content) = length (text ls) + 62)%nat).
  { unfold content, start, remaining. cbn [after].
    rewrite length_app. reflexivity. }
  rewrite Hlen. rewrite app_nil_r.
  destruct (text_rev ls) as [->|[b ->]].
  - vm_compute. reflexivity.
  - destruct (searchAt true reNumbered _) as [m|] eqn:E;
      vm_compute in E; [|discriminate E].
    injection E as <-. cbn [rest after remaining length].
    replace (_ <? _)%nat with true by (symmetry; apply Nat.ltb_lt; lia).
    vm_compute. reflexivity.
Qed.

Lemma findHeader_prose (rest : list jsstring) :
  forall ls i,
    Forall (fun l => hasPipe l = false) ls ->
    findHeader (ls ++ rest) i = findHeader rest (length ls + i).
Proof.
  induction ls as [|l ls IH]; intros i Hls; [reflexivity|].
  inversion Hls as [|? ? Hl Hls']; subst.
  cbn [app findHeader length]. rewrite Hl. cbn [negb].
  rewrite IH by exact Hls'. f_equal. lia.
Qed.

Lemma findHeader_none :
  forall ls i,
    Forall (fun l => hasPipe l = false) ls -> findHeader ls i = None.
Proof.
  intros ls i Hls. rewrite <- (app_nil_r ls).
  rewrite findHeader_prose by exact Hls. reflexivity.
Qed.

Lemma skipTable_rows (rest : list jsstring) :
  match rest with [] => True | l :: _ => hasPipe l = false end ->
  forall rows i,
    Forall (fun l => hasPipe l = true) rows ->
    skipTable (rows ++ rest) i = (length rows + i)%nat.
Proof.
  intros Hrest. induction rows as [|l rows IH]; intros i Hrows.
  - cbn [app length]. destruct rest as [|l rest]; [reflexivity|].
    cbn [skipTable]. rewrite Hrest. reflexivity.
  - inversion Hrows as [|? ? Hl Hrows']; subst.
    cbn [app skipTable length]. rewrite Hl, IH by exact Hrows'. lia.
Qed.

(** A header with a status column and none of the three other columns:
    no phase, and the scan goes on after the rows of the table. *)
Lemma parseTableStartingFrom_rejected (lines : list jsstring)
  (startLine : nat) (dir planFilePath : jsstring) (h : header) :
  findHeader (skipn startLine lines) startLine = Some h ->
  phaseColIndex h = None -> nameColIndex h = None -> descColIndex h = None ->
  parseTableStartingFrom lines startLine dir planFilePath
  = ([], skipTable (skipn (S (headerIndex h)) lines) (S (headerIndex h))).
Proof.
  intros Hh Hp Hn Hd. unfold parseTableStartingFrom.
  rewrite Hh, Hp, Hn, Hd. reflexivity.
Qed.

Lemma quietLine_no_feed (l : jsstring) : quietLine l -> ~ In 10 l.
Proof.
  intros [Hl _] Hin. rewrite Forall_forall in Hl.
  specialize (Hl 10 Hin). discriminate Hl.
Qed.

Lemma schemaLine_facts :
  ~ In 10 schemaLine /\ ~ In 91 schemaLine /\ hasPipe schemaLine = false.
Proof.
  assert (Hmem : forall c l, existsb (N.eqb c) l = false -> ~ In c l).
  { intros c l Hex Hin.
    assert (existsb (N.eqb c) l = true) as Htrue
        by (apply existsb_exists; exists c; split; [exact Hin|apply N.eqb_refl]).
    congruence. }
  repeat split; try apply Hmem; vm_compute; reflexivity.
Qed.

Section TablePlans.

Variables (pre : list jsstring) (hdr : jsstring) (rows mid : list jsstring).
Variable h : header.

Hypothesis prose_before : Forall proseLine pre.
Hypothesis table : Forall tableLine (hdr :: rows).
Hypothesis prose_after : Forall proseLine mid.
Hypothesis status_column : headerOf (length pre) (headerCols hdr) = Some h.
Hypothesis no_phase_column : phaseColIndex h = None.
Hypothesis no_name_column : nameColIndex h = None.
Hypothesis no_desc_column : descColIndex h = None.

Lemma tablePlan_lines :
  split 10 (tablePlan pre hdr rows mid)
  = (pre ++ hdr :: rows) ++ (mid ++ [schemaLine]) ++ [[]].
Proof.
  unfold tablePlan.
  rewrite <- (app_nil_r (text _)), split_text.
  - cbn [split]. rewrite <- !app_assoc. cbn [app].
    rewrite <- !app_assoc. reflexivity.
  - inversion table as [|? ? Hhdr Hrows]; subst.
    assert (Hfeed : forall ls, Forall quietLine ls ->
                      Forall (fun l => ~ In 10 l) ls).
    { intros ls Hls. eapply Forall_impl; [|exact Hls].
      intros l. apply quietLine_no_feed. }
    apply Forall_app; split.
    { apply Hfeed. eapply Forall_impl; [|exact prose_before].
      intros l Hl. apply Hl. }
    constructor; [apply quietLine_no_feed, Hhdr|].
    apply Forall_app; split.
    { apply Hfeed. eapply Forall_impl; [|exact Hrows].
      intros l Hl. apply Hl. }
    apply Forall_app; split.
    { apply Hfeed. eapply Forall_impl; [|exact prose_after].
      intros l Hl. apply Hl. }
    repeat constructor. apply schemaLine_facts.
Qed.

(** The table strategy rejects the table and finds no other. *)
Lemma parseMultiColumnTable_tablePlan (dir planFilePath : jsstring) :
  parseMultiColumnTable (tablePlan pre hdr rows mid) dir planFilePath = [].
Proof.
  unfold parseMultiColumnTable. rewrite tablePlan_lines. cbv zeta.
  inversion table as [|? ? Hhdr Hrows]; subst.
  set (tail := (mid ++ [schemaLine]) ++ [[]]).
  set (lines := (pre ++ hdr :: rows) ++ tail).
  assert (Htail : Forall (fun l => hasPipe l = false) tail).
  { subst tail. apply Forall_app; split; [apply Forall_app; split|].
    - eapply Forall_impl; [|exact prose_after]. intros l Hl. apply Hl.
    - constructor; [apply schemaLine_facts|constructor].
    - constructor; [reflexivity|constructor]. }
  assert (Hh : findHeader (skipn 0 lines) 0 = Some h).
  { subst lines. rewrite drop_0, <- app_assoc.
    rewrite findHeader_prose.
    - cbn [app findHeader].
      destruct Hhdr as [_ [_ ->]]. cbn [negb].
      rewrite Nat.add_0_r, status_column. reflexivity.
    - eapply Forall_impl; [|exact prose_before]. intros l Hl. apply Hl. }
  assert (Hidx : headerIndex h = length pre)
    by (eapply headerOf_index; exact status_column).
  assert (Hnext : skipTable (skipn (S (headerIndex h)) lines)
                    (S (headerIndex h))
                  = length (pre ++ hdr :: rows)).
  { rewrite Hidx. subst lines.
    replace (skipn (S (length pre)) ((pre ++ hdr :: rows) ++ tail))
      with (rows ++ tail).
    - rewrite skipTable_rows.
      + rewrite length_app. cbn [length]. lia.
      + subst tail. destruct mid as [|l mid']; cbn [app].
        * apply schemaLine_facts.
        * inversion prose_after as [|? ? Hl _]; subst. apply Hl.
      + eapply Forall_impl; [|exact Hrows]. intros l Hl. apply Hl.
    - rewrite <- app_assoc. cbn [app].
      replace (pre ++ hdr :: rows ++ tail)
        with ((pre ++ [hdr]) ++ rows ++ tail)
        by (rewrite <- app_assoc; reflexivity).
      replace (S (length pre)) with (length (pre ++ [hdr]))
        by (rewrite length_app; cbn [length]; lia).
      symmetry. apply drop_app_length. }
  assert (Hlen : (length (pre ++ hdr :: rows) < length lines)%nat).
  { subst lines tail. rewrite !length_app. cbn [length]. lia. }
  replace (length lines) with (length lines - 0)%nat at 1 by lia.
  rewrite scanTables_unfold.
  rewrite (parseTableStartingFrom_rejected lines 0 dir planFilePath h Hh)
    by assumption.
  rewrite Hnext.
  replace (0 <? length lines)%nat with true
    by (symmetry; apply Nat.ltb_lt; lia).
  cbn [negb length Nat.ltb Nat.leb].
  replace (length (pre ++ hdr :: rows) <=? 0)%nat with false
    by (symmetry; apply Nat.leb_gt; rewrite length_app; cbn [length]; lia).
  rewrite scanTables_unfold.
  replace (length (pre ++ hdr :: rows) <? length lines)%nat with true
    by (symmetry; apply Nat.ltb_lt; exact Hlen).
  cbn [negb]. unfold parseTableStartingFrom.
  replace (skipn (length (pre ++ hdr :: rows)) lines) with tail
    by (symmetry; apply drop_app_length).
  rewrite findHeader_none by exact Htail.
  cbn [length Nat.ltb Nat.leb].
  replace (length lines <=? length (pre ++ hdr :: rows))%nat with false
    by (symmetry; apply Nat.leb_gt; exact Hlen).
  rewrite Nat.sub_diag. reflexivity.
Qed.

Lemma tablePlan_quiet : Forall quietLine (pre ++ hdr :: rows ++ mid).
Proof.
  assert (Hprose : forall ls, Forall proseLine ls -> Forall quietLine ls).
  { intros ls Hls. eapply Forall_impl; [|exact Hls]. intros l Hl. apply Hl. }
  apply Forall_app; split; [apply Hprose, prose_before|].
  rewrite app_comm_cons. apply Forall_app; split; [|apply Hprose, prose_after].
  eapply Forall_impl; [|exact table]. intros l Hl. apply Hl.
Qed.

Lemma tablePlan_no_bracket : ~ In 91 (tablePlan pre hdr rows mid).
Proof.
  unfold tablePlan, text. intros Hin.
  apply in_flat_map in Hin as [l [Hl Hin]].
  apply in_app_or in Hin as [Hin|[Heq|[]]]; [|discriminate Heq].
  assert (Hprose : forall ls, Forall proseLine ls -> In l ls -> False).
  { intros ls Hls Hmem. rewrite Forall_forall in Hls.
    exact (proj1 (proj2 (Hls l Hmem)) Hin). }
  apply in_app_or in Hl as [Hl|Hl]; [exact (Hprose pre prose_before Hl)|].
  rewrite app_comm_cons in Hl.
  apply in_app_or in Hl as [Hl|Hl].
  - pose proof table as Htable. rewrite Forall_forall in Htable.
    exact (proj1 (proj2 (Htable l Hl)) Hin).
  - apply in_app_or in Hl as [Hl|[<-|[]]];
      [exact (Hprose mid prose_after Hl)|].
    exact (proj1 (proj2 schemaLine_facts) Hin).
Qed.

(** The numbered-list strategy finds the numbered line. *)
Lemma parseNumberedListWithStatus_tablePlan (planFilePath : jsstring) :
  parseNumberedListWithStatus (tablePlan pre hdr rows mid) planFilePath
  = [mkPhase 1 (js "Database Schema") completed planFilePath
       (js "Database Schema") VUndefined].
Proof.
  unfold tablePlan.
  replace (pre ++ hdr :: rows ++ mid ++ [schemaLine])
    with ((pre ++ hdr :: rows ++ mid) ++ [schemaLine])
    by (rewrite <- !app_assoc; cbn [app]; rewrite <- !app_assoc; reflexivity).
  apply parseNumberedListWithStatus_after_quiet. exact tablePlan_quiet.
Qed.

End TablePlans.

Lemma line_checks (l : jsstring) :
  forallb (fun c => negb (isLineTerminator c)) l = true ->
  match l with [] => true | c :: _ => negb (isDigit c) end = true ->
  existsb (N.eqb 91) l = false ->
  quietLine l /\ ~ In 91 l.
Proof.
  intros Hl Hd Hb. repeat split.
  - apply Forall_forall. intros c Hc.
    rewrite forallb_forall in Hl. specialize (Hl c Hc).
    now apply negb_true_iff in Hl.
  - destruct l as [|c l]; [exact I|]. now apply negb_true_iff in Hd.
  - intros Hin.
    assert (existsb (N.eqb 91) l = true) as Htrue
        by (apply existsb_exists; exists 91; split;
            [exact Hin|apply N.eqb_refl]).
    congruence.
Qed.

Lemma proseLine_checks (l : jsstring) :
  forallb (fun c => negb (isLineTerminator c)) l = true ->
  match l with [] => true | c :: _ => negb (isDigit c) end = true ->
  existsb (N.eqb 91) l = false ->
  hasPipe l = false ->
  proseLine l.
Proof.
  intros Hl Hd Hb Hp. destruct (line_checks l Hl Hd Hb) as [Hq Hin].
  split; [exact Hq|]. split; [exact Hin|exact Hp].
Qed.

Lemma tableLine_checks (l : jsstring) :
  forallb (fun c => negb (isLineTerminator c)) l = true ->
  match l with [] => true | c :: _ => negb (isDigit c) end = true ->
  existsb (N.eqb 91) l = false ->
  hasPipe l = true ->
  tableLine l.
Proof.
  intros Hl Hd Hb Hp. destruct (line_checks l Hl Hd Hb) as [Hq Hin].
  split; [exact Hq|]. split; [exact Hin|exact Hp].
Qed.



(* ===================================================================== *)
(** ** Properties of plan extraction *)
(* ===================================================================== *)

Section PlanDataProperties.

Variable matter : jsstring -> outcome frontdata.

(** The two counters of a plan record are those of its phase list, and the
    percentage is computed from them. *)
Lemma extractPlanData_counts (fs : filesystem) (planPath : jsstring)
  (plan : PlanData) :
  extractPlanData matter fs planPath = Returned plan ->
  completedCount plan
  = length (filter (fun p => isCompleted (status p)) (phases plan))
  /\ totalCount plan = length (phases plan)
  /\ percentage plan = percentageOf (completedCount plan) (totalCount plan)
  /\ (totalCount plan = 0%nat -> percentage plan = 0%Z).
Proof.
  unfold extractPlanData. destruct (fs planPath) as [| |content mtime];
    try discriminate.
  destruct (parsePlanTable matter fs planPath) as [phases|]; [|discriminate].
  intros H. injection H as <-. cbn.
  repeat split. intros ->. reflexivity.
Qed.

(** C8, at the input where the code departs from it.  With 23 of 40
    phases completed the two counters are right and the percentage is 57:
    the quotient 23/40 is not a double, the product with 100 falls just
    below 57.5, and [Math.round] takes it down, while
    [round(100 * 23 / 40)] is 58.  With 3 of 8 completed, 37.5 is exact
    and becomes 38, so no rule for halves gives both results. *)
Theorem extractPlanData_percentage_40 :
  (exists plan,
     extractPlanData matter (stepFiles 23 40) (js "/plans/260102-steps/plan.md")
     = Returned plan
     /\ completedCount plan = 23%nat /\ totalCount plan = 40%nat
     /\ percentage plan = 57%Z)
  /\ exactPercentage 23 40 = 58%Z
  /\ (exists plan,
        extractPlanData matter (stepFiles 3 8)
          (js "/plans/260102-steps/plan.md")
        = Returned plan
        /\ completedCount plan = 3%nat /\ totalCount plan = 8%nat
        /\ percentage plan = 38%Z)
  /\ exactPercentage 3 8 = 38%Z.
Proof.
  split.
  { eexists. split; [vm_compute; reflexivity|]. cbn. auto. }
  split; [reflexivity|].
  split; [|reflexivity].
  eexists. split; [vm_compute; reflexivity|]. cbn. auto.
Qed.

End PlanDataProperties.

(* ===================================================================== *)
(** ** Properties of the array sort *)
(* ===================================================================== *)

Section SortProperties.

Context {A : Type}.
Variable comparefn : A -> A -> option Z.

Lemma insertSorted_permutation (x : A) (l : list A) :
  Permutation (JSArray.insertSorted comparefn x l) (x :: l).
Proof.
  induction l as [|y l IH]; cbn [JSArray.insertSorted]; [reflexivity|].
  destruct (0 <? _)%Z; [|reflexivity].
  rewrite IH. apply perm_swap.
Qed.

Lemma sort_permutation (l : list A) :
  Permutation (JSArray.sort comparefn l) l.
Proof.
  induction l as [|x l IH]; [reflexivity|].
  unfold JSArray.sort in *. cbn [fold_right].
  rewrite insertSorted_permutation. now constructor.
Qed.

Lemma sort_length (l : list A) :
  length (JSArray.sort comparefn l) = length l.
Proof. apply Permutation_length, sort_permutation. Qed.

Lemma insertSorted_sorted (x : A) (l : list A) :
  consistentOn comparefn (x :: l) ->
  StronglySorted (notAfter comparefn) l ->
  StronglySorted (notAfter comparefn) (JSArray.insertSorted comparefn x l).
Proof.
  intros [Htotal Htrans] Hl. induction Hl as [|y l Hl IH Hy];
    cbn [JSArray.insertSorted].
  - repeat constructor.
  - destruct (Z.ltb_spec 0 (JSArray.sortValue (comparefn x y))) as [Hgt|Hle].
    + constructor.
      * apply IH.
        -- intros a b Ha Hb. apply Htotal; cbn in *; tauto.
        -- intros a b c Ha Hb Hc. apply Htrans; cbn in *; tauto.
      * assert (Hyx : notAfter comparefn y x).
        { destruct (Htotal x y) as [H|H]; [now left|right; now left| |exact H].
          unfold notAfter in H. lia. }
        rewrite Forall_forall. intros z Hz.
        apply (Permutation_in _ (insertSorted_permutation x l)) in Hz.
        destruct Hz as [<-|Hz]; [exact Hyx|].
        rewrite Forall_forall in Hy. now apply Hy.
    + constructor; [now constructor|].
      constructor; [exact Hle|].
      rewrite Forall_forall in *. intros z Hz.
      apply (Htrans x y z); [now left|right; now left|right; now right
                            |exact Hle|now apply Hy].
Qed.

Lemma sort_sorted (l : list A) :
  consistentOn comparefn l ->
  StronglySorted (notAfter comparefn) (JSArray.sort comparefn l).
Proof.
  induction l as [|x l IH]; intros Hc; [constructor|].
  unfold JSArray.sort in *. cbn [fold_right].
  apply insertSorted_sorted.
  - destruct Hc as [Htotal Htrans]. split.
    + intros a b Ha Hb. apply Htotal.
      * destruct Ha as [<-|Ha]; [now left|right].
        apply (Permutation_in _ (sort_permutation l)), Ha.
      * destruct Hb as [<-|Hb]; [now left|right].
        apply (Permutation_in _ (sort_permutation l)), Hb.
    + assert (Hin : forall a, In a (x :: fold_right
                                 (JSArray.insertSorted comparefn) [] l) ->
                              In a (x :: l)).
      { intros a [<-|Ha]; [now left|right].
        apply (Permutation_in _ (sort_permutation l)), Ha. }
      intros a b c Ha Hb Hc'. apply Htrans; auto.
  - apply IH. destruct Hc as [Htotal Htrans]. split.
    + intros a b Ha Hb. apply Htotal; now right.
    + intros a b c Ha Hb Hc'. apply Htrans; now right.
Qed.

End SortProperties.

(* ===================================================================== *)
(** ** Properties of the plan tree *)
(* ===================================================================== *)

Lemma isStatus_eq (a b : PlanStatus) : Progress.isStatus a b = true <-> a = b.
Proof. destruct a, b; cbn; split; congruence. Qed.

(** Swapping the plans negates the result of the comparator; NaN stays
    NaN. *)
Lemma comparePlans_swap (a b : PlanData) :
  TreeProvider.comparePlans b a
  = option_map Z.opp (TreeProvider.comparePlans a b).
Proof.
  unfold TreeProvider.comparePlans.
  set (sa := TreeProvider.statusOrder (planStatus a)).
  set (sb := TreeProvider.statusOrder (planStatus b)).
  set (ka := match priority a with Some p => p | None => js "none" end).
  set (kb := match priority b with Some p => p | None => js "none" end).
  destruct (Z.eqb_spec (sa - sb) 0) as [Hs|Hs],
           (Z.eqb_spec (sb - sa) 0) as [Hs'|Hs']; try lia; cbn [negb].
  2: { cbn [option_map]. f_equal. lia. }
  destruct (TreeProvider.priorityOrder ka) as [pa|],
           (TreeProvider.priorityOrder kb) as [pb|]; try reflexivity.
  destruct (Z.eqb_spec (pa - pb) 0) as [Hp|Hp],
           (Z.eqb_spec (pb - pa) 0) as [Hp'|Hp']; try lia; cbn [negb].
  2: { cbn [option_map]. f_equal. lia. }
  destruct (Z.eqb_spec (percentage a) (percentage b)) as [Hc|Hc],
           (Z.eqb_spec (percentage b) (percentage a)) as [Hc'|Hc'];
    try congruence; cbn [negb option_map]; f_equal; lia.
Qed.

(** Not being after is transitive, whenever the comparator gives
    numbers. *)
Lemma comparePlans_transitive (a b c : PlanData) (d1 d2 : Z) :
  TreeProvider.comparePlans a b = Some d1 -> (d1 <= 0)%Z ->
  TreeProvider.comparePlans b c = Some d2 -> (d2 <= 0)%Z ->
  exists d3, TreeProvider.comparePlans a c = Some d3 /\ (d3 <= 0)%Z.
Proof.
  unfold TreeProvider.comparePlans.
  set (sa := TreeProvider.statusOrder (planStatus a)).
  set (sb := TreeProvider.statusOrder (planStatus b)).
  set (sc := TreeProvider.statusOrder (planStatus c)).
  set (ka := match priority a with Some p => p | None => js "none" end).
  set (kb := match priority b with Some p => p | None => js "none" end).
  set (kc := match priority c with Some p => p | None => js "none" end).
  intros H1 Hd1 H2 Hd2.
  destruct (Z.eqb_spec (sa - sb) 0) as [Hab|Hab]; cbn [negb] in H1;
    destruct (Z.eqb_spec (sb - sc) 0) as [Hbc|Hbc]; cbn [negb] in H2;
    destruct (Z.eqb_spec (sa - sc) 0) as [Hac|Hac]; cbn [negb];
    try (injection H1 as <-); try (injection H2 as <-); try lia;
    try (eexists; split; [reflexivity|lia]).
  destruct (TreeProvider.priorityOrder ka) as [pa|]; [|discriminate H1].
  destruct (TreeProvider.priorityOrder kb) as [pb|]; [|discriminate H1].
  destruct (TreeProvider.priorityOrder kc) as [pc|]; [|discriminate H2].
  destruct (Z.eqb_spec (pa - pb) 0) as [Pab|Pab]; cbn [negb] in H1;
    destruct (Z.eqb_spec (pb - pc) 0) as [Pbc|Pbc]; cbn [negb] in H2;
    destruct (Z.eqb_spec (pa - pc) 0) as [Pac|Pac]; cbn [negb];
    try (injection H1 as <-); try (injection H2 as <-); try lia;
    try (eexists; split; [reflexivity|lia]).
  destruct (Z.eqb_spec (percentage a) (percentage b)) as [Cab|Cab];
    cbn [negb] in H1;
    destruct (Z.eqb_spec (percentage b) (percentage c)) as [Cbc|Cbc];
    cbn [negb] in H2;
    destruct (Z.eqb_spec (percentage a) (percentage c)) as [Cac|Cac];
    cbn [negb];
    injection H1 as <-; injection H2 as <-; try lia;
    eexists; split; try reflexivity; lia.
Qed.

(** With priorities of the table the comparator gives a number. *)
Lemma comparePlans_number (a b : PlanData) :
  tablePriority a -> tablePriority b ->
  exists d, TreeProvider.comparePlans a b = Some d.
Proof.
  unfold tablePriority, TreeProvider.comparePlans. intros Ha Hb.
  destruct (negb _); [eauto|].
  assert (Hkey : forall p, tablePriority p ->
            exists k, TreeProvider.priorityOrder
                        match priority p with
                        | Some q => q
                        | None => js "none"
                        end = Some k).
  { unfold tablePriority. intros p Hp. cbn [In] in Hp.
    destruct Hp as [<-|[<-|[<-|[<-|[]]]]]; vm_compute; eauto. }
  destruct (Hkey a Ha) as [pa ->], (Hkey b Hb) as [pb ->].
  destruct (negb _); [eauto|]. destruct (negb _); eauto.
Qed.

Lemma comparePlans_consistent (l : list PlanData) :
  Forall tablePriority l -> consistentOn TreeProvider.comparePlans l.
Proof.
  intros Hl. rewrite Forall_forall in Hl. split.
  - intros x y Hx Hy. unfold notAfter.
    destruct (comparePlans_number x y (Hl x Hx) (Hl y Hy)) as [d Hd].
    rewrite (comparePlans_swap x y), Hd. cbn. lia.
  - intros x y z Hx Hy Hz. unfold notAfter.
    destruct (comparePlans_number x y (Hl x Hx) (Hl y Hy)) as [d1 Hd1].
    destruct (comparePlans_number y z (Hl y Hy) (Hl z Hz)) as [d2 Hd2].
    rewrite Hd1, Hd2. cbn. intros H1 H2.
    destruct (comparePlans_transitive x y z d1 d2 Hd1 H1 Hd2 H2)
      as [d3 [-> Hd3]].
    exact Hd3.
Qed.

Lemma shownPlans_map (l : list PlanData) :
  shownPlans (map TreeProvider.PlanTreeItem l) = l.
Proof.
  induction l as [|p l IH]; [reflexivity|].
  cbn. unfold shownPlans in IH. now rewrite IH.
Qed.

Lemma shownPlans_app (l1 l2 : list TreeProvider.TreeElement) :
  shownPlans (l1 ++ l2) = shownPlans l1 ++ shownPlans l2.
Proof. apply flat_map_app. Qed.

(** The plan items of the root, by cases of [getRootItems]. *)
Lemma getRootItems_shown (provider : TreeProvider.PlansTreeProvider) :
  shownPlans (TreeProvider.getRootItems provider)
  = JSArray.sort TreeProvider.comparePlans
      (TreeProvider.filterPlans (TreeProvider.plans provider)
         (TreeProvider.filterMode provider)).
Proof.
  unfold TreeProvider.getRootItems.
  destruct (TreeProvider.plans provider) as [|p ps] eqn:Eplans.
  { cbn. now destruct (TreeProvider.filterMode provider). }
  cbn [length Nat.eqb].
  destruct (TreeProvider.filterPlans (p :: ps) _) as [|q qs] eqn:Ef;
    [reflexivity|].
  cbn [length Nat.eqb]. rewrite shownPlans_app, shownPlans_map.
  now destruct (negb _).
Qed.

Lemma filterPlans_incl (plans : list PlanData) (mode : TreeProvider.FilterMode)
  (p : PlanData) :
  In p (TreeProvider.filterPlans plans mode) -> In p plans.
Proof.
  destruct mode; cbn [TreeProvider.filterPlans]; [auto|..];
    intros H; apply filter_In in H; tauto.
Qed.

(** X3.  The root of the tree is never empty: it holds one message when no
    plan passes the filter, and otherwise the plans that pass it, each of
    them once, after a filter indicator unless the mode is [all]. *)
Theorem getRootItems_shows_filtered
  (provider : TreeProvider.PlansTreeProvider) :
  let filtered :=
    TreeProvider.filterPlans (TreeProvider.plans provider)
      (TreeProvider.filterMode provider) in
  Permutation (shownPlans (TreeProvider.getRootItems provider)) filtered
  /\ (filtered = [] ->
      exists label icon description,
        TreeProvider.getRootItems provider
        = [TreeProvider.InfoTreeItem label icon description])
  /\ (filtered <> [] ->
      length (TreeProvider.getRootItems provider)
      = (length filtered
         + if TreeProvider.isAll (TreeProvider.filterMode provider)
           then 0 else 1)%nat).
Proof.
  intros filtered. split; [|split].
  - rewrite getRootItems_shown. apply sort_permutation.
  - subst filtered. intros Hf. unfold TreeProvider.getRootItems.
    destruct (length (TreeProvider.plans provider) =? 0)%nat; [eauto|].
    rewrite Hf. cbn [length Nat.eqb]. eauto.
  - subst filtered. intros Hf. unfold TreeProvider.getRootItems.
    destruct (TreeProvider.plans provider) as [|p ps] eqn:Eplans.
    { exfalso. apply Hf. now destruct (TreeProvider.filterMode provider). }
    cbn [length Nat.eqb].
    destruct (TreeProvider.filterPlans (p :: ps) _) as [|q qs] eqn:Ef;
      [congruence|].
    cbn [length Nat.eqb]. rewrite length_app, length_map, sort_length.
    destruct (TreeProvider.isAll _); cbn [negb length]; lia.
Qed.

Lemma getRootItems_shows_filtered_witness :
  length (TreeProvider.getRootItems
            (TreeProvider.mkProvider [samplePlan plan_pending None 0 0]
               TreeProvider.mode_active))
  = 2%nat.
Proof.
  apply (proj2 (proj2 (getRootItems_shows_filtered
                         (TreeProvider.mkProvider
                            [samplePlan plan_pending None 0 0]
                            TreeProvider.mode_active)))).
  vm_compute. discriminate.
Defined.

(** X4.  With priorities of the table, the plans of the root come in the order
    of [comparePlans]: no plan is after a plan that follows it, so that
    plans in progress come first, then the pending, the completed and the
    cancelled ones. *)
Theorem getRootItems_sorted (provider : TreeProvider.PlansTreeProvider) :
  Forall tablePriority (TreeProvider.plans provider) ->
  StronglySorted (notAfter TreeProvider.comparePlans)
    (shownPlans (TreeProvider.getRootItems provider))
  /\ StronglySorted
       (fun a b => (TreeProvider.statusOrder (planStatus a)
                    <= TreeProvider.statusOrder (planStatus b))%Z)
       (shownPlans (TreeProvider.getRootItems provider)).
Proof.
  intros Hplans. rewrite getRootItems_shown.
  set (filtered := TreeProvider.filterPlans _ _).
  assert (Hf : Forall tablePriority filtered).
  { rewrite Forall_forall in *. intros p Hp.
    apply Hplans. eapply filterPlans_incl, Hp. }
  assert (Hsorted : StronglySorted (notAfter TreeProvider.comparePlans)
                      (JSArray.sort TreeProvider.comparePlans filtered))
    by (apply sort_sorted, comparePlans_consistent, Hf).
  split; [exact Hsorted|].
  assert (Hs : Forall tablePriority
                 (JSArray.sort TreeProvider.comparePlans filtered)).
  { rewrite Forall_forall in *. intros p Hp. apply Hf.
    apply (Permutation_in _
             (sort_permutation TreeProvider.comparePlans filtered)), Hp. }
  induction Hsorted as [|x l Hl IH Hx]; constructor.
  - apply IH. now inversion Hs.
  - inversion Hs as [|? ? Htx Htl]; subst.
    rewrite Forall_forall in *. intros y Hy. specialize (Hx y Hy).
    unfold notAfter, TreeProvider.comparePlans in Hx.
    destruct (Z.eqb_spec (TreeProvider.statusOrder (planStatus x)
                          - TreeProvider.statusOrder (planStatus y)) 0)
      as [E|E]; [lia|].
    cbn in Hx. lia.
Qed.

Lemma getRootItems_sorted_witness :
  StronglySorted (notAfter TreeProvider.comparePlans)
    (shownPlans
       (TreeProvider.getRootItems
          (TreeProvider.mkProvider
             [samplePlan plan_completed None 100 5;
              samplePlan plan_in_progress (Some (js "P2")) 50 7;
              samplePlan plan_in_progress (Some (js "P1")) 10 1]
             TreeProvider.mode_all))).
Proof.
  apply getRootItems_sorted.
  repeat constructor; unfold tablePriority; cbn; tauto.
Defined.

(** X1.  The comparator of the plan list is consistent: swapping the plans
    negates its result, NaN staying NaN, and when it says that [a] is not
    after [b] and [b] not after [c], it says that [a] is not after [c]. *)
Theorem comparePlans_order (a b c : PlanData) :
  TreeProvider.comparePlans b a
  = option_map Z.opp (TreeProvider.comparePlans a b)
  /\ (forall d1 d2,
        TreeProvider.comparePlans a b = Some d1 -> (d1 <= 0)%Z ->
        TreeProvider.comparePlans b c = Some d2 -> (d2 <= 0)%Z ->
        exists d3, TreeProvider.comparePlans a c = Some d3 /\ (d3 <= 0)%Z).
Proof.
  split; [apply comparePlans_swap|].
  intros d1 d2. apply comparePlans_transitive.
Qed.

Lemma comparePlans_order_witness :
  exists d3,
    TreeProvider.comparePlans
      (samplePlan plan_in_progress (Some (js "P1")) 10 1)
      (samplePlan plan_completed None 100 5) = Some d3
    /\ (d3 <= 0)%Z.
Proof.
  apply (proj2 (comparePlans_order
                  (samplePlan plan_in_progress (Some (js "P1")) 10 1)
                  (samplePlan plan_in_progress (Some (js "P2")) 50 7)
                  (samplePlan plan_completed None 100 5)) (-1)%Z (-2)%Z).
  - vm_compute. reflexivity.
  - lia.
  - vm_compute. reflexivity.
  - lia.
Defined.

(** X2.  Between two plans of the same status the comparator gives NaN as soon
    as one of them has a priority that its table does not hold; P0, which
    [normalizePriority] lets through, is such a priority. *)
Theorem comparePlans_NaN (a b : PlanData) (p : jsstring) :
  planStatus a = planStatus b ->
  priority a = Some p ->
  TreeProvider.priorityOrder p = None ->
  TreeProvider.comparePlans a b = None
  /\ TreeProvider.comparePlans b a = None.
Proof.
  intros Hs Hp Hk.
  assert (H : TreeProvider.comparePlans a b = None).
  { unfold TreeProvider.comparePlans. rewrite Hs, Z.sub_diag, Hp, Hk.
    reflexivity. }
  split; [exact H|]. rewrite comparePlans_swap, H. reflexivity.
Qed.

Lemma comparePlans_NaN_witness :
  TreeProvider.comparePlans
    (samplePlan plan_pending (normalizePriority (VString (js "p0"))) 0 0)
    (samplePlan plan_pending (Some (js "P1")) 0 0) = None
  /\ TreeProvider.comparePlans
       (samplePlan plan_pending (Some (js "P1")) 0 0)
       (samplePlan plan_pending (normalizePriority (VString (js "p0"))) 0 0)
     = None.
Proof.
  apply (comparePlans_NaN _ _ (js "P0")).
  - reflexivity.
  - vm_compute. reflexivity.
  - vm_compute. reflexivity.
Defined.

Lemma filter_filter_same {A} (f : A -> bool) (l : list A) :
  filter f (filter f l) = filter f l.
Proof.
  induction l as [|x l IH]; [reflexivity|].
  cbn [filter]. destruct (f x) eqn:E; [|exact IH].
  cbn [filter]. rewrite E, IH. reflexivity.
Qed.

Lemma filter_split {A} (f g h : A -> bool) (l : list A) :
  (forall x, f x = true -> g x = negb (h x)) ->
  (forall x, f x = false -> g x = false /\ h x = false) ->
  Permutation (filter f l) (filter g l ++ filter h l).
Proof.
  intros Ht Hf. induction l as [|x l IH]; [reflexivity|].
  cbn [filter]. destruct (f x) eqn:E.
  - rewrite (Ht x E). destruct (h x); cbn [negb app].
    + rewrite IH. apply Permutation_middle.
    + now constructor.
  - destruct (Hf x E) as [-> ->]. exact IH.
Qed.

(** X5.  The filters of the tree: a cancelled plan passes no filter but [all];
    the active plans are those in progress and the pending ones; every
    plan is active, completed or cancelled; filtering twice changes
    nothing. *)
Theorem filterPlans_partition (plans : list PlanData) :
  (forall mode p,
     mode <> TreeProvider.mode_all ->
     In p (TreeProvider.filterPlans plans mode) ->
     planStatus p <> plan_cancelled)
  /\ Permutation (TreeProvider.filterPlans plans TreeProvider.mode_active)
       (TreeProvider.filterPlans plans TreeProvider.mode_in_progress
        ++ TreeProvider.filterPlans plans TreeProvider.mode_pending)
  /\ Permutation plans
       (TreeProvider.filterPlans plans TreeProvider.mode_active
        ++ TreeProvider.filterPlans plans TreeProvider.mode_completed
        ++ filter (fun p => Progress.isStatus (planStatus p) plan_cancelled)
             plans)
  /\ (forall mode,
        TreeProvider.filterPlans (TreeProvider.filterPlans plans mode) mode
        = TreeProvider.filterPlans plans mode).
Proof.
  split; [|split; [|split]].
  - intros mode p Hmode Hp Hc.
    destruct mode; [congruence|..]; cbn [TreeProvider.filterPlans] in Hp;
      apply filter_In in Hp as [_ Hp]; rewrite Hc in Hp; discriminate Hp.
  - cbn [TreeProvider.filterPlans]. apply filter_split.
    + intros p. now destruct (planStatus p).
    + intros p. now destruct (planStatus p).
  - cbn [TreeProvider.filterPlans].
    set (cancelled := fun p => Progress.isStatus (planStatus p) plan_cancelled).
    rewrite app_assoc.
    rewrite <- (filter_split (fun p => negb (cancelled p))).
    + rewrite <- (filter_split (fun _ => true)).
      * induction plans as [|p ps IH]; [reflexivity|].
        cbn [filter]. now constructor.
      * reflexivity.
      * discriminate.
    + intros p. subst cancelled. cbn beta. now destruct (planStatus p).
    + intros p. subst cancelled. cbn beta. now destruct (planStatus p).
  - intros mode. destruct mode; cbn [TreeProvider.filterPlans];
      [reflexivity|..]; apply filter_filter_same.
Qed.

Lemma filterPlans_partition_witness :
  planStatus (samplePlan plan_pending None 0 0) <> plan_cancelled.
Proof.
  apply (proj1 (filterPlans_partition
                  [samplePlan plan_cancelled None 0 0;
                   samplePlan plan_pending None 0 0])
           TreeProvider.mode_active).
  - discriminate.
  - vm_compute. left. reflexivity.
Defined.

Lemma NoDup_map_eq {A B} (f : A -> B) (l : list A) (a b : A) :
  NoDup (map f l) -> In a l -> In b l -> f a = f b -> a = b.
Proof.
  induction l as [|x l IH]; cbn [map]; [contradiction|].
  intros Hnd [<-|Ha] [<-|Hb] Hf; inversion Hnd as [|? ? Hx Hl]; subst.
  - reflexivity.
  - exfalso. apply Hx. rewrite Hf. now apply in_map.
  - exfalso. apply Hx. rewrite <- Hf. now apply in_map.
  - now apply IH.
Qed.

(** X6.  From a phase item back to its plan: the parent of a child of a plan
    item is an item of a plan of the provider with the same id, and the
    very plan when no two plans share an id.  The message shown for a plan
    without phases has no parent. *)
Theorem getParent_of_child (provider : TreeProvider.PlansTreeProvider)
  (plan : PlanData) (child : TreeProvider.TreeElement) :
  In plan (TreeProvider.plans provider) ->
  In child (TreeProvider.getChildren provider
              (Some (TreeProvider.PlanTreeItem plan))) ->
  (phases plan = [] -> TreeProvider.getParent provider child = None)
  /\ (phases plan <> [] ->
      exists p,
        TreeProvider.getParent provider child
        = Some (TreeProvider.PlanTreeItem p)
        /\ In p (TreeProvider.plans provider)
        /\ planId p = planId plan
        /\ (NoDup (map planId (TreeProvider.plans provider)) -> p = plan)).
Proof.
  intros Hplan Hchild. cbn [TreeProvider.getChildren] in Hchild. split.
  - intros Hph. rewrite Hph in Hchild. cbn in Hchild.
    destruct Hchild as [<-|[]]. reflexivity.
  - intros Hph. destruct (phases plan) as [|ph phs] eqn:E; [congruence|].
    cbn [length Nat.eqb] in Hchild.
    apply in_map_iff in Hchild as [ph' [<- _]].
    cbn [TreeProvider.getParent].
    destruct (find _ (TreeProvider.plans provider)) as [p|] eqn:Ef.
    + apply find_some in Ef as [Hp Hid]. apply eqb_eq in Hid.
      exists p. repeat split; auto.
      intros Hnd. eapply NoDup_map_eq; eauto.
    + exfalso. apply (find_none _ _ Ef) in Hplan.
      rewrite (proj2 (eqb_eq _ _) eq_refl) in Hplan. discriminate Hplan.
Qed.

Lemma getParent_of_child_witness :
  exists p,
    TreeProvider.getParent
      (TreeProvider.mkProvider [phasedPlan] TreeProvider.mode_all)
      (TreeProvider.PhaseTreeItem (phaseWith pending) phasedPlan)
    = Some (TreeProvider.PlanTreeItem p)
    /\ In p [phasedPlan]
    /\ planId p = planId phasedPlan
    /\ (NoDup (map planId [phasedPlan]) -> p = phasedPlan).
Proof.
  apply (proj2 (getParent_of_child
                  (TreeProvider.mkProvider [phasedPlan] TreeProvider.mode_all)
                  phasedPlan
                  (TreeProvider.PhaseTreeItem (phaseWith pending) phasedPlan)
                  (or_introl eq_refl) (or_introl eq_refl))).
  discriminate.
Defined.

(* ===================================================================== *)
(** ** Properties of the status bar *)
(* ===================================================================== *)

(** X7.  [truncate] keeps a string that fits and otherwise cuts it to
    [maxLength] units, the last of them an ellipsis; the result fits
    [maxLength] exactly when [maxLength] is at least 1 or the string
    fitted already. *)
Theorem truncate_bound (str : jsstring) (maxLength : Z) :
  ((Z.of_nat (length str) <= maxLength)%Z ->
   StatusBar.truncate str maxLength = str)
  /\ ((maxLength < Z.of_nat (length str))%Z -> (1 <= maxLength)%Z ->
      StatusBar.truncate str maxLength
      = firstn (Z.to_nat (maxLength - 1)) str ++ StatusBar.ellipsis
      /\ Z.of_nat (length (StatusBar.truncate str maxLength)) = maxLength)
  /\ ((Z.of_nat (length (StatusBar.truncate str maxLength)) <= maxLength)%Z
      <-> (1 <= maxLength)%Z \/ (Z.of_nat (length str) <= maxLength)%Z).
Proof.
  unfold StatusBar.truncate, StatusBar.sliceTo, StatusBar.ellipsis.
  destruct (Z.leb_spec (Z.of_nat (length str)) maxLength) as [Hfit|Hlong].
  - split; [reflexivity|]. split; [lia|]. split; [now right|intros _; lia].
  - split; [lia|].
    destruct (Z.leb_spec 0 (maxLength - 1)) as [Hpos|Hneg].
    + split.
      * intros _ _. split; [reflexivity|].
        rewrite length_app, length_firstn. cbn [length]. lia.
      * rewrite length_app, length_firstn. cbn [length]. split; lia.
    + split; [lia|].
      rewrite length_app, length_firstn. cbn [length]. split; lia.
Qed.

Lemma truncate_bound_witness :
  StatusBar.truncate (js "toolong") 6 = js "toolo" ++ StatusBar.ellipsis
  /\ Z.of_nat (length (StatusBar.truncate (js "toolong") 6)) = 6%Z.
Proof.
  apply (proj1 (proj2 (truncate_bound (js "toolong") 6))).
  - vm_compute. reflexivity.
  - lia.
Defined.

Lemma byLastModified_consistent (l : list PlanData) :
  consistentOn StatusBar.byLastModifiedDescending l.
Proof.
  split; intros; unfold notAfter, StatusBar.byLastModifiedDescending in *;
    cbn in *; lia.
Qed.

(** The plan that the fallback of [findCurrentPlan] picks. *)
Lemma sort_head_latest (plans : list PlanData) (first : PlanData)
  (others : list PlanData) :
  JSArray.sort StatusBar.byLastModifiedDescending plans = first :: others ->
  In first plans
  /\ forall q, In q plans -> (lastModified q <= lastModified first)%Z.
Proof.
  intros Hs.
  pose proof (sort_permutation StatusBar.byLastModifiedDescending plans)
    as Hperm.
  pose proof (sort_sorted StatusBar.byLastModifiedDescending plans
                (byLastModified_consistent plans)) as Hsorted.
  rewrite Hs in Hperm, Hsorted. split.
  - apply (Permutation_in _ Hperm). now left.
  - intros q Hq. apply (Permutation_in _ (Permutation_sym Hperm)) in Hq.
    destruct Hq as [<-|Hq]; [lia|].
    inversion Hsorted as [|? ? _ Hall]; subst.
    rewrite Forall_forall in Hall. specialize (Hall q Hq).
    unfold notAfter, StatusBar.byLastModifiedDescending in Hall.
    cbn in Hall. lia.
Qed.

(** The plan of the status bar is one of the plans, and there is one
    whenever there is a plan. *)
Lemma findCurrentPlan_member (bar : StatusBar.PlansStatusBar)
  (pr : Progress.ProjectProgress) :
  StatusBar.progress bar = Some pr ->
  (StatusBar.findCurrentPlan bar = None -> Progress.plans pr = [])
  /\ (forall p, StatusBar.findCurrentPlan bar = Some p ->
                In p (Progress.plans pr)).
Proof.
  intros Hpr. unfold StatusBar.findCurrentPlan. rewrite Hpr.
  set (plans := Progress.plans pr).
  destruct (find _ plans) as [p1|] eqn:E1.
  { apply find_some in E1 as [Hin _]. split; [discriminate|].
    intros p Hp. injection Hp as <-. exact Hin. }
  match goal with
  | |- context [find ?f plans] => destruct (find f plans) as [p2|] eqn:E2
  end.
  { apply find_some in E2 as [Hin _]. split; [discriminate|].
    intros p Hp. injection Hp as <-. exact Hin. }
  destruct (JSArray.sort _ plans) as [|first others] eqn:Es.
  - split; [|discriminate]. intros _.
    pose proof (sort_length StatusBar.byLastModifiedDescending plans) as Hl.
    rewrite Es in Hl. destruct plans; [reflexivity|discriminate Hl].
  - destruct (sort_head_latest plans first others Es) as [Hin _].
    split; [discriminate|]. intros p Hp. injection Hp as <-. exact Hin.
Qed.

(** X8.  The plan of the status bar: none exactly when there is no plan at
    all; otherwise a plan of the list, which is in progress when any
    plan is, else pending with a completed phase when any plan is, else
    a plan that was modified last. *)
Theorem findCurrentPlan_selection (bar : StatusBar.PlansStatusBar)
  (pr : Progress.ProjectProgress) :
  StatusBar.progress bar = Some pr ->
  let plans := Progress.plans pr in
  let started p :=
    Progress.isStatus (planStatus p) plan_pending
    && (0 <? completedCount p)%nat in
  (StatusBar.findCurrentPlan bar = None <-> plans = [])
  /\ (forall p, StatusBar.findCurrentPlan bar = Some p ->
        In p plans
        /\ ((exists q, In q plans /\ planStatus q = plan_in_progress) ->
            planStatus p = plan_in_progress)
        /\ ((forall q, In q plans -> planStatus q <> plan_in_progress) ->
            (exists q, In q plans /\ started q = true) ->
            started p = true)
        /\ ((forall q, In q plans -> planStatus q <> plan_in_progress) ->
            (forall q, In q plans -> started q = false) ->
            forall q, In q plans ->
                      (lastModified q <= lastModified p)%Z)).
Proof.
  intros Hpr plans started. unfold StatusBar.findCurrentPlan. rewrite Hpr.
  fold plans.
  destruct (find _ plans) as [p1|] eqn:E1.
  { apply find_some in E1 as [Hin1 Hst1]. apply isStatus_eq in Hst1.
    split.
    - split; [discriminate|]. intros Hnil. rewrite Hnil in Hin1.
      contradiction.
    - intros p Hp. injection Hp as <-. repeat split; auto.
      + intros Hnone. exfalso. exact (Hnone p1 Hin1 Hst1).
      + intros Hnone. exfalso. exact (Hnone p1 Hin1 Hst1). }
  assert (Hnone : forall q, In q plans -> planStatus q <> plan_in_progress).
  { intros q Hq Hst. apply (find_none _ _ E1) in Hq.
    rewrite Hst in Hq. discriminate Hq. }
  match goal with
  | |- context [find ?f plans] => destruct (find f plans) as [p2|] eqn:E2
  end.
  { apply find_some in E2 as [Hin2 Hst2]. split.
    - split; [discriminate|]. intros Hnil. rewrite Hnil in Hin2.
      contradiction.
    - intros p Hp. injection Hp as <-. repeat split; auto.
      + intros [q [Hq Hst]]. exfalso. exact (Hnone q Hq Hst).
      + intros _ Hall. specialize (Hall p2 Hin2). subst started.
        cbn beta in Hall. congruence. }
  assert (Hnot : forall q, In q plans -> started q = false).
  { intros q Hq. exact (find_none _ _ E2 q Hq). }
  destruct (JSArray.sort _ plans) as [|first others] eqn:Es.
  - split.
    + split; [|reflexivity]. intros _.
      pose proof (sort_length StatusBar.byLastModifiedDescending plans) as Hl.
      rewrite Es in Hl. destruct plans; [reflexivity|discriminate Hl].
    + discriminate.
  - destruct (sort_head_latest plans first others Es) as [Hin Hmax].
    split.
    + split; [discriminate|]. intros Hnil. rewrite Hnil in Hin.
      contradiction.
    + intros p Hp. injection Hp as <-. repeat split; auto.
      * intros [q [Hq Hst]]. exfalso. exact (Hnone q Hq Hst).
      * intros _ [q [Hq Hst]]. rewrite (Hnot q Hq) in Hst. discriminate Hst.
Qed.

Lemma findCurrentPlan_selection_witness :
  StatusBar.findCurrentPlan sampleBar = None
  <-> Progress.plans sampleProgress = [].
Proof.
  apply (proj1 (findCurrentPlan_selection sampleBar sampleProgress
                  eq_refl)).
Defined.

(** X9.  What [update] does to the item: with no plan it hides the item and
    forgets the current plan; with plans it selects one of them, so that
    the message for plans none of which is current is never set, shows
    the item when it returns, and leaves the item as it was when it
    throws. *)
Theorem update_shows_plan (bar : StatusBar.PlansStatusBar) :
  let plans :=
    match StatusBar.progress bar with
    | Some pr => Progress.plans pr
    | None => []
    end in
  let result := StatusBar.update bar in
  (plans = [] ->
   snd result = StatusBar.Normal
   /\ StatusBar.visible (StatusBar.statusBarItem (fst result)) = false
   /\ StatusBar.currentPlan (fst result) = None)
  /\ (plans <> [] ->
      StatusBar.currentPlan (fst result) = StatusBar.findCurrentPlan bar
      /\ (exists plan,
            StatusBar.currentPlan (fst result) = Some plan /\ In plan plans)
      /\ (snd result = StatusBar.Normal ->
          StatusBar.visible (StatusBar.statusBarItem (fst result)) = true)
      /\ (snd result = StatusBar.Abrupt ->
          StatusBar.statusBarItem (fst result) = StatusBar.statusBarItem bar)).
Proof.
  intros plans result. subst plans result. unfold StatusBar.update.
  destruct (StatusBar.progress bar) as [pr|] eqn:Epr.
  2: { split; [intros _; cbn; auto|congruence]. }
  destruct (Progress.plans pr) as [|p ps] eqn:Eplans.
  { split; [intros _; cbn; auto|congruence]. }
  split; [discriminate|]. intros _. cbn [length Nat.eqb].
  destruct (findCurrentPlan_member bar pr Epr) as [Hnone Hsome].
  destruct (StatusBar.findCurrentPlan bar) as [plan|] eqn:Ecur.
  - pose proof (Hsome plan eq_refl) as Hin. rewrite Eplans in Hin.
    destruct (StatusBar.truncateName _ _); cbn; repeat split; eauto;
      discriminate.
  - exfalso. rewrite Eplans in Hnone.
    specialize (Hnone eq_refl). discriminate Hnone.
Qed.

Lemma update_shows_plan_witness :
  StatusBar.visible
    (StatusBar.statusBarItem (fst (StatusBar.update sampleBar))) = true.
Proof.
  apply (proj2 (update_shows_plan sampleBar)).
  - vm_compute. discriminate.
  - vm_compute. reflexivity.
Defined.

Section ExtractionProperties.

Variable matter : jsstring -> outcome frontdata.
Variable fs : filesystem.

Lemma parsePlanTable_returns (planFilePath content : jsstring) (mtime : Z) :
  fs planFilePath = File content mtime ->
  exists phases, parsePlanTable matter fs planFilePath = Returned phases.
Proof.
  intros Hfile. unfold parsePlanTable, readFile. rewrite Hfile. cbv zeta.
  repeat match goal with
         | |- context [if ?c then _ else _] => destruct c; [eauto|]
         end.
  eauto.
Qed.

(** Extraction throws exactly when the plan file cannot be read. *)
Lemma extractPlanData_returns (planPath content : jsstring) (mtime : Z) :
  fs planPath = File content mtime ->
  exists plan, extractPlanData matter fs planPath = Returned plan.
Proof.
  intros Hfile. unfold extractPlanData. rewrite Hfile.
  destruct (parsePlanTable_returns planPath content mtime Hfile)
    as [phases ->].
  eauto.
Qed.

Lemma extractFromFrontmatter_some (content : jsstring) (data : frontdata) :
  nonEmpty content = true ->
  startsWith (trim content) (js "---") = true ->
  matter content = Returned data ->
  data <> [] ->
  exists fm,
    MetadataExtractor.extractFromFrontmatter matter content = Some fm
    /\ fName fm = orUndefined (field data "title")
    /\ fStatus fm = normalizeMetadataStatus (field data "status")
    /\ fPriority fm = normalizePriority (field data "priority").
Proof.
  intros Hne Hstart Hdata Hnil.
  unfold MetadataExtractor.extractFromFrontmatter.
  rewrite Hne, Hstart, Hdata. cbn [negb orb].
  destruct data as [|kv data']; [congruence|]. cbn [length Nat.eqb].
  eexists. split; [reflexivity|]. cbn. auto.
Qed.

End ExtractionProperties.

(** X10.  Extraction of a plan throws exactly when the plan file cannot be
    read, whatever the front matter library and the other files do. *)
Theorem extractPlanData_throws_iff (matter : jsstring -> outcome frontdata)
  (fs : filesystem) (planPath : jsstring) :
  extractPlanData matter fs planPath = Thrown
  <-> readFile fs planPath = Thrown.
Proof.
  unfold readFile. destruct (fs planPath) as [| |content mtime] eqn:Efile.
  - unfold extractPlanData. rewrite Efile. tauto.
  - unfold extractPlanData. rewrite Efile. tauto.
  - destruct (extractPlanData_returns matter fs planPath content mtime Efile)
      as [plan ->].
    split; discriminate.
Qed.

(** X11.  Front matter that has keys but no status hides the phases: the plan
    is pending whatever its phases and its header say, its phases being
    those of the parser. *)
Theorem frontmatter_masks_status (matter : jsstring -> outcome frontdata)
  (fs : filesystem) (planPath content : jsstring) (mtime : Z)
  (data : frontdata) :
  fs planPath = File content mtime ->
  nonEmpty content = true ->
  startsWith (trim content) (js "---") = true ->
  matter content = Returned data ->
  data <> [] ->
  truthy (field data "status") = false ->
  exists plan,
    extractPlanData matter fs planPath = Returned plan
    /\ planStatus plan = plan_pending
    /\ parsePlanTable matter fs planPath = Returned (phases plan).
Proof.
  intros Hfile Hne Hstart Hdata Hnil Hstatus.
  destruct (extractFromFrontmatter_some matter content data Hne Hstart Hdata
              Hnil) as [fm [Hfm [_ [Hst _]]]].
  destruct (parsePlanTable_returns matter fs planPath content mtime Hfile)
    as [phases Hphases].
  unfold extractPlanData. rewrite Hfile, Hphases, Hfm.
  eexists. split; [reflexivity|]. cbn. split; [|reflexivity].
  rewrite Hst. unfold normalizeMetadataStatus. rewrite Hstatus. reflexivity.
Qed.

Lemma frontmatter_masks_status_witness :
  exists plan,
    extractPlanData titleOnly titledFiles (js "/plans/a/plan.md")
    = Returned plan
    /\ planStatus plan = plan_pending
    /\ parsePlanTable titleOnly titledFiles (js "/plans/a/plan.md")
       = Returned (phases plan).
Proof.
  apply (frontmatter_masks_status titleOnly titledFiles
           (js "/plans/a/plan.md") titledPlan 0
           [(js "title", VNumber 7)]).
  - vm_compute. reflexivity.
  - vm_compute. reflexivity.
  - vm_compute. reflexivity.
  - reflexivity.
  - discriminate.
  - vm_compute. reflexivity.
Defined.

(** X12.  A title that the front matter gives as a number reaches the status
    bar as the name of the plan, and [update] throws on it after it has
    selected the plan and before it touches the item. *)
Theorem update_throws_on_numeric_title
  (matter : jsstring -> outcome frontdata) (fs : filesystem)
  (planPath content : jsstring) (mtime : Z) (data : frontdata) (z : Z) :
  fs planPath = File content mtime ->
  nonEmpty content = true ->
  startsWith (trim content) (js "---") = true ->
  matter content = Returned data ->
  field data "title" = VNumber z ->
  z <> 0%Z ->
  exists plan,
    extractPlanData matter fs planPath = Returned plan
    /\ planName plan = VNumber z
    /\ forall bar pr,
         StatusBar.progress bar = Some pr ->
         Progress.plans pr = [plan] ->
         StatusBar.update bar
         = (StatusBar.mkBar (StatusBar.statusBarItem bar) (Some plan)
              (Some pr), StatusBar.Abrupt).
Proof.
  intros Hfile Hne Hstart Hdata Htitle Hz.
  assert (Hnil : data <> []).
  { intros ->. discriminate Htitle. }
  destruct (extractFromFrontmatter_some matter content data Hne Hstart Hdata
              Hnil) as [fm [Hfm [Hname _]]].
  destruct (parsePlanTable_returns matter fs planPath content mtime Hfile)
    as [phases Hphases].
  unfold extractPlanData. rewrite Hfile, Hphases, Hfm.
  eexists. split; [reflexivity|].
  assert (Hn : orElse (fName fm)
                 (VString (getPlanDisplayName (getPlanId planPath)))
               = VNumber z).
  { rewrite Hname, Htitle.
    assert (Ht : truthy (VNumber z) = true).
    { cbn [truthy]. destruct (Z.eqb_spec z 0); [contradiction|reflexivity]. }
    unfold orUndefined, orElse. rewrite Ht, Ht. reflexivity. }
  split; [exact Hn|].
  intros bar pr Hpr Hplans. unfold StatusBar.update.
  unfold StatusBar.findCurrentPlan. rewrite Hpr, Hplans.
  cbn [length Nat.eqb find planStatus completedCount].
  destruct (Progress.isStatus _ plan_in_progress);
    [cbn [planName]; rewrite Hn; reflexivity|].
  destruct (_ && _); [cbn [planName]; rewrite Hn; reflexivity|].
  cbn [JSArray.sort fold_right JSArray.insertSorted planName].
  rewrite Hn. reflexivity.
Qed.

Lemma update_throws_on_numeric_title_witness :
  exists plan,
    extractPlanData titleOnly titledFiles (js "/plans/a/plan.md")
    = Returned plan
    /\ planName plan = VNumber 7
    /\ forall bar pr,
         StatusBar.progress bar = Some pr ->
         Progress.plans pr = [plan] ->
         StatusBar.update bar
         = (StatusBar.mkBar (StatusBar.statusBarItem bar) (Some plan)
              (Some pr), StatusBar.Abrupt).
Proof.
  apply (update_throws_on_numeric_title titleOnly titledFiles
           (js "/plans/a/plan.md") titledPlan 0 [(js "title", VNumber 7)]).
  - vm_compute. reflexivity.
  - vm_compute. reflexivity.
  - vm_compute. reflexivity.
  - reflexivity.
  - vm_compute. reflexivity.
  - discriminate.
Defined.

(* ===================================================================== *)
(** ** Properties of the directory scan and of the projects *)
(* ===================================================================== *)

Section DirectoryProperties.

Variable fs : filesystem.
Variable readdir : jsstring -> outcome (list Scanner.Dirent).
Variable localeCompare : jsstring -> jsstring -> Z.


End DirectoryProperties.


(* ===================================================================== *)
(** ** Properties of the paths *)
(* ===================================================================== *)

Lemma split_app_sep (sep : N) (a b : jsstring) :
  split sep (a ++ sep :: b) = split sep a ++ split sep b.
Proof.
  induction a as [|c a IH]; cbn [app split].
  - rewrite N.eqb_refl. destruct (split sep b) eqn:E; [|reflexivity].
    exfalso. exact (split_not_nil sep b E).
  - rewrite IH. destruct (split sep a) as [|piece pieces] eqn:E.
    + exfalso. exact (split_not_nil sep a E).
    + cbn [app]. destruct (c =? sep); reflexivity.
Qed.

Lemma split_single (sep : N) (s : jsstring) :
  ~ In sep s -> split sep s = [s].
Proof.
  induction s as [|c s IH]; intros Hs; [reflexivity|].
  cbn [split]. rewrite IH by (intros H; apply Hs; now right).
  destruct (N.eqb_spec c sep) as [->|_]; [|reflexivity].
  exfalso. apply Hs. now left.
Qed.

Lemma normalizeString_app (allowAboveRoot : bool) (s1 s2 : list jsstring) :
  forall out,
    Path.normalizeString allowAboveRoot (s1 ++ s2) out
    = Path.normalizeString allowAboveRoot s2
        (rev (Path.normalizeString allowAboveRoot s1 out)).
Proof.
  induction s1 as [|seg s1 IH]; intros out; cbn [app Path.normalizeString].
  - now rewrite rev_involutive.
  - destruct (_ || _); [apply IH|].
    destruct (JS.eqb seg (js "..")); [|apply IH].
    destruct out as [|prev out']; [apply IH|].
    destruct (JS.eqb prev (js "..")); apply IH.
Qed.

Lemma join_app (sep : jsstring) (k l : list jsstring) :
  k <> [] -> l <> [] ->
  JS.join sep (k ++ l) = JS.join sep k ++ sep ++ JS.join sep l.
Proof.
  intros Hk Hl. induction k as [|a k IH]; [congruence|].
  destruct k as [|b k].
  - cbn [app JS.join]. destruct l; [congruence|reflexivity].
  - change ((a :: b :: k) ++ l) with (a :: ((b :: k) ++ l)).
    cbn [JS.join]. cbn [app] in *. rewrite IH by discriminate.
    cbn [JS.join]. now rewrite <- !app_assoc.
Qed.

Lemma normalize_plan_path (dirPart name : jsstring) :
  properName name ->
  dirPart = [] \/ (exists d, dirPart = d ++ [Path.slash]) ->
  exists prefix,
    Path.normalize (dirPart ++ name ++ js "/plan.md")
    = prefix ++ name ++ js "/plan.md"
    /\ (prefix = [] \/ exists q, prefix = q ++ [Path.slash]).
Proof.
  intros [Hne [Hslash [Hdot Hdots]]] Hdir.
  unfold Path.normalize.
  set (p := dirPart ++ name ++ js "/plan.md").
  assert (Hp : JS.eqb p [] = false).
  { apply eqb_neq. subst p. destruct dirPart, name; discriminate. }
  rewrite Hp.
  assert (Htrail : startsWith (rev p) [Path.slash] = false).
  { subst p. rewrite !rev_app_distr. reflexivity. }
  rewrite Htrail.
  assert (Hsplit : exists segs,
             split Path.slash p = segs ++ [name; js "plan.md"]).
  { subst p. change (js "/plan.md") with (Path.slash :: js "plan.md").
    destruct Hdir as [->|[d ->]].
    - exists []. cbn [app]. rewrite split_line by exact Hslash.
      reflexivity.
    - exists (split Path.slash d). rewrite <- app_assoc. cbn [app].
      rewrite split_app_sep, split_line by exact Hslash. reflexivity. }
  destruct Hsplit as [segs ->].
  set (allow := negb (startsWith p [Path.slash])).
  rewrite normalizeString_app.
  set (kept := Path.normalizeString allow segs []).
  assert (Hnorm : Path.normalizeString allow [name; js "plan.md"] (rev kept)
                  = kept ++ [name; js "plan.md"]).
  { cbn [Path.normalizeString].
    rewrite (proj2 (eqb_neq name []) Hne),
            (proj2 (eqb_neq name (js ".")) Hdot),
            (proj2 (eqb_neq name (js "..")) Hdots).
    cbn [orb]. change (JS.eqb (js "plan.md") [] || _) with false.
    change (JS.eqb (js "plan.md") (js "..")) with false. cbv iota.
    cbn [rev]. rewrite rev_involutive, <- app_assoc. reflexivity. }
  rewrite Hnorm.
  assert (Hbody : exists pre,
             JS.join [Path.slash] (kept ++ [name; js "plan.md"])
             = pre ++ name ++ js "/plan.md"
             /\ (pre = [] \/ exists q, pre = q ++ [Path.slash])).
  { destruct kept as [|k0 kept'].
    - exists []. split; [reflexivity|now left].
    - exists (JS.join [Path.slash] (k0 :: kept') ++ [Path.slash]).
      split; [|right; eauto].
      rewrite join_app by discriminate. cbn [JS.join].
      rewrite <- !app_assoc. reflexivity. }
  destruct Hbody as [pre [-> Hpre]].
  assert (Hbody : JS.eqb (pre ++ name ++ js "/plan.md") [] = false).
  { apply eqb_neq. destruct pre, name; discriminate. }
  rewrite Hbody.
  destruct (startsWith p [Path.slash]).
  - exists (Path.slash :: pre). split; [reflexivity|].
    right. destruct Hpre as [->|[q ->]]; [exists []|exists (Path.slash :: q)];
      reflexivity.
  - exists pre. split; [reflexivity|exact Hpre].
Qed.

Lemma dropUntilSlash_app (a b : jsstring) :
  ~ In Path.slash a ->
  Path.dropUntilSlash (a ++ b) = Path.dropUntilSlash b.
Proof.
  induction a as [|c a IH]; intros Ha; [reflexivity|].
  cbn [app Path.dropUntilSlash].
  destruct (N.eqb_spec c Path.slash) as [->|_].
  - exfalso. apply Ha. now left.
  - apply IH. intros H. apply Ha. now right.
Qed.

Lemma dropTrailingSlashes_name (name rest : jsstring) :
  name <> [] -> ~ In Path.slash name ->
  Path.dropTrailingSlashes (rev name ++ rest) = rev name ++ rest.
Proof.
  intros Hne Hslash. destruct (rev name) as [|c r] eqn:E.
  - exfalso. apply Hne. rewrite <- (rev_involutive name), E. reflexivity.
  - cbn [app Path.dropTrailingSlashes].
    destruct (N.eqb_spec c Path.slash) as [->|_]; [|reflexivity].
    exfalso. apply Hslash. apply in_rev. rewrite E. now left.
Qed.

Lemma getPlanId_ends (prefix name : jsstring) :
  properName name ->
  prefix = [] \/ (exists q, prefix = q ++ [Path.slash]) ->
  getPlanId (prefix ++ name ++ js "/plan.md") = name.
Proof.
  intros [Hne [Hslash _]] Hprefix.
  assert (Hrev : ~ In Path.slash (rev name)).
  { intros H. apply Hslash. now apply in_rev. }
  unfold getPlanId.
  assert (Hdir : Path.dirname (prefix ++ name ++ js "/plan.md")
                 = prefix ++ name).
  { unfold Path.dirname. rewrite !rev_app_distr.
    change (rev (js "/plan.md")) with (js "dm.nalp" ++ [Path.slash]).
    rewrite <- !app_assoc.
    change (Path.dropTrailingSlashes (js "dm.nalp" ++ ?x))
      with (js "dm.nalp" ++ x).
    rewrite (dropUntilSlash_app (js "dm.nalp"))
      by (vm_compute; intuition discriminate).
    cbn [app Path.dropUntilSlash]. rewrite N.eqb_refl.
    cbn [Path.dropTrailingSlashes]. rewrite N.eqb_refl.
    rewrite dropTrailingSlashes_name by assumption.
    destruct (rev name ++ rev prefix) as [|c r] eqn:E.
    - exfalso. apply Hne. apply app_eq_nil in E as [E _].
      rewrite <- (rev_involutive name), E. reflexivity.
    - rewrite <- E, rev_app_distr, !rev_involutive. reflexivity. }
  rewrite Hdir. unfold Path.basename. rewrite rev_app_distr.
  rewrite dropTrailingSlashes_name by assumption.
  rewrite dropUntilSlash_app by exact Hrev.
  destruct Hprefix as [->|[q ->]].
  - cbn [rev Path.dropUntilSlash app]. rewrite app_nil_r, Nat.sub_0_r.
    rewrite firstn_all. apply rev_involutive.
  - rewrite rev_app_distr. cbn [rev app Path.dropUntilSlash].
    rewrite N.eqb_refl.
    rewrite length_app, Nat.add_sub, firstn_app, Nat.sub_diag, firstn_all.
    cbn [firstn]. rewrite app_nil_r. apply rev_involutive.
Qed.

(** X14.  From a path of the scan back to the directory: the plan id of the
    [plan.md] path of an entry is the name of the entry, whatever the
    plans directory is. *)
Theorem getPlanId_planMdPath (plansDir : jsstring) (entry : Scanner.Dirent) :
  properName (Scanner.entryName entry) ->
  getPlanId (Scanner.planMdPath plansDir entry) = Scanner.entryName entry.
Proof.
  intros Hname. pose proof Hname as [Hne _].
  unfold Scanner.planMdPath, Path.join.
  set (name := Scanner.entryName entry) in *.
  assert (Hn : JS.eqb name [] = false) by now apply eqb_neq.
  cbn [filter]. rewrite Hn. cbn [negb].
  change (negb (JS.eqb (js "plan.md") [])) with true. cbv iota.
  destruct (JS.eqb plansDir []) eqn:Ed; cbn [negb].
  - cbn [JS.join].
    destruct (normalize_plan_path [] name Hname (or_introl eq_refl))
      as [prefix [E Hprefix]].
    cbn [app] in E.
    change (name ++ [Path.slash] ++ js "plan.md")
      with (name ++ js "/plan.md").
    rewrite E. now apply getPlanId_ends.
  - cbn [JS.join].
    destruct (normalize_plan_path (plansDir ++ [Path.slash]) name Hname)
      as [prefix [E Hprefix]]; [right; eauto|].
    replace (plansDir ++ [Path.slash] ++ name ++ [Path.slash] ++ js "plan.md")
      with ((plansDir ++ [Path.slash]) ++ name ++ js "/plan.md")
      by (rewrite <- !app_assoc; reflexivity).
    rewrite E. now apply getPlanId_ends.
Qed.

Lemma getPlanId_planMdPath_witness :
  getPlanId
    (Scanner.planMdPath (js "/w/../w/plans/")
       (Scanner.mkDirent (js "260101-a") true))
  = js "260101-a".
Proof.
  apply (getPlanId_planMdPath (js "/w/../w/plans/")
           (Scanner.mkDirent (js "260101-a") true)).
  unfold properName. cbn [Scanner.entryName].
  repeat split; try discriminate.
  vm_compute. intuition discriminate.
Defined.

(* ===================================================================== *)
(** ** Properties of the projects *)
(* ===================================================================== *)

Lemma fold_left_sum {A} (f : A -> nat) (l : list A) (acc : nat) :
  fold_left (fun sum p => (sum + f p)%nat) l acc
  = (acc + list_sum (map f l))%nat.
Proof.
  revert acc. induction l as [|x l IH]; intros acc; cbn [fold_left map].
  - cbn. lia.
  - rewrite IH.
    change (list_sum (f x :: map f l)) with (f x + list_sum (map f l))%nat.
    lia.
Qed.

Section ProjectProperties.

Variable matter : jsstring -> outcome frontdata.
Variable fs : filesystem.
Variable readdir : jsstring -> outcome (list Scanner.Dirent).
Variable localeCompare : jsstring -> jsstring -> Z.

Lemma planOf_path (planFile : jsstring) (plan : PlanData) :
  PlansProject.planOf matter fs planFile = Some plan ->
  planPath plan = planFile
  /\ (completedCount plan <= totalCount plan)%nat.
Proof.
  unfold PlansProject.planOf.
  destruct (extractPlanData matter fs planFile) as [p|] eqn:E;
    [|discriminate].
  intros H. injection H as <-.
  destruct (extractPlanData_counts matter fs planFile p E) as [Hc [Ht _]].
  split.
  - unfold extractPlanData in E.
    destruct (fs planFile); try discriminate.
    destruct (parsePlanTable matter fs planFile); [|discriminate].
    injection E as <-. reflexivity.
  - rewrite Hc, Ht. apply filter_length_le.
Qed.

(** The plans that [refresh] keeps: those of the files that can be read,
    in the order of the scan. *)
Lemma kept_paths (planFiles : list jsstring) :
  map planPath
    (flat_map PlansProject.keep (map (PlansProject.planOf matter fs) planFiles))
  = filter (fun planFile =>
              match readFile fs planFile with
              | Returned _ => true
              | Thrown => false
              end) planFiles.
Proof.
  assert (Hone : forall f,
             map planPath
               (PlansProject.keep (PlansProject.planOf matter fs f))
             = if match readFile fs f with
                  | Returned _ => true
                  | Thrown => false
                  end
               then [f] else []).
  { intros f. destruct (PlansProject.planOf matter fs f) as [plan|] eqn:E.
    - destruct (planOf_path f plan E) as [Hpath _].
      unfold PlansProject.planOf in E. unfold readFile.
      destruct (fs f) as [| |content mtime] eqn:Ef;
        try (unfold extractPlanData in E; rewrite Ef in E; discriminate E).
      cbn [PlansProject.keep map]. now rewrite Hpath.
    - unfold PlansProject.planOf in E. unfold readFile.
      destruct (fs f) as [| |content mtime] eqn:Ef; try reflexivity.
      destruct (extractPlanData_returns matter fs f content mtime Ef)
        as [plan Hplan].
      rewrite Hplan in E. discriminate E. }
  induction planFiles as [|f fs' IH]; [reflexivity|].
  cbn [map flat_map filter]. rewrite map_app, IH, Hone.
  destruct (match readFile fs f with Returned _ => true | Thrown => false end);
    reflexivity.
Qed.

(** X15.  What [refresh] leaves behind.  When the scan throws, the project is
    as it was and no listener is told.  Otherwise the listeners are told
    once, the plans are those of the scanned files that can be read, in
    the order of the scan, the two totals are the sums over these plans,
    and no more phases are completed than there are. *)
Theorem refresh_progress (project : PlansProject.PlansProject) :
  let scan :=
    Scanner.scanPlansDirectory fs readdir localeCompare
      (PlansProject.plansPath project) in
  let after := PlansProject.refresh matter fs readdir localeCompare project in
  (scan = Thrown -> after = project)
  /\ (forall planFiles,
        scan = Returned planFiles ->
        exists pr,
          PlansProject.progress after = Some pr
          /\ PlansProject.fired after = S (PlansProject.fired project)
          /\ map planPath (Progress.plans pr)
             = filter (fun planFile =>
                         match readFile fs planFile with
                         | Returned _ => true
                         | Thrown => false
                         end) planFiles
          /\ Progress.totalPhases pr
             = list_sum (map totalCount (Progress.plans pr))
          /\ Progress.completedPhases pr
             = list_sum (map completedCount (Progress.plans pr))
          /\ (Progress.completedPhases pr <= Progress.totalPhases pr)%nat).
Proof.
  intros scan after. subst scan after. unfold PlansProject.refresh. split.
  - intros ->. reflexivity.
  - intros planFiles ->. eexists. split; [reflexivity|].
    cbn [PlansProject.fired Progress.plans Progress.totalPhases
           Progress.completedPhases].
    split; [reflexivity|]. split; [apply kept_paths|].
    rewrite !fold_left_sum. cbn [Nat.add].
    split; [reflexivity|]. split; [reflexivity|].
    induction planFiles as [|f fs' IH]; [cbn; lia|].
    cbn [map flat_map]. rewrite !map_app, !list_sum_app.
    destruct (PlansProject.planOf matter fs f) as [plan|] eqn:E.
    + destruct (planOf_path f plan E) as [_ Hle].
      cbn [PlansProject.keep map].
      change (list_sum [completedCount plan])
        with (completedCount plan + 0)%nat.
      change (list_sum [totalCount plan]) with (totalCount plan + 0)%nat.
      lia.
    + exact IH.
Qed.

End ProjectProperties.

Lemma refresh_progress_witness :
  exists pr,
    PlansProject.progress
      (PlansProject.refresh noFrontMatter sampleTree sampleEntries
         sampleCollation sampleProject) = Some pr
    /\ PlansProject.fired
         (PlansProject.refresh noFrontMatter sampleTree sampleEntries
            sampleCollation sampleProject)
       = S (PlansProject.fired sampleProject)
    /\ map planPath (Progress.plans pr)
       = filter (fun planFile =>
                   match readFile sampleTree planFile with
                   | Returned _ => true
                   | Thrown => false
                   end)
           [js "/w/plans/260102-b/plan.md"; js "/w/plans/260101-a/plan.md"]
    /\ Progress.totalPhases pr
       = list_sum (map totalCount (Progress.plans pr))
    /\ Progress.completedPhases pr
       = list_sum (map completedCount (Progress.plans pr))
    /\ (Progress.completedPhases pr <= Progress.totalPhases pr)%nat.
Proof.
  apply (proj2 (refresh_progress noFrontMatter sampleTree sampleEntries
                  sampleCollation sampleProject)).
  vm_compute. reflexivity.
Defined.

Lemma collect_sums (projects : list PlansProject.PlansProject) :
  forall allPlans totalPhases completedPhases,
    Extension.collect projects allPlans totalPhases completedPhases
    = (allPlans ++ flat_map plansOf projects,
       (totalPhases
        + list_sum (map (fun project =>
                           match PlansProject.progress project with
                           | Some pr => Progress.totalPhases pr
                           | None => 0
                           end) projects))%nat,
       (completedPhases
        + list_sum (map (fun project =>
                           match PlansProject.progress project with
                           | Some pr => Progress.completedPhases pr
                           | None => 0
                           end) projects))%nat).
Proof.
  induction projects as [|project projects IH];
    intros allPlans totalPhases completedPhases.
  - cbn. now rewrite app_nil_r, !Nat.add_0_r.
  - cbn [Extension.collect flat_map map].
    unfold PlansProject.getProgress, plansOf at 1.
    change (list_sum (?x :: ?l)) with (x + list_sum l)%nat.
    destruct (PlansProject.progress project) as [pr|]; rewrite IH.
    + rewrite <- app_assoc. f_equal; [f_equal|]; lia.
    + reflexivity.
Qed.

Lemma update_progress (bar : StatusBar.PlansStatusBar) :
  StatusBar.progress (fst (StatusBar.update bar)) = StatusBar.progress bar.
Proof.
  unfold StatusBar.update.
  destruct (StatusBar.progress bar) as [pr|] eqn:E; [|now rewrite <- E].
  destruct (_ =? _)%nat; [reflexivity|].
  destruct (StatusBar.findCurrentPlan bar); [|reflexivity].
  destruct (StatusBar.truncateName _ _); reflexivity.
Qed.

(** X16.  The aggregate over the projects holds the plans of all projects that
    have progress, project after project; the tree and the status bar are
    given these same plans; and when the totals of every project are the
    sums over its plans, as [refresh] leaves them, so are the totals of
    the aggregate. *)
Theorem updateUIFromProjects_totals
  (projects : list PlansProject.PlansProject) (ui : Extension.UI) :
  let aggregate := Extension.aggregateProgress projects in
  let shown := fst (Extension.updateUIFromProjects projects ui) in
  Progress.plans aggregate = flat_map plansOf projects
  /\ TreeProvider.plans (Extension.treeProvider shown)
     = Progress.plans aggregate
  /\ StatusBar.progress (Extension.statusBar shown) = Some aggregate
  /\ ((forall project pr,
         In project projects ->
         PlansProject.progress project = Some pr -> sumsOverPlans pr) ->
      sumsOverPlans aggregate).
Proof.
  intros aggregate shown.
  assert (Hplans : Progress.plans aggregate = flat_map plansOf projects).
  { subst aggregate. unfold Extension.aggregateProgress.
    rewrite collect_sums. reflexivity. }
  split; [exact Hplans|]. split; [|split].
  - subst shown. unfold Extension.updateUIFromProjects. fold aggregate.
    destruct (StatusBar.setProgress _ _). reflexivity.
  - subst shown. unfold Extension.updateUIFromProjects. fold aggregate.
    unfold StatusBar.setProgress.
    pose proof (update_progress
                  (StatusBar.mkBar
                     (StatusBar.statusBarItem (Extension.statusBar ui))
                     (StatusBar.currentPlan (Extension.statusBar ui))
                     (Some aggregate))) as Hp.
    destruct (StatusBar.update _) as [bar how]. exact Hp.
  - intros Hall. unfold sumsOverPlans. rewrite Hplans.
    subst aggregate. unfold Extension.aggregateProgress.
    rewrite collect_sums.
    cbn [Progress.totalPhases Progress.completedPhases Nat.add].
    clear Hplans shown. induction projects as [|project projects IH].
    + split; reflexivity.
    + cbn [map flat_map]. rewrite !map_app, !list_sum_app.
      change (list_sum (?x :: ?l)) with (x + list_sum l)%nat.
      destruct IH as [IHt IHc].
      { intros p pr Hp. apply Hall. now right. }
      rewrite IHt, IHc.
      destruct (PlansProject.progress project) as [pr|] eqn:E.
      * assert (Hpl : plansOf project = Progress.plans pr)
          by (unfold plansOf; now rewrite E).
        rewrite Hpl.
        destruct (Hall project pr (or_introl eq_refl) E) as [-> ->].
        split; reflexivity.
      * assert (Hpl : plansOf project = [])
          by (unfold plansOf; now rewrite E).
        rewrite Hpl. split; reflexivity.
Qed.

Lemma updateUIFromProjects_totals_witness :
  sumsOverPlans (Extension.aggregateProgress [refreshedProject; sampleProject]).
Proof.
  apply (proj2 (proj2 (proj2 (updateUIFromProjects_totals
                                [refreshedProject; sampleProject] sampleUI)))).
  intros project pr [<-|[<-|[]]] Hpr.
  - vm_compute in Hpr. injection Hpr as <-. split; reflexivity.
  - discriminate Hpr.
Defined.

(* ===================================================================== *)
(** ** Properties of names, headers and status cells *)
(* ===================================================================== *)

Lemma split_pieces (sep : N) (s piece : jsstring) :
  In piece (split sep s) -> ~ In sep piece.
Proof.
  revert piece. induction s as [|c s IH]; intros piece; cbn [split].
  - intros [<-|[]] [].
  - destruct (split sep s) as [|p ps] eqn:E.
    { exfalso. exact (split_not_nil sep s E). }
    destruct (N.eqb_spec c sep) as [->|Hc].
    + intros [<-|Hp]; [intros []|]. now apply IH.
    + intros [<-|Hp].
      * intros [Heq|Hin]; [congruence|]. apply (IH p); [now left|exact Hin].
      * apply IH. now right.
Qed.

Lemma upperUnit_no_hyphen (c : N) : c <> 45 -> ~ In 45 (upperUnit c).
Proof.
  intros Hc. unfold upperUnit, between.
  repeat match goal with
         | |- context [if ?b then _ else _] => destruct b eqn:?
         end;
    cbn [In]; intros H;
    repeat match goal with
           | H : _ \/ _ |- _ => destruct H as [H|H]
           | H : False |- _ => contradiction
           | H : (_ && _) = true |- _ => apply andb_true_iff in H as [? ?]
           | H : (_ || _) = true |- _ => apply orb_true_iff in H as [H|H]
           | H : (_ <=? _) = true |- _ => apply N.leb_le in H
           | H : (_ =? _) = true |- _ => apply N.eqb_eq in H
           end;
    try lia; try discriminate.
Qed.


(** X18.  Only the first fifty lines of a plan count for the metadata of its
    header: whatever follows them changes nothing. *)
Theorem extractFromHeader_first_lines (lines : list jsstring)
  (rest : jsstring) :
  Forall (fun l => ~ In 10 l) lines ->
  (50 <= length lines)%nat ->
  extractFromHeader (text lines ++ rest) = extractFromHeader (text lines).
Proof.
  intros Hlines Hlen.
  assert (Hsection : firstn 50 (split 10 (text lines ++ rest))
                     = firstn 50 (split 10 (text lines))).
  { rewrite <- (app_nil_r (text lines)) at 2.
    rewrite !split_text by exact Hlines.
    rewrite !firstn_app.
    replace (50 - length lines)%nat with 0%nat by lia. reflexivity. }
  unfold extractFromHeader. rewrite Hsection. reflexivity.
Qed.

Lemma extractFromHeader_first_lines_witness :
  extractFromHeader
    (text (js "**Status:** Done" :: repeat [] 49) ++ js "**Priority:** P1")
  = extractFromHeader (text (js "**Status:** Done" :: repeat [] 49)).
Proof.
  apply (extractFromHeader_first_lines
           (js "**Status:** Done" :: repeat [] 49) (js "**Priority:** P1")).
  - constructor; [vm_compute; intuition discriminate|].
    apply Forall_forall. intros l Hl. apply repeat_spec in Hl. subst l.
    intros [].
  - cbn. lia.
Defined.

(** X19.  A cell that holds a status keyword in any mix of cases, with any
    text around it, is a valid status. *)
Theorem isValidStatus_keyword (pre variant post kw : jsstring) :
  In kw STATUS_KEYWORDS ->
  toLowerCase variant = kw ->
  isValidStatus (pre ++ variant ++ post) = true.
Proof.
  intros Hkw Hvariant. unfold isValidStatus. apply existsb_exists.
  exists kw. split; [exact Hkw|].
  rewrite includes_trim.
  - unfold toLowerCase. rewrite !flat_map_app. fold (toLowerCase variant).
    rewrite Hvariant. apply includes_app. eauto.
  - clear Hvariant. unfold STATUS_KEYWORDS in Hkw. cbn [In] in Hkw.
    repeat (destruct Hkw as [<-|Hkw]; [vm_compute; auto|]).
    contradiction.
Qed.

Lemma isValidStatus_keyword_witness :
  isValidStatus (js "Now " ++ js "In Progress" ++ js " (50%)") = true.
Proof.
  apply (isValidStatus_keyword (js "Now ") (js "In Progress") (js " (50%)")
           (js "in progress")).
  - unfold STATUS_KEYWORDS. cbn [In]. right. right. left. reflexivity.
  - vm_compute. reflexivity.
Defined.

(* ===================================================================== *)
(** ** Properties of the effort parser *)
(* ===================================================================== *)

Lemma rmatch_unit (p : N -> bool) (k : mstate -> option mstate)
  (b : jsstring) (c : N) (a : jsstring) (cs : list (nat * jsstring)) :
  rmatch (Unit p) k (MState b (c :: a) cs)
  = if p c then k (MState (c :: b) a cs) else None.
Proof. reflexivity. Qed.

(** A greedy run of digits takes every digit before a unit that is not a
    digit, when what follows accepts that. *)
Lemma star_digits_greedy (k : mstate -> option mstate) (rest : jsstring)
  (cs : list (nat * jsstring)) (e : mstate) :
  match rest with [] => True | c :: _ => isDigit c = false end ->
  forall ds b,
    Forall (fun c => isDigit c = true) ds ->
    k (MState (rev ds ++ b) rest cs) = Some e ->
    rmatch (Star digit) k (MState b (ds ++ rest) cs) = Some e.
Proof.
  intros Hrest. induction ds as [|d ds IH]; intros b Hds Hk;
    rewrite rmatch_star; unfold digit at 1.
  - cbn [app rev] in *.
    destruct rest as [|c rest']; [exact Hk|].
    rewrite rmatch_unit, Hrest. exact Hk.
  - inversion Hds as [|? ? Hd Hds']; subst.
    cbn [app]. rewrite rmatch_unit, Hd.
    unfold remaining. cbn [after length].
    destruct (Nat.ltb_spec (length (ds ++ rest)) (S (length (ds ++ rest))));
      [|lia].
    rewrite (IH (d :: b) Hds'); [reflexivity|].
    cbn [rev] in Hk. rewrite <- app_assoc in Hk. exact Hk.
Qed.

Lemma hours_match (d : N) (ds rest : jsstring) :
  isDigit d = true -> Forall (fun c => isDigit c = true) ds ->
  exists m,
    exec reHours (d :: ds ++ js "h" ++ rest) = Some m
    /\ group' 1 m = d :: ds.
Proof.
  intros Hd Hds. unfold exec.
  assert (Hm : exists e,
             rmatch reHours Some (MState [] (d :: ds ++ js "h" ++ rest) [])
             = Some e
             /\ caps e = [(1%nat, d :: ds)]).
  { unfold reHours. cbn [CatAll AltAll].
    change (js "h" ++ rest) with (104 :: rest).
    change (rmatch (Cat (Group 1 (Cat (Plus digit) ?o)) ?r) Some ?s)
      with (rmatch digit
              (rmatch (Star digit)
                 (rmatch o
                    (fun s1 =>
                       rmatch r Some
                         (MState (before s1) (after s1)
                            ((1%nat,
                              firstn (length (after s) - length (after s1))
                                (after s)) :: caps s1))))) s).
    unfold digit at 1. rewrite rmatch_unit, Hd.
    eexists. split.
    - apply star_digits_greedy; [reflexivity|exact Hds|].
      vm_compute. reflexivity.
    - exact (f_equal (fun g => [(1%nat, g)])
               (firstn_consumed (d :: ds) (104 :: rest))). }
  destruct Hm as [e [He Hcaps]].
  destruct (length _); cbn [searchFrom]; unfold matchAt, start;
    cbn [before after]; rewrite He; (eexists; split; [reflexivity|]);
    unfold group', group; cbn [groups]; rewrite Hcaps; reflexivity.
Qed.

Lemma lowerUnit_no_digit (c : N) :
  isDigit c = false -> Forall (fun x => isDigit x = false) (lowerUnit c).
Proof.
  unfold isDigit, lowerUnit, between. intros Hc.
  apply andb_false_iff in Hc.
  repeat match goal with
         | |- context [if ?b then _ else _] => destruct b eqn:?
         end;
    repeat match goal with
           | H : _ && _ = true |- _ => apply andb_true_iff in H; destruct H
           | H : _ || _ = true |- _ =>
               apply orb_true_iff in H; destruct H
           | H : (_ <=? _) = true |- _ => apply N.leb_le in H
           | H : (_ =? _) = true |- _ => apply N.eqb_eq in H
           end;
    repeat constructor; apply andb_false_iff;
    try (left; apply N.leb_gt; lia); try (right; apply N.leb_gt; lia);
    destruct Hc as [Hc|Hc]; apply N.leb_gt in Hc;
      [left|right]; apply N.leb_gt; lia.
Qed.

Lemma Forall_trim (P : N -> Prop) (s : jsstring) :
  Forall P s -> Forall P (trim s).
Proof.
  assert (Hstart : forall t, Forall P t -> Forall P (trimStart t)).
  { induction 1 as [|c t Hc Ht IH]; cbn [trimStart]; [constructor|].
    destruct (isWhiteSpace c); [exact IH|now constructor]. }
  intros Hs. unfold trim, trimEnd.
  apply Forall_rev, Hstart, Forall_rev, Hstart, Hs.
Qed.

(** A pattern that cannot start where there is no digit finds nothing in
    a text without digits. *)
Lemma exec_needs_digit (r : regex) (input : jsstring) :
  (forall s,
     match after s with [] => True | c :: _ => isDigit c = false end ->
     matchAt r s = None) ->
  Forall (fun c => isDigit c = false) input ->
  exec r input = None.
Proof.
  intros Hr Hinput. unfold exec, start.
  generalize (length input) as fuel. generalize (@nil N) as b.
  induction Hinput as [|c input Hc Hin IH]; intros b fuel.
  - destruct fuel; cbn [searchFrom]; rewrite Hr; reflexivity.
  - destruct fuel; cbn [searchFrom]; rewrite Hr by exact Hc;
      [reflexivity|].
    cbn [after]. destruct (codePointAt (c :: input)) as [[cp n]|];
      [|reflexivity].
    apply IH.
Qed.

Lemma effort_patterns_need_digit (s : mstate) :
  match after s with [] => True | c :: _ => isDigit c = false end ->
  matchAt reHours s = None /\ matchAt reMinutes s = None
  /\ matchAt reDays s = None.
Proof.
  destruct s as [b a cs]. cbn [after]. intros Ha.
  unfold matchAt, reHours, reMinutes, reDays. cbn [CatAll before after].
  unfold Plus, digit.
  destruct a as [|c a]; cbn [rmatch after]; [auto|]. rewrite Ha. auto.
Qed.

(** X20.  Without a digit there is no effort: [undefined], the empty string and
    every string that holds no digit give 0. *)
Theorem parseEffortToHours_no_digit (effort : jsstring) :
  parseEffortToHours None = 0%float
  /\ (Forall (fun c => isDigit c = false) effort ->
      parseEffortToHours (Some effort) = 0%float).
Proof.
  split; [reflexivity|]. intros Heffort. unfold parseEffortToHours.
  destruct (negb (nonEmpty effort)); [reflexivity|].
  assert (Hstr : Forall (fun c => isDigit c = false)
                   (trim (toLowerCase effort))).
  { apply Forall_trim. unfold toLowerCase.
    induction Heffort as [|c t Hc _ IH]; [constructor|].
    cbn [flat_map]. apply Forall_app. split; [|exact IH].
    now apply lowerUnit_no_digit. }
  rewrite !exec_needs_digit; try exact Hstr; try reflexivity;
    intros s Hs; apply (effort_patterns_need_digit s Hs).
Qed.

Lemma parseEffortToHours_no_digit_witness :
  parseEffortToHours (Some (js "Soon, maybe")) = 0%float.
Proof.
  apply (proj2 (parseEffortToHours_no_digit (js "Soon, maybe"))).
  repeat constructor.
Defined.

(** X21.  Hours win: when the lowercased and trimmed effort starts with digits
    and an h, the effort is the number of these digits, whatever follows,
    minutes and days included. *)
Theorem parseEffortToHours_hours_first (effort ds rest : jsstring) :
  ds <> [] ->
  Forall (fun c => isDigit c = true) ds ->
  trim (toLowerCase effort) = ds ++ js "h" ++ rest ->
  parseEffortToHours (Some effort) = JSNumber.parseIntNumber ds.
Proof.
  intros Hne Hds Hstr. unfold parseEffortToHours.
  assert (Heffort : nonEmpty effort = true).
  { destruct effort; [|reflexivity]. destruct ds; [congruence|].
    discriminate Hstr. }
  rewrite Heffort, Hstr. cbn [negb].
  destruct ds as [|d ds']; [congruence|].
  inversion Hds as [|? ? Hd Hds']; subst.
  change ((d :: ds') ++ js "h" ++ rest) with (d :: ds' ++ js "h" ++ rest).
  destruct (hours_match d ds' rest Hd Hds') as [m [-> ->]].
  unfold JSNumber.parseFloat, JSNumber.parseIntNumber.
  rewrite split_single; [reflexivity|].
  intros Hin. rewrite Forall_forall in Hds. specialize (Hds 46 Hin).
  discriminate Hds.
Qed.

Lemma parseEffortToHours_hours_first_witness :
  parseEffortToHours (Some (js " 2H 30m ")) = JSNumber.parseIntNumber (js "2").
Proof.
  apply (parseEffortToHours_hours_first (js " 2H 30m ") (js "2") (js " 30m")).
  - discriminate.
  - repeat constructor.
  - vm_compute. reflexivity.
Defined.

(* ===================================================================== *)
(** ** Properties of the phase files and of the two normalizers *)
(* ===================================================================== *)

(** X22.  Reading the metadata of a phase file throws exactly when the path
    can be accessed and cannot be read as a file, as for a directory; a
    path that cannot be accessed gives no metadata. *)
Theorem extractPhaseMetadata_throws_iff
  (matter : jsstring -> outcome frontdata) (fs : filesystem)
  (filePath : jsstring) :
  (extractPhaseMetadata matter fs filePath = Thrown
   <-> fs filePath = Directory)
  /\ (fs filePath = NoAccess ->
      extractPhaseMetadata matter fs filePath = Returned None).
Proof.
  unfold extractPhaseMetadata, access, readFile.
  destruct (fs filePath) as [| |content mtime]; cbn [negb].
  - split; [split; discriminate|reflexivity].
  - split; [split; reflexivity|discriminate].
  - split; [|discriminate]. split; [|discriminate].
    destruct (extractFromOverviewTable content); [discriminate|].
    destruct (extractFromInlineMetadata content); [discriminate|].
    destruct (PhaseMetadataExtractor.extractFromFrontmatter matter content);
      discriminate.
Qed.

Lemma extractPhaseMetadata_throws_iff_witness :
  extractPhaseMetadata noFrontMatter sampleTree (js "/w/plans/phase-01.md")
  = Returned None.
Proof.
  apply (proj2 (extractPhaseMetadata_throws_iff noFrontMatter sampleTree
                  (js "/w/plans/phase-01.md"))).
  vm_compute. reflexivity.
Defined.

(** X23.  The normalizer of plan metadata is the stricter of the two: a text
    that it reads as completed or in progress is read the same by the
    normalizer of phase statuses; what it reads as cancelled is pending
    for a phase. *)
Theorem normalizers_agree (s : jsstring) :
  (normalizeMetadataStatus (VString s) = plan_completed ->
   normalizeStatus s = completed)
  /\ (normalizeMetadataStatus (VString s) = plan_in_progress ->
      normalizeStatus s = in_progress)
  /\ (normalizeMetadataStatus (VString s) = plan_cancelled ->
      normalizeStatus s = pending).
Proof.
  unfold normalizeMetadataStatus, normalizeStatus. cbn [truthy stringOf].
  destruct (negb (negb (JS.eqb s []))); [repeat split; discriminate|].
  set (t := trim (toLowerCase s)).
  repeat match goal with
         | |- context [JS.eqb t ?k] =>
             destruct (JS.eqb t k) eqn:?;
             [match goal with
              | H : JS.eqb t _ = true |- _ =>
                  apply eqb_eq in H; rewrite H;
                  repeat split; (discriminate || (intros _; reflexivity))
              end|cbn [orb]]
         end.
  repeat split; discriminate.
Qed.

Lemma normalizers_agree_witness :
  normalizeStatus (js " WIP ") = in_progress.
Proof.
  apply (proj1 (proj2 (normalizers_agree (js " WIP ")))).
  vm_compute. reflexivity.
Defined.

Lemma headingLoop_numbers (planFilePath : jsstring) (lines : list jsstring) :
  forall phases currentPhase,
    map phase (headingLoop planFilePath lines phases currentPhase)
    = map phase (phases ++ pushed currentPhase)
      ++ flat_map headingNumber lines
    /\ (Forall (fun p => file p = planFilePath)
          (phases ++ pushed currentPhase) ->
        Forall (fun p => file p = planFilePath)
          (headingLoop planFilePath lines phases currentPhase)).
Proof.
  induction lines as [|line lines IH]; intros phases currentPhase.
  - rewrite headingLoop_nil. cbn [flat_map]. rewrite app_nil_r. auto.
  - cbn [flat_map]. unfold headingNumber at 1.
    destruct (exec reHeading line) as [hm|] eqn:E.
    + rewrite (headingLoop_heading planFilePath _ _ _ _ hm E).
      destruct (applyStatusLine_frame line (openedPhase planFilePath hm))
        as [st ->].
      destruct (IH (phases ++ pushed currentPhase)
                  (Some (withStatus st (openedPhase planFilePath hm))))
        as [IHn IHf].
      split.
      * rewrite IHn. cbn [pushed]. rewrite !map_app. cbn [map app].
        rewrite <- !app_assoc. reflexivity.
      * intros Hf. apply IHf. cbn [pushed]. apply Forall_app. split;
          [exact Hf|]. repeat constructor.
    + rewrite (headingLoop_other planFilePath _ _ _ _ E).
      destruct (IH phases (option_map (applyStatusLine line) currentPhase))
        as [IHn IHf].
      assert (Hsame :
                map phase
                  (pushed (option_map (applyStatusLine line) currentPhase))
                = map phase (pushed currentPhase)
                /\ map file
                     (pushed (option_map (applyStatusLine line) currentPhase))
                   = map file (pushed currentPhase)).
      { destruct currentPhase as [p|]; cbn [option_map pushed map];
          [|auto].
        destruct (applyStatusLine_frame line p) as [st ->].
        destruct p; cbn. auto. }
      destruct Hsame as [Hphase Hfile].
      split.
      * rewrite IHn, !map_app, Hphase. reflexivity.
      * intros Hf. apply IHf.
        apply Forall_app in Hf as [Hf1 Hf2]. apply Forall_app.
        split; [exact Hf1|].
        apply Forall_forall. intros p Hp.
        assert (Hin : In (file p) (map file (pushed currentPhase))).
        { rewrite <- Hfile. now apply in_map. }
        apply in_map_iff in Hin as [p0 [<- Hp0]].
        rewrite Forall_forall in Hf2. now apply Hf2.
Qed.


(* ===================================================================== *)
(** ** Documents without links *)
(* ===================================================================== *)

Lemma matchAt_checkbox_none (s : mstate) :
  ~ In 91 (after s) -> matchAt reCheckbox s = None.
Proof.
  destruct s as [b a cs]. intros Hs. unfold matchAt, reCheckbox.
  cbn [CatAll].
  change (lit "-") with (chr 45) at 1. change (lit "[") with (chr 91) at 1.
  cbn [before after].
  assert (Hrest : forall k,
             rmatch (Cat (chr 45) (Cat (Star space) (Cat (chr 91) k))) Some
               (MState b a []) = None).
  { intros k. cbn [rmatch]. unfold chr at 1. cbn [rmatch after].
    destruct a as [|c t]; [reflexivity|].
    destruct (45 =? c); [|reflexivity].
    rewrite (greedyLoop_space_absent 91); [reflexivity| |].
    - intros s. apply rmatch_chr_absent.
    - unfold advance. cbn [after skipn]. intros H. apply Hs. now right. }
  change (rmatch (Cat (LineStart true) ?r) Some ?s)
    with (match before s with
          | [] => rmatch r Some s
          | c :: _ =>
              if true && isLineTerminator c then rmatch r Some s else None
          end).
  cbn [before].
  destruct b as [|c0 b0]; [|destruct (true && isLineTerminator c0)];
    try reflexivity; now rewrite Hrest.
Qed.

Lemma searchFrom_checkbox_none :
  forall fuel s,
    ~ In 91 (after s) -> searchFrom false reCheckbox fuel s = None.
Proof.
  induction fuel as [|fuel IH]; intros s Hs; cbn [searchFrom];
    rewrite (matchAt_checkbox_none s Hs); [reflexivity|].
  destruct (codePointAt (after s)) as [[cp n]|]; [|reflexivity].
  apply IH. destruct s as [b a cs]. unfold advance. cbn [after] in *.
  destruct a as [|c t]; [exact Hs|].
  cbn [skipn]. intros H. apply Hs. now right.
Qed.

(** X25.  A document without an opening bracket has neither link-first rows
    nor checkbox entries: these two formats give no phase. *)
Theorem no_bracket_no_links (content dir planFilePath : jsstring) :
  ~ In 91 content ->
  parseLinkFirstTable content dir = []
  /\ parseCheckboxList content dir planFilePath = [].
Proof.
  intros H. split; [now apply parseLinkFirstTable_no_bracket|].
  unfold parseCheckboxList, matchAll. cbn [matchesFrom].
  rewrite searchFrom_checkbox_none by exact H. reflexivity.
Qed.

Lemma no_bracket_no_links_witness :
  parseLinkFirstTable headingPlan (js "/plans/a") = []
  /\ parseCheckboxList headingPlan (js "/plans/a") (js "/plans/a/plan.md")
     = [].
Proof.
  apply (no_bracket_no_links headingPlan (js "/plans/a")
           (js "/plans/a/plan.md")).
  intros Hin. vm_compute in Hin.
  repeat (destruct Hin as [Hin|Hin]; [discriminate Hin|]).
  exact Hin.
Defined.

(* ===================================================================== *)
(** ** The table strategy reads no further than the end of a table *)
(* ===================================================================== *)

Lemma findHeader_bound (lines : list jsstring) :
  forall i h,
    findHeader lines i = Some h ->
    (i <= headerIndex h < i + length lines)%nat
    /\ exists line, nth_error lines (headerIndex h - i) = Some line
                    /\ hasPipe line = true.
Proof.
  induction lines as [|line lines IH]; intros i h; [discriminate|].
  cbn [findHeader length]. destruct (hasPipe line) eqn:Hp; cbn [negb].
  - destruct (headerOf i (headerCols line)) as [h'|] eqn:E.
    + intros H. injection H as ->. apply headerOf_index in E.
      rewrite E, Nat.sub_diag. split; [lia|]. exists line. auto.
    + intros H. destruct (IH _ _ H) as [Hb [l [Hl Hpl]]].
      split; [lia|]. exists l.
      replace (headerIndex h - i)%nat with (S (headerIndex h - S i)) by lia.
      auto.
  - intros H. destruct (IH _ _ H) as [Hb [l [Hl Hpl]]].
    split; [lia|]. exists l.
    replace (headerIndex h - i)%nat with (S (headerIndex h - S i)) by lia.
    auto.
Qed.

Lemma findHeader_app_found (a x : list jsstring) :
  forall i h, findHeader a i = Some h -> findHeader (a ++ x) i = Some h.
Proof.
  induction a as [|line a IH]; intros i h; [discriminate|].
  cbn [app findHeader]. destruct (negb (hasPipe line)); [apply IH|].
  destruct (headerOf i (headerCols line)); [auto|apply IH].
Qed.

Lemma findHeader_app_none (a x : list jsstring) :
  forall i,
    findHeader a i = None ->
    findHeader (a ++ x) i = findHeader x (length a + i).
Proof.
  induction a as [|line a IH]; intros i; [reflexivity|].
  cbn [app findHeader length]. destruct (negb (hasPipe line)).
  - intros H. rewrite IH by exact H. f_equal. lia.
  - destruct (headerOf i (headerCols line)); [discriminate|].
    intros H. rewrite IH by exact H. f_equal. lia.
Qed.

Section AfterTheTable.

Variables (dir planFilePath stop : jsstring).
Hypothesis stop_has_no_pipe : hasPipe stop = false.

Lemma parseRows_stop (h : header) (x y : list jsstring) :
  forall a i phases,
    parseRows h dir planFilePath (a ++ stop :: x) i phases
    = parseRows h dir planFilePath (a ++ stop :: y) i phases
    /\ (i < snd (parseRows h dir planFilePath (a ++ stop :: x) i phases)
        <= i + length a + 1)%nat.
Proof.
  induction a as [|line a IH]; intros i phases.
  - cbn [app parseRows]. rewrite stop_has_no_pipe. cbn. split; [reflexivity|lia].
  - cbn [app parseRows length].
    destruct (negb (hasPipe line)); [cbn; split; [reflexivity|lia]|].
    assert (Hrec : forall ph,
               parseRows h dir planFilePath (a ++ stop :: x) (S i) ph
               = parseRows h dir planFilePath (a ++ stop :: y) (S i) ph
               /\ (i < snd (parseRows h dir planFilePath (a ++ stop :: x)
                              (S i) ph)
                   <= i + S (length a) + 1)%nat).
    { intros ph. destruct (IH (S i) ph) as [E B]. split; [exact E|lia]. }
    destruct (_ || _); [apply Hrec|].
    destruct (nth_error _ _); [|apply Hrec].
    destruct (negb _); apply Hrec.
Qed.

Lemma skipTable_stop (x y : list jsstring) :
  forall a i,
    skipTable (a ++ stop :: x) i = skipTable (a ++ stop :: y) i
    /\ (i <= skipTable (a ++ stop :: x) i <= i + length a)%nat.
Proof.
  induction a as [|line a IH]; intros i.
  - cbn [app skipTable]. rewrite stop_has_no_pipe. cbn. split; [reflexivity|lia].
  - cbn [app skipTable length]. destruct (hasPipe line).
    + destruct (IH (S i)) as [E B]. split; [exact E|lia].
    + split; [reflexivity|lia].
Qed.

(** One table read from line [j] of a document that goes on after a line
    without a pipe: the same phases and the same next line, whatever
    follows that line. *)
Lemma parseTableStartingFrom_stop (lines x y : list jsstring) (j : nat)
  (h : header) :
  (j <= length lines)%nat ->
  findHeader (skipn j lines) j = Some h ->
  parseTableStartingFrom (lines ++ stop :: x) j dir planFilePath
  = parseTableStartingFrom (lines ++ stop :: y) j dir planFilePath
  /\ (j < snd (parseTableStartingFrom (lines ++ stop :: x) j dir
                 planFilePath)
      <= length lines + 1)%nat.
Proof.
  intros Hj Hh.
  destruct (findHeader_bound _ _ _ Hh) as [Hb _].
  rewrite length_skipn in Hb.
  assert (Hfind : forall t,
             findHeader (skipn j (lines ++ stop :: t)) j = Some h).
  { intros t. rewrite skipn_app.
    replace (j - length lines)%nat with 0%nat by lia.
    apply findHeader_app_found. exact Hh. }
  assert (Hrows : forall t,
             skipn (S (headerIndex h)) (lines ++ stop :: t)
             = skipn (S (headerIndex h)) lines ++ stop :: t).
  { intros t. rewrite skipn_app.
    replace (S (headerIndex h) - length lines)%nat with 0%nat by lia.
    reflexivity. }
  unfold parseTableStartingFrom. rewrite !Hfind, !Hrows.
  set (a := skipn (S (headerIndex h)) lines).
  assert (Ha : (length a = length lines - S (headerIndex h))%nat)
    by (subst a; apply length_skipn).
  destruct (phaseColIndex h), (nameColIndex h), (descColIndex h);
    try (destruct (parseRows_stop h x y a (S (headerIndex h)) [])
           as [E B]; split; [exact E|lia]).
  destruct (skipTable_stop x y a (S (headerIndex h))) as [E B].
  cbn [snd]. split; [now rewrite E|lia].
Qed.

End AfterTheTable.

Section StableScan.

Variables (dir planFilePath stop : jsstring) (lines : list jsstring).
Hypothesis stop_has_no_pipe : hasPipe stop = false.

(** The scan from line [j] of the document that ends after the line
    without a pipe finds nothing when no header is left before that
    line. *)
Lemma scanTables_nothing_left (j : nat) :
  (j <= length lines + 1)%nat ->
  findHeader (skipn j (lines ++ [stop])) j = None ->
  scanTables (length (lines ++ [stop; []]) - j) (lines ++ [stop; []]) j dir
    planFilePath = [].
Proof.
  intros Hj Hnone. rewrite scanTables_unfold.
  destruct (negb _); [reflexivity|].
  unfold parseTableStartingFrom.
  replace (lines ++ [stop; []]) with ((lines ++ [stop]) ++ [[]])
    by now rewrite <- app_assoc.
  rewrite skipn_app, findHeader_app_none by exact Hnone.
  assert (E : (j - length (lines ++ [stop]) = 0)%nat)
    by (rewrite length_app; cbn [length]; lia).
  rewrite E. cbn [skipn findHeader]. change (hasPipe []) with false.
  cbn [negb length Nat.ltb Nat.leb].
  destruct (Nat.leb_spec (length ((lines ++ [stop]) ++ [[]])) j) as [_|_];
    [reflexivity|].
  now rewrite Nat.sub_diag.
Qed.

Lemma scanTables_stop (y : list jsstring) :
  forall n j,
    (length lines + 1 - j <= n)%nat ->
    (j <= length lines + 1)%nat ->
    scanTables (length (lines ++ [stop; []]) - j) (lines ++ [stop; []]) j
      dir planFilePath <> [] ->
    scanTables (length (lines ++ stop :: y) - j) (lines ++ stop :: y) j dir
      planFilePath
    = scanTables (length (lines ++ [stop; []]) - j) (lines ++ [stop; []]) j
        dir planFilePath.
Proof.
  induction n as [|n IH]; intros j Hn Hj Hfound.
  - exfalso. apply Hfound, scanTables_nothing_left; [exact Hj|].
    rewrite skipn_all2; [reflexivity|].
    rewrite length_app. cbn [length]. lia.
  - destruct (findHeader (skipn j (lines ++ [stop])) j) as [h|] eqn:Hh;
      [|exfalso; apply Hfound, scanTables_nothing_left; assumption].
    assert (Hlt : (j < length lines)%nat).
    { destruct (findHeader_bound _ _ _ Hh) as [Hb [l [Hl Hp]]].
      rewrite length_skipn, length_app in Hb. cbn [length] in Hb.
      destruct (Nat.eq_dec j (length lines)) as [->|]; [|lia].
      rewrite skipn_app, skipn_all, Nat.sub_diag in Hl. cbn in Hl.
      replace (headerIndex h - length lines)%nat with 0%nat in Hl by lia.
      cbn in Hl. injection Hl as <-. congruence. }
    assert (Hh' : findHeader (skipn j lines) j = Some h).
    { rewrite skipn_app in Hh.
      replace (j - length lines)%nat with 0%nat in Hh by lia.
      cbn [skipn] in Hh.
      destruct (findHeader (skipn j lines) j) as [h'|] eqn:E.
      - rewrite (findHeader_app_found _ [stop] _ _ E) in Hh. exact Hh.
      - rewrite findHeader_app_none in Hh by exact E.
        cbn [findHeader] in Hh. rewrite stop_has_no_pipe in Hh.
        discriminate. }
    destruct (parseTableStartingFrom_stop dir planFilePath stop
                stop_has_no_pipe lines [[]] y j h) as [E B];
      [lia|exact Hh'|].
    revert Hfound. rewrite !scanTables_unfold, <- E.
    rewrite !length_app. cbn [length].
    destruct (Nat.ltb_spec j (length lines + S (length y))); [|lia].
    destruct (Nat.ltb_spec j (length lines + 2)); [|lia].
    cbn [negb].
    destruct (parseTableStartingFrom (lines ++ [stop; []]) j dir
                planFilePath) as [phases next].
    cbn [snd] in B.
    destruct (0 <? length phases)%nat; [reflexivity|].
    destruct (Nat.leb_spec next j); [lia|].
    intros Hfound.
    specialize (IH next). rewrite !length_app in IH. cbn [length] in IH.
    apply IH; [lia|lia|exact Hfound].
Qed.

End StableScan.

(** X26.  Once the table strategy has found phases in a document whose last
    line has no pipe, text appended to the document changes nothing:
    the strategy returns the rows of the first table that has some and
    reads no line after the line that ends it. *)
Theorem parseMultiColumnTable_stable
  (lines : list jsstring) (stop : jsstring) (tail : list jsstring)
  (dir planFilePath : jsstring) :
  Forall (fun l => ~ In 10 l) (lines ++ stop :: tail) ->
  hasPipe stop = false ->
  parseMultiColumnTable (text (lines ++ [stop])) dir planFilePath <> [] ->
  parseMultiColumnTable (text (lines ++ stop :: tail)) dir planFilePath
  = parseMultiColumnTable (text (lines ++ [stop])) dir planFilePath.
Proof.
  intros Hlines Hstop Hfound.
  assert (Hshort : Forall (fun l => ~ In 10 l) (lines ++ [stop])).
  { apply Forall_app in Hlines as [H1 H2]. apply Forall_app. split; [exact H1|].
    constructor; [|constructor]. now inversion H2. }
  assert (Hs : forall ls, Forall (fun l => ~ In 10 l) ls ->
                          split 10 (text ls) = ls ++ [[]]).
  { intros ls H. rewrite <- (app_nil_r (text ls)). now rewrite split_text. }
  unfold parseMultiColumnTable in *.
  rewrite (Hs _ Hlines). rewrite (Hs _ Hshort) in *.
  rewrite <- !app_assoc in *. cbn [app] in *.
  pose proof (scanTables_stop dir planFilePath stop lines Hstop
                (tail ++ [[]]) (length lines + 1) 0) as H.
  rewrite !Nat.sub_0_r in H. apply H; [lia|lia|exact Hfound].
Qed.

Lemma parseMultiColumnTable_stable_witness :
  parseMultiColumnTable
    (text ([js "# Plan"; js "| Phase | Name | Status |";
            js "|-------|------|--------|"; js "| 1 | Schema | Done |"]
           ++ [] :: [js "| Phase | Name | Status |";
                     js "| 2 | Routes | Pending |"]))
    (js "/plans/a") (js "/plans/a/plan.md")
  = parseMultiColumnTable
      (text ([js "# Plan"; js "| Phase | Name | Status |";
              js "|-------|------|--------|"; js "| 1 | Schema | Done |"]
             ++ [[]]))
      (js "/plans/a") (js "/plans/a/plan.md").
Proof.
  apply parseMultiColumnTable_stable.
  - repeat constructor; intros H; vm_compute in H;
      repeat (destruct H as [H|H]; [discriminate|]); exact H.
  - reflexivity.
  - vm_compute. discriminate.
Defined.

(* ===================================================================== *)
(** ** The description of a plan *)
(* ===================================================================== *)

(** A match reads a prefix of the input that was left. *)
Lemma reaches_consumes (r : regex) (s s' : mstate) :
  reaches r s s' -> exists ds, after s = ds ++ after s'.
Proof.
  induction 1;
    repeat match goal with
           | H : exists _, _ |- _ => destruct H as [? H]
           end.
  - now exists [].
  - exists [c]. unfold advance. cbn [after]. rewrite H. reflexivity.
  - exists (firstn n (after s)). unfold advance. cbn [after].
    now rewrite firstn_skipn.
  - rewrite IHreaches1, IHreaches2. eexists. now rewrite app_assoc.
  - eauto.
  - eauto.
  - now exists [].
  - rewrite IHreaches1, IHreaches2. eexists. now rewrite app_assoc.
  - now exists [].
  - rewrite IHreaches1, IHreaches2. eexists. now rewrite app_assoc.
  - cbn [after]. eauto.
  - now exists [].
  - now exists [].
  - now exists [].
  - now exists [].
Qed.

(** A pattern without groups leaves the captures as they are. *)
Lemma reaches_groupFree (r : regex) (s s' : mstate) :
  reaches r s s' -> groupFree r = true -> caps s' = caps s.
Proof.
  induction 1; cbn [groupFree]; intros Hg;
    try apply andb_prop in Hg as [Hg1 Hg2];
    try reflexivity; try discriminate; auto.
  - now rewrite IHreaches2, IHreaches1.
  - now rewrite IHreaches2, IHreaches1.
  - now rewrite IHreaches2, IHreaches1.
Qed.

(** The units that a repeated class reads belong to the class. *)
Lemma reaches_Star_Unit (p : N -> bool) (s s' : mstate) :
  reaches (Star (Unit p)) s s' ->
  exists ds, after s = ds ++ after s'
             /\ Forall (fun c => p c = true) ds.
Proof.
  intros H. remember (Star (Unit p)) as r eqn:Er.
  induction H; try discriminate; injection Er as ->.
  - exists []. split; [reflexivity|constructor].
  - destruct (IHreaches2 eq_refl) as (ds & E & F).
    inversion H; subst. exists (c :: ds). split.
    + unfold advance in E. cbn [after] in E.
      match goal with
      | Ha : after s = c :: ?t |- _ =>
          rewrite Ha in E |- *; change (skipn 1 (c :: t)) with t in E
      end.
      now rewrite E.
    + constructor; assumption.
Qed.

Lemma reaches_Plus_Unit (p : N -> bool) (s s' : mstate) :
  reaches (Plus (Unit p)) s s' ->
  exists c ds, after s = c :: ds ++ after s'
               /\ Forall (fun c => p c = true) (c :: ds).
Proof.
  intros H. inversion H as [| | |r1 r2 s0 s1 s2 H1 H2| | | | | | | | | | |];
    subst.
  apply reaches_Star_Unit in H2 as (ds & E & F).
  inversion H1; subst. exists c, ds. split.
  - unfold advance in E. cbn [after] in E.
    match goal with
    | Ha : after s = c :: ?t |- _ =>
        rewrite Ha in E |- *; change (skipn 1 (c :: t)) with t in E
    end.
    now rewrite E.
  - constructor; assumption.
Qed.

(** What a search finds is a match at some place of the input that was
    left. *)
Lemma searchFrom_found (u : bool) (r : regex) :
  forall fuel s m,
    searchFrom u r fuel s = Some m ->
    exists pre here e,
      after s = pre ++ here
      /\ reaches r (MState (rev pre ++ before s) here []) e
      /\ groups m = caps e
      /\ matched m = firstn (length here - length (after e)) here.
Proof.
  induction fuel as [|fuel IH]; intros s m; cbn [searchFrom];
    destruct (matchAt r s) as [m'|] eqn:Hm.
  1,3: intros H; injection H as <-; unfold matchAt in Hm;
    destruct (rmatch r Some _) as [e|] eqn:He; [|discriminate];
    injection Hm as <-; apply rmatch_sound in He as (e' & Hr & He');
    injection He' as ->; exists [], (after s), e;
    cbn [rev app groups matched]; auto.
  - discriminate.
  - destruct (codePointAt (after s)) as [[cp n]|]; [|discriminate].
    intros H. apply IH in H as (pre & here & e & Ha & Hr & Hg & Hmt).
    unfold advance in Ha, Hr. cbn [after before] in Ha, Hr.
    exists (firstn (if u then n else 1%nat) (after s) ++ pre), here, e.
    repeat split; [| |exact Hg|exact Hmt].
    + rewrite <- app_assoc, <- Ha. now rewrite firstn_skipn.
    + now rewrite rev_app_distr, <- app_assoc.
Qed.

Lemma reaches_Cat_inv (r1 r2 : regex) (s e : mstate) :
  reaches (Cat r1 r2) s e ->
  exists s1, reaches r1 s s1 /\ reaches r2 s1 e.
Proof. intros H. inversion H; subst. eauto. Qed.

(** A group around a repeated class, entered without captures, captures
    units of the class, and at least one. *)
Lemma reaches_Group_Plus_Unit (i : nat) (p : N -> bool) (s e : mstate) :
  reaches (Group i (Plus (Unit p))) s e ->
  exists c ds, caps e = (i, c :: ds) :: caps s
               /\ Forall (fun c => p c = true) (c :: ds).
Proof.
  intros H. inversion H as [| | | | | | | | | |i' r' s0 s1 H1| | | |]; subst.
  pose proof (reaches_groupFree _ _ _ H1 eq_refl) as Hc.
  apply reaches_Plus_Unit in H1 as (c & ds & E & F).
  exists c, ds. split; [|exact F]. cbn [caps]. rewrite Hc, E.
  change (c :: ds ++ after s1) with ((c :: ds) ++ after s1).
  now rewrite firstn_consumed.
Qed.

Lemma reOverview_group (content : jsstring) (m : rmatched) :
  exec reOverview content = Some m ->
  Forall plainUnit (group' 1 m).
Proof.
  unfold exec. intros H.
  apply searchFrom_found in H as (pre & here & e & _ & Hr & Hg & _).
  change reOverview
    with (Cat (lit "##")
            (Cat (Star space)
               (Cat (litI "Overview")
                  (Cat (Star space)
                     (Cat (Plus (chr 10))
                        (Group 1 (Plus (Unit (noneOf [10; 35])))))))))
    in Hr.
  repeat match goal with
         | H : reaches (Cat ?r _) _ _ |- _ =>
             apply reaches_Cat_inv in H as (? & ?%reaches_groupFree & H);
             [|reflexivity]
         end.
  apply reaches_Group_Plus_Unit in Hr as (c & ds & Hc & F).
  unfold group', group. rewrite Hg, Hc. cbn [find fst snd Nat.eqb].
  eapply Forall_impl; [|exact F].
  intros a Ha. unfold noneOf in Ha. cbn [existsb] in Ha.
  apply negb_true_iff in Ha. rewrite orb_false_r in Ha.
  apply orb_false_iff in Ha as [Hfeed Hsign].
  split; intros ->; discriminate.
Qed.

Lemma trimStart_suffix (s : jsstring) :
  exists pre, s = pre ++ trimStart s.
Proof.
  induction s as [|c t [pre IH]]; [now exists []|].
  cbn [trimStart]. destruct (isWhiteSpace c); [|now exists []].
  exists (c :: pre). cbn [app]. now rewrite <- IH.
Qed.

Lemma trimStart_closed (body : jsstring) (c : N) :
  isWhiteSpace c = false ->
  exists body', trimStart (body ++ [c]) = body' ++ [c]
                /\ exists pre, body = pre ++ body'.
Proof.
  intros Hc. induction body as [|b body (body' & E & pre & Hp)].
  - cbn [app trimStart]. rewrite Hc. exists []. split; [reflexivity|].
    now exists [].
  - cbn [app trimStart]. destruct (isWhiteSpace b).
    + exists body'. split; [exact E|]. exists (b :: pre). cbn [app].
      now rewrite <- Hp.
    + exists (b :: body). split; [reflexivity|]. now exists [].
Qed.

Lemma trimEnd_closed (body : jsstring) (c : N) :
  isWhiteSpace c = false -> trimEnd (body ++ [c]) = body ++ [c].
Proof.
  intros Hc. unfold trimEnd. rewrite rev_app_distr. cbn [rev app trimStart].
  rewrite Hc. cbn [rev]. now rewrite rev_involutive.
Qed.

Lemma trim_length (s : jsstring) : (length (trim s) <= length s)%nat.
Proof.
  assert (Hstart : forall t, (length (trimStart t) <= length t)%nat).
  { intros t. destruct (trimStart_suffix t) as [pre E].
    rewrite E at 2. rewrite length_app. lia. }
  unfold trim, trimEnd. rewrite length_rev.
  etransitivity; [apply Hstart|]. rewrite length_rev. apply Hstart.
Qed.

Lemma endsSentence_class (c : N) :
  oneOf (js ".!?") c = true -> endsSentence c /\ isWhiteSpace c = false.
Proof.
  unfold oneOf. change (js ".!?") with [46; 33; 63]. cbn [existsb].
  rewrite !orb_true_iff, !N.eqb_eq. unfold endsSentence.
  intros [->|[->|[->|H]]]; [| | |discriminate];
    (split; [tauto|reflexivity]).
Qed.

(** The first sentence of a text: units that end no sentence, then one
    that does. *)
Lemma reFirstSentence_matched (desc : jsstring) (m : rmatched) :
  exec reFirstSentence desc = Some m ->
  exists body c pre post,
    matched m = body ++ [c]
    /\ desc = pre ++ body ++ c :: post
    /\ Forall (fun a => ~ endsSentence a) body
    /\ endsSentence c /\ isWhiteSpace c = false.
Proof.
  unfold exec. intros H.
  apply searchFrom_found in H as (pre & here & e & Ha & Hr & _ & Hm).
  cbn [start after before] in Ha, Hr.
  change reFirstSentence
    with (Cat (LineStart false)
            (Cat (Plus (Unit (noneOf (js ".!?"))))
               (Unit (oneOf (js ".!?"))))) in Hr.
  apply reaches_Cat_inv in Hr as (s1 & H1 & Hr).
  apply reaches_Cat_inv in Hr as (s2 & H2 & H3).
  inversion H1; subst; try discriminate.
  apply reaches_Plus_Unit in H2 as (b & ds & E & F).
  inversion H3 as [|p s c t Hc Hp| | | | | | | | | | | | |]; subst.
  apply endsSentence_class in Hp as [Hend Hws].
  cbn [after] in E. unfold advance in Hm. cbn [after] in Hm.
  rewrite Hc in E, Hm. change (skipn 1 (c :: t)) with t in Hm.
  exists (b :: ds), c, pre, t. repeat split; auto.
  - rewrite Hm, E.
    replace ((b :: ds ++ c :: t)) with (((b :: ds) ++ [c]) ++ t)
      by (now rewrite <- app_assoc).
    apply firstn_consumed.
  - rewrite E. reflexivity.
  - eapply Forall_impl; [|exact F].
    intros a Hn [-> | [-> | ->]]; discriminate.
Qed.

Lemma reOverview_heading (content : jsstring) (m : rmatched) :
  exec reOverview content = Some m ->
  exists pre post, content = pre ++ js "##" ++ post.
Proof.
  unfold exec. intros H.
  apply searchFrom_found in H as (pre & here & e & Ha & Hr & _ & _).
  cbn [start after] in Ha.
  change reOverview
    with (Cat (Cat (chr 35) (chr 35))
            (Cat (Star space)
               (Cat (litI "Overview")
                  (Cat (Star space)
                     (Cat (Plus (chr 10))
                        (Group 1 (Plus (Unit (noneOf [10; 35])))))))))
    in Hr.
  apply reaches_Cat_inv in Hr as (s1 & Hr & _).
  apply reaches_Cat_inv in Hr as (s2 & H1 & H2).
  inversion H1 as [|p1 s c t Hc Hp| | | | | | | | | | | | |]; subst.
  inversion H2 as [|p2 s c' t' Hc' Hp'| | | | | | | | | | | | |]; subst.
  apply N.eqb_eq in Hp as <-, Hp' as <-.
  cbn [after] in Hc. unfold advance in Hc'. cbn [after] in Hc'.
  rewrite Hc in Hc'. change (skipn 1 (35 :: t)) with t in Hc'.
  exists pre, t'. rewrite Hc, Hc'. reflexivity.
Qed.

(** X27.  A description comes from a document with a second-level heading
    mark, is free of line feeds and number signs, and is either one
    sentence, closed by the first full stop, exclamation mark or question
    mark, or at most 150 units long. *)
Theorem extractDescription_clean (content d : jsstring) :
  extractDescription content = VString d ->
  (exists pre post, content = pre ++ js "##" ++ post)
  /\ Forall plainUnit d
  /\ ((exists body c,
         d = body ++ [c] /\ endsSentence c
         /\ Forall (fun a => ~ endsSentence a) body)
      \/ (length d <= 150)%nat).
Proof.
  unfold extractDescription.
  destruct (exec reOverview content) as [overviewMatch|] eqn:Ho;
    [|discriminate].
  pose proof (Forall_trim _ _ (reOverview_group _ _ Ho)) as Hdesc.
  set (desc := trim (group' 1 overviewMatch)) in *.
  destruct (exec reFirstSentence desc) as [firstSentence|] eqn:Hs;
    intros Hd; injection Hd as <-;
    (split; [eapply reOverview_heading; exact Ho|]).
  - apply reFirstSentence_matched in Hs
      as (body & c & pre & post & Hm & Hin & Hbody & Hend & Hws).
    rewrite Hm. split.
    + apply Forall_trim. rewrite Hin in Hdesc.
      apply Forall_app in Hdesc as [_ Hdesc].
      apply Forall_app in Hdesc as [Hb Hc].
      apply Forall_app. split; [exact Hb|].
      constructor; [now inversion Hc|constructor].
    + left. unfold trim.
      destruct (trimStart_closed body c Hws) as (body' & E & p & Hp).
      rewrite E, trimEnd_closed by exact Hws.
      exists body', c. repeat split; [exact Hend|].
      rewrite Hp in Hbody. now apply Forall_app in Hbody as [_ Hbody].
  - split.
    + apply Forall_trim. unfold slice. apply Forall_take, Forall_drop.
      exact Hdesc.
    + right. etransitivity; [apply trim_length|].
      unfold slice. rewrite length_firstn. lia.
Qed.

Lemma extractDescription_clean_witness :
  (exists pre post,
     text [js "# Plan"; js "## Overview"; [];
           js "Adds the login page. Logout comes later."]
     = pre ++ js "##" ++ post)
  /\ Forall plainUnit (js "Adds the login page.")
  /\ ((exists body c,
         js "Adds the login page." = body ++ [c] /\ endsSentence c
         /\ Forall (fun a => ~ endsSentence a) body)
      \/ (length (js "Adds the login page.") <= 150)%nat).
Proof.
  apply (extractDescription_clean
           (text [js "# Plan"; js "## Overview"; [];
                  js "Adds the login page. Logout comes later."])).
  vm_compute. reflexivity.
Defined.
